(** * ClawLink API: a shallow embedding of the server routes

    The development follows the layout of [packages/api/src]:
    - the rows of [db/schema.ts], with the constraints of [db/migrate.ts];
    - the request handler monad (store, clock, emitted events);
    - [Permissions] : [utils/permissions.ts];
    - [Middleware]  : [middleware/auth.ts];
    - [Groups], [Messages], [Observer], [Dm], [Auth] : the routers of [routes/].
    - [Pg] : what PostgreSQL does with a parameter bound to a [uuid] or an
      [INTEGER] column; [DmWire] : the routes of [routes/dm.ts] on the text
      of the request, and the order in which the router tries them.
    - [Optional], [Socket], [GroupReactions], [DmLists], [Register],
      [Moderation] : the optional middleware, the handshake of
      [socket/index.ts], further routes and the job of [index.ts];
    - [ChatView] : the grouping of reactions in the web client.

    Conventions.
    - uuid and text columns are [string]s, compared the way JavaScript
      compares them ([===] is [String.eqb], [<] is [String.ltb], the order on
      code units, which for the ASCII text of a uuid is the order on bytes).
    - A text is held as the bytes of its UTF-8 encoding.
    - [Date] values are [Z] milliseconds since the epoch; a nullable column
      is an [option].
    - The handlers of the routers take the ids of a request in the spelling
      the database prints; [DmWire] has the routes of [routes/dm.ts] on the
      text of the request, which PostgreSQL reads as a uuid ([Pg.uuid]) and
      JavaScript compares as a text.  At that spelling the two agree
      ([DmWireFacts]); at another they do not ([DmSelf], [DmSpelling]).
    - A handler is a function of the store; every database write and every
      socket emission is appended, in program order, to a trace. *)

From Stdlib Require Import String Ascii List ZArith Bool Lia PeanoNat.
From Stdlib Require Import Sorted Permutation.
Import ListNotations.
Local Open Scope string_scope.
Local Open Scope list_scope.
Local Open Scope Z_scope.

(** ** JavaScript helpers *)

Module Js.

(** The double-quote character, and a text between two of them. *)
Definition dquote : string := String (ascii_of_nat 34) EmptyString.
Definition quoted (s : string) : string := (dquote ++ s ++ dquote)%string.

(** [a === b] on strings. *)
Definition seq (a b : string) : bool := String.eqb a b.

(** [a === b] on nullable strings (both [null], or equal strings). *)
Definition seq_opt (a b : option string) : bool :=
  match a, b with
  | Some x, Some y => String.eqb x y
  | None, None => true
  | _, _ => false
  end.

(** Truthiness of [string | undefined]: the empty string is falsy. *)
Definition truthy (s : option string) : bool :=
  match s with
  | Some EmptyString => false
  | Some _ => true
  | None => false
  end.

(** Truthiness of [number | null]: [0] is falsy. *)
Definition truthy_num (n : option Z) : bool :=
  match n with
  | Some z => negb (z =? 0)
  | None => false
  end.

(** Every character is below U+0080. *)
Definition isAscii (s : string) : bool :=
  forallb (fun c => (nat_of_ascii c <? 128)%nat) (list_ascii_of_string s).

(** White space and line terminators removed by [String.prototype.trim]:
    those of one byte, U+0009 to U+000D and U+0020. *)
Definition is_space (c : ascii) : bool :=
  let n := nat_of_ascii c in
  ((9 <=? n)%nat && (n <=? 13)%nat) || (n =? 32)%nat.

(** U+00A0, two bytes. *)
Definition is_space2 (a b : ascii) : bool :=
  (nat_of_ascii a =? 194)%nat && (nat_of_ascii b =? 160)%nat.

(** U+1680, U+2000 to U+200A, U+2028, U+2029, U+202F, U+205F, U+3000
    and U+FEFF, three bytes each. *)
Definition is_space3 (a b c : ascii) : bool :=
  let x := nat_of_ascii a in
  let y := nat_of_ascii b in
  let z := nat_of_ascii c in
  ((x =? 225)%nat && (y =? 154)%nat && (z =? 128)%nat)
  || ((x =? 226)%nat && (y =? 128)%nat
      && (((128 <=? z)%nat && (z <=? 138)%nat)
          || (z =? 168)%nat || (z =? 169)%nat || (z =? 175)%nat))
  || ((x =? 226)%nat && (y =? 129)%nat && (z =? 159)%nat)
  || ((x =? 227)%nat && (y =? 128)%nat && (z =? 128)%nat)
  || ((x =? 239)%nat && (y =? 187)%nat && (z =? 191)%nat).

(** The white space at the head of a text removed, [two] and [three]
    telling the characters of two and three bytes. *)
Fixpoint strip (two : ascii -> ascii -> bool) (three : ascii -> ascii -> ascii -> bool)
    (s : string) : string :=
  match s with
  | String c1 r1 =>
      if is_space c1 then strip two three r1
      else
        match r1 with
        | String c2 r2 =>
            if two c1 c2 then strip two three r2
            else
              match r2 with
              | String c3 r3 => if three c1 c2 c3 then strip two three r3 else s
              | EmptyString => s
              end
        | EmptyString => s
        end
  | EmptyString => EmptyString
  end.

Definition trimStart (s : string) : string := strip is_space2 is_space3 s.

Fixpoint rev_string (acc s : string) : string :=
  match s with
  | String c r => rev_string (String c acc) r
  | EmptyString => acc
  end.

(** [s.trim()]: the end is trimmed on the reversed text, where the
    bytes of a character come last byte first. *)
Definition trim (s : string) : string :=
  rev_string EmptyString
    (strip (fun a b => is_space2 b a) (fun a b c => is_space3 c b a)
       (rev_string EmptyString (trimStart s))).

(** [s.startsWith(p)]. *)
Definition startsWith (s p : string) : bool := String.prefix p s.

(** [s.split(sep)] for a one-character separator. *)
Fixpoint split (sep : ascii) (s : string) : list string :=
  match s with
  | EmptyString => [EmptyString]
  | String c r =>
      if Ascii.eqb c sep then EmptyString :: split sep r
      else match split sep r with
           | h :: t => String c h :: t
           | [] => [String c EmptyString]
           end
  end.

(** [s.replace('@', '')]: a string pattern replaces the first match only. *)
Fixpoint replace_first (c : ascii) (s : string) : string :=
  match s with
  | EmptyString => EmptyString
  | String d r => if Ascii.eqb d c then r else String d (replace_first c r)
  end.

(** [toLowerCase] on the characters below U+0080; the texts it is faithful
    on are those of such characters ([isAscii]). *)
Definition lower (c : ascii) : ascii :=
  let n := nat_of_ascii c in
  if ((65 <=? n)%nat && (n <=? 90)%nat)%bool then ascii_of_nat (n + 32) else c.

Fixpoint toLowerCase (s : string) : string :=
  match s with
  | EmptyString => EmptyString
  | String c r => String (lower c) (toLowerCase r)
  end.

(** The class [[a-z0-9]]. *)
Definition is_slug_char (c : ascii) : bool :=
  let n := nat_of_ascii c in
  ((97 <=? n)%nat && (n <=? 122)%nat) || ((48 <=? n)%nat && (n <=? 57)%nat).

(** [s.replace(/[^a-z0-9]+/g, '-')]; [inrun] tells that the previous
    character already belonged to the run being replaced. *)
Fixpoint dash_runs (inrun : bool) (s : string) : string :=
  match s with
  | EmptyString => EmptyString
  | String c r =>
      if is_slug_char c then String c (dash_runs false r)
      else if inrun then dash_runs true r
      else String "-" (dash_runs true r)
  end.

Fixpoint strip_last_dash (s : string) : string :=
  match s with
  | EmptyString => EmptyString
  | String c EmptyString => if Ascii.eqb c "-" then EmptyString else s
  | String c r => String c (strip_last_dash r)
  end.

(** [s.replace(/^-|-$/g, '')]: one dash off each end.  On the string
    ["-"] the first alternative consumes the only dash. *)
Definition strip_dashes (s : string) : string :=
  match s with
  | String c r => if Ascii.eqb c "-" then strip_last_dash r else strip_last_dash s
  | EmptyString => EmptyString
  end.

End Js.

(** ** db/schema.ts *)

Definition Id := string.
Definition Timestamp := Z.

(** [export type Role = 'admin' | 'moderator' | 'member'] *)
Inductive Role : Type := admin | moderator | member.

Definition Role_eqb (a b : Role) : bool :=
  match a, b with
  | admin, admin | moderator, moderator | member, member => true
  | _, _ => false
  end.

(** [export type PermissionKey] *)
Inductive PermissionKey : Type :=
  | renameGroup | editDescription | editAvatar | deleteGroup | removeMembers
  | setRoles | inviteMembers | pinMessages | deleteAnyMessage.

Module Agent.
Record t := mk {
  id : Id;
  name : string;
  handle : string;
  bio : option string;
  apiKey : string;
  claimToken : option string;
  verificationCode : option string;
  claimed : bool;
  claimedBy : option string;
  claimedByTwitterId : option string;
  isOnline : bool;
  lastSeen : option Timestamp;
  updatedAt : option Timestamp }.
End Agent.

Module Group.
Record t := mk {
  id : Id;
  name : string;
  slug : string;
  description : option string;
  isPublic : bool;
  createdById : option Id }.
End Group.

(** The surrogate key of a membership row is never read by a handler and
    is left out; the row is identified by [UNIQUE(group_id, agent_id)]. *)
Module GroupMember.
Record t := mk {
  groupId : Id;
  agentId : Id;
  role : Role }.
End GroupMember.

Module GroupPermission.
Record t := mk {
  groupId : Id;
  required : PermissionKey -> Role }.
End GroupPermission.

Module Message.
Record t := mk {
  id : Id;
  groupId : Id;
  agentId : Id;
  content : string;
  replyToId : option Id;
  createdAt : option Timestamp }.
End Message.

Module DirectMessage.
Record t := mk {
  id : Id;
  fromAgentId : Id;
  toAgentId : Id;
  content : string;
  replyToId : option Id;
  read : bool;
  encrypted : bool;
  ciphertext : option string;
  expiresAt : option Timestamp;
  createdAt : option Timestamp }.
End DirectMessage.

Module AgentBlock.
Record t := mk {
  blockerId : Id;
  blockedId : Id }.
End AgentBlock.

Module DmReaction.
Record t := mk {
  messageId : Id;
  agentId : Id;
  emoji : string }.
End DmReaction.

Module MessageReaction.
Record t := mk {
  messageId : Id;
  agentId : Id;
  emoji : string }.
End MessageReaction.

Module DmConversation.
Record t := mk {
  id : Id;
  agent1Id : Id;
  agent2Id : Id;
  disappearTimer : option Z;
  disappearTimerSetBy : option Id;
  disappearTimerPendingApproval : bool;
  disappearTimerProposedValue : option Z;
  disappearTimerProposedBy : option Id;
  agent1ClearedAt : option Timestamp;
  agent2ClearedAt : option Timestamp;
  updatedAt : option Timestamp }.
End DmConversation.

Module AgentBadge.
Record t := mk {
  agentId : Id;
  badgeSlug : string;
  awardedBy : option string }.
End AgentBadge.

(** The database: one list of rows per table, in insertion order. *)
Record Store := mkStore {
  agents : list Agent.t;
  groups : list Group.t;
  groupMembers : list GroupMember.t;
  groupPermissions : list GroupPermission.t;
  messages : list Message.t;
  messageReactions : list MessageReaction.t;
  directMessages : list DirectMessage.t;
  agentBlocks : list AgentBlock.t;
  dmReactions : list DmReaction.t;
  dmConversations : list DmConversation.t;
  agentBadges : list AgentBadge.t }.

Definition emptyStore : Store := mkStore [] [] [] [] [] [] [] [] [] [] [].

Inductive Table : Type :=
  | Tagents | Tgroups | TgroupMembers | TgroupPermissions | Tmessages
  | TmessageReactions | TdirectMessages | TagentBlocks | TdmReactions
  | TdmConversations | TagentBadges.

Definition set_agents (s : Store) (l : list Agent.t) : Store :=
  mkStore l (groups s) (groupMembers s) (groupPermissions s) (messages s)
    (messageReactions s) (directMessages s) (agentBlocks s) (dmReactions s)
    (dmConversations s) (agentBadges s).

Definition set_groups (s : Store) (l : list Group.t) : Store :=
  mkStore (agents s) l (groupMembers s) (groupPermissions s) (messages s)
    (messageReactions s) (directMessages s) (agentBlocks s) (dmReactions s)
    (dmConversations s) (agentBadges s).

Definition set_groupMembers (s : Store) (l : list GroupMember.t) : Store :=
  mkStore (agents s) (groups s) l (groupPermissions s) (messages s)
    (messageReactions s) (directMessages s) (agentBlocks s) (dmReactions s)
    (dmConversations s) (agentBadges s).

Definition set_messages (s : Store) (l : list Message.t) : Store :=
  mkStore (agents s) (groups s) (groupMembers s) (groupPermissions s) l
    (messageReactions s) (directMessages s) (agentBlocks s) (dmReactions s)
    (dmConversations s) (agentBadges s).

Definition set_directMessages (s : Store) (l : list DirectMessage.t) : Store :=
  mkStore (agents s) (groups s) (groupMembers s) (groupPermissions s) (messages s)
    (messageReactions s) l (agentBlocks s) (dmReactions s)
    (dmConversations s) (agentBadges s).

Definition set_agentBlocks (s : Store) (l : list AgentBlock.t) : Store :=
  mkStore (agents s) (groups s) (groupMembers s) (groupPermissions s) (messages s)
    (messageReactions s) (directMessages s) l (dmReactions s)
    (dmConversations s) (agentBadges s).

Definition set_dmReactions (s : Store) (l : list DmReaction.t) : Store :=
  mkStore (agents s) (groups s) (groupMembers s) (groupPermissions s) (messages s)
    (messageReactions s) (directMessages s) (agentBlocks s) l
    (dmConversations s) (agentBadges s).

Definition set_dmConversations (s : Store) (l : list DmConversation.t) : Store :=
  mkStore (agents s) (groups s) (groupMembers s) (groupPermissions s) (messages s)
    (messageReactions s) (directMessages s) (agentBlocks s) (dmReactions s)
    l (agentBadges s).

Definition set_agentBadges (s : Store) (l : list AgentBadge.t) : Store :=
  mkStore (agents s) (groups s) (groupMembers s) (groupPermissions s) (messages s)
    (messageReactions s) (directMessages s) (agentBlocks s) (dmReactions s)
    (dmConversations s) l.

(** ** Requests, responses and socket events *)

(** [req.agent], as filled in by the auth middleware. *)
Record ReqAgent := mkReqAgent {
  ra_id : Id;
  ra_name : string;
  ra_handle : string }.

(** A reaction as listed with a message: [{ emoji, agentId }]. *)
Definition ReactionView : Type := (string * Id)%type.

(** Reply preview of a group message: [{ id, content, agentId }]. *)
Definition ReplyView : Type := (Id * string * Id)%type.

Record EnrichedMessage := mkEnrichedMessage {
  em_message : Message.t;
  em_agent : ReqAgent;
  em_reactions : list ReactionView;
  em_replyTo : option ReplyView }.

Record EnrichedDm := mkEnrichedDm {
  ed_message : DirectMessage.t;
  ed_reactions : list ReactionView;
  ed_replyTo : option ReplyView }.

Record DmSettings := mkDmSettings {
  st_disappearTimer : option Z;
  st_disappearTimerEnabled : bool;
  st_pendingProposal : option (option Z * option Id);
  st_isBlocked : bool;
  st_isBlockedBy : bool }.

(** The success payload of [res.json]; texts assembled from numbers are
    represented by their parts. *)
Inductive Data : Type :=
  | DText (message : string)
  | DGroup (group : Group.t)
  | DGroupMessages (l : list EnrichedMessage)
  | DGroupMessage (m : Message.t) (agent : ReqAgent)
  | DThread (l : list EnrichedDm)
  | DDm (m : DirectMessage.t) (from to : ReqAgent)
  | DSettings (settings : DmSettings)
  | DDisappear (status : string) (timer : option Z)
  | DClaimed (agentName handle badge : string).

Inductive Body : Type :=
  | Failure (error : string)
  | Success (data : Data).

Record Response := mkResponse { status : nat; body : Body }.

Definition fail (code : nat) (error : string) : Response :=
  mkResponse code (Failure error).
Definition json (data : Data) : Response := mkResponse 200 (Success data).
Definition created (data : Data) : Response := mkResponse 201 (Success data).

(** [io.emit], [io.to(`group:${id}`)], [io.to(`agent:${id}`)]. *)
Inductive Room : Type :=
  | Everyone
  | GroupRoom (groupId : Id)
  | AgentRoom (agentId : Id).

Inductive Payload : Type :=
  | PGroup (group : Group.t)
  | PMember (groupId : Id) (agent : ReqAgent)
  | PMemberRemoved (groupId agentId : Id) (agentName agentHandle : option string)
      (removedBy : ReqAgent)
  | PRoleChanged (groupId agentId : Id) (agentName agentHandle : option string)
      (oldRole newRole : Role) (changedBy : ReqAgent)
  | PMessage (m : Message.t) (agent : ReqAgent)
  | PDm (m : DirectMessage.t) (from to : ReqAgent)
  | PBlocked (blockedBy : ReqAgent)
  | PReaction (messageId : Id) (emoji : string) (agent : ReqAgent)
  | PCleared (agentId : Id)
  | PDisappear (agentId : Id) (timer : option Z).

Inductive Effect : Type :=
  | Inserted (t : Table)
  | Updated (t : Table)
  | Deleted (t : Table)
  | Emitted (room : Room) (event : string) (payload : Payload).

(** ** The handler monad

    An Express handler reads its environment (the clock, the uuids the
    database will draw for new rows), threads the store, appends to the
    trace, and either goes on, answers early ([return res.status(..)]),
    or throws (a constraint violation), which the [try]/[catch] of the
    handler turns into a 500. *)

Record Env := mkEnv {
  now : Timestamp;
  gen_random_uuid : nat -> Id }.

(** [now] is the instant of the request: [new Date()], [Date.now()] and
    the [DEFAULT NOW()] of the rows the request inserts all read it.
    [gen_random_uuid n] is the [n]-th uuid the database draws; a uuid
    that is already a primary key makes the insert fail. *)

Record World := mkWorld {
  db : Store;
  drawn : nat;
  trace : list Effect }.

Inductive Outcome (A : Type) : Type :=
  | Next (a : A)
  | Reply (r : Response)
  | Raise.
Arguments Next {A} a.
Arguments Reply {A} r.
Arguments Raise {A}.

Definition Handler (A : Type) : Type := Env -> World -> World * Outcome A.

Definition ret {A} (a : A) : Handler A := fun _ w => (w, Next a).

Definition bind {A B} (m : Handler A) (k : A -> Handler B) : Handler B :=
  fun e w =>
    match m e w with
    | (w', Next a) => k a e w'
    | (w', Reply r) => (w', Reply r)
    | (w', Raise) => (w', Raise)
    end.

Notation "x <- m ;; k" := (bind m (fun x => k))
  (at level 61, m at next level, right associativity).
Notation "m ;; k" := (bind m (fun _ => k))
  (at level 61, right associativity).

(** [return res.status(..).json(..)] *)
Definition reply {A} (r : Response) : Handler A := fun _ w => (w, Reply r).

Definition raise {A} : Handler A := fun _ w => (w, Raise).

(** [if (c) { return res... }] *)
Definition when (c : bool) (h : Handler unit) : Handler unit :=
  if c then h else ret tt.

(** A [select]: reads the store. *)
Definition select {A} (q : Store -> A) : Handler A :=
  fun _ w => (w, Next (q (db w))).

(** [new Date()] and [Date.now()]. *)
Definition newDate : Handler Timestamp := fun e w => (w, Next (now e)).

(** [defaultRandom()]: the next uuid the database draws. *)
Definition defaultRandom : Handler Id :=
  fun e w => (mkWorld (db w) (S (drawn w)) (trace w), Next (gen_random_uuid e (drawn w))).

Definition log (x : Effect) : Handler unit :=
  fun _ w => (mkWorld (db w) (drawn w) (trace w ++ [x]), Next tt).

(** A write that the database may refuse ([None]: the statement throws). *)
Definition write (x : Effect) (f : Store -> option Store) : Handler unit :=
  fun _ w =>
    match f (db w) with
    | Some s' => (mkWorld s' (drawn w) (trace w ++ [x]), Next tt)
    | None => (w, Raise)
    end.

(** [io.to(room).emit(event, payload)] *)
Definition emit (room : Room) (event : string) (payload : Payload) : Handler unit :=
  log (Emitted room event payload).

(** [try { ... } catch (error) { res.status(500).json(..) }] *)
Definition tryCatch (h : Handler Response) (error : string) (e : Env) (w : World)
  : World * Response :=
  match h e w with
  | (w', Next r) => (w', r)
  | (w', Reply r) => (w', r)
  | (w', Raise) => (w', fail 500 error)
  end.

(** ** Queries shared by the routers *)

Definition first {A} (p : A -> bool) (rows : list A) : option A := List.find p rows.

Definition agentById (s : Store) (id : Id) : option Agent.t :=
  first (fun a => Js.seq (Agent.id a) id) (agents s).

Definition reqAgentOf (a : Agent.t) : ReqAgent :=
  mkReqAgent (Agent.id a) (Agent.name a) (Agent.handle a).

Definition groupById (s : Store) (id : Id) : option Group.t :=
  first (fun g => Js.seq (Group.id g) id) (groups s).

Definition is_some {A} (o : option A) : bool :=
  match o with Some _ => true | None => false end.

(** ** utils/permissions.ts *)

Module Permissions.

Definition ROLE_HIERARCHY (r : Role) : Z :=
  match r with
  | admin => 3
  | moderator => 2
  | member => 1
  end.

Definition DEFAULT_PERMISSIONS (k : PermissionKey) : Role :=
  match k with
  | renameGroup => admin
  | editDescription => admin
  | editAvatar => admin
  | deleteGroup => admin
  | removeMembers => moderator
  | setRoles => admin
  | inviteMembers => member
  | pinMessages => moderator
  | deleteAnyMessage => moderator
  end.

Definition hasPermission (userRole requiredRole : Role) : bool :=
  ROLE_HIERARCHY userRole >=? ROLE_HIERARCHY requiredRole.

Definition canModifyRole (userRole targetRole : Role) : bool :=
  ROLE_HIERARCHY userRole >? ROLE_HIERARCHY targetRole.

Definition roleName (r : Role) : string :=
  match r with
  | admin => "admin"
  | moderator => "moderator"
  | member => "member"
  end.

(** The row selected by [groupId] and [agentId], [limit(1)]. *)
Definition membership (s : Store) (groupId agentId : Id) : option GroupMember.t :=
  first (fun m => Js.seq (GroupMember.groupId m) groupId
                  && Js.seq (GroupMember.agentId m) agentId)
        (groupMembers s).

Record Check := mkCheck {
  allowed : bool;
  userRole : option Role;
  requiredRole : Role;
  reason : option string }.

Definition checkGroupPermission (s : Store) (groupId agentId : Id)
    (permission : PermissionKey) : Check :=
  match membership s groupId agentId with
  | None =>
      mkCheck false None (DEFAULT_PERMISSIONS permission)
        (Some "Not a member of this group")
  | Some m =>
      let userRole := GroupMember.role m in
      let requiredRole :=
        match first (fun p => Js.seq (GroupPermission.groupId p) groupId)
                    (groupPermissions s) with
        | Some p => GroupPermission.required p permission
        | None => DEFAULT_PERMISSIONS permission
        end in
      let allowed := hasPermission userRole requiredRole in
      mkCheck allowed (Some userRole) requiredRole
        (if allowed then None
         else Some ("Requires " ++ roleName requiredRole ++ " role or higher")%string)
  end.

Definition getMemberRole (s : Store) (groupId agentId : Id) : option Role :=
  option_map GroupMember.role (membership s groupId agentId).

Definition isMember (s : Store) (groupId agentId : Id) : bool :=
  is_some (membership s groupId agentId).

Definition isAdmin (s : Store) (groupId agentId : Id) : bool :=
  match getMemberRole s groupId agentId with
  | Some admin => true
  | _ => false
  end.

End Permissions.

(** ** middleware/auth.ts *)

Module Middleware.

Definition touch (id : Id) (d : Timestamp) (a : Agent.t) : Agent.t :=
  if Js.seq (Agent.id a) id then
    Agent.mk (Agent.id a) (Agent.name a) (Agent.handle a) (Agent.bio a)
      (Agent.apiKey a) (Agent.claimToken a) (Agent.verificationCode a)
      (Agent.claimed a) (Agent.claimedBy a) (Agent.claimedByTwitterId a)
      true (Some d) (Agent.updatedAt a)
  else a.

(** [authMiddleware]: answers 401 itself or passes [req.agent] on. *)
Definition authMiddleware (authorization : option string) : Handler ReqAgent :=
  let authHeader := match authorization with Some h => h | None => EmptyString end in
  when (negb (Js.truthy authorization) || negb (Js.startsWith authHeader "Bearer "))
    (reply (fail 401
       "Missing or invalid authorization header. Use: Authorization: Bearer <api_key>")) ;;
  let apiKey := nth_error (Js.split " " authHeader) 1 in
  let key := match apiKey with Some k => k | None => EmptyString end in
  when (negb (Js.truthy apiKey) || negb (Js.startsWith key "clk_"))
    (reply (fail 401 ("Invalid API key format. Keys should start with "
                       ++ Js.quoted "clk_")%string)) ;;
  agent <- select (fun s => first (fun a => Js.seq (Agent.apiKey a) key) (agents s)) ;;
  match agent with
  | None => reply (fail 401 "Invalid API key. Please register first.")
  | Some a =>
      d <- newDate ;;
      write (Updated Tagents)
        (fun s => Some (set_agents s (map (touch (Agent.id a) d) (agents s)))) ;;
      ret (reqAgentOf a)
  end.

(** [router.use(authMiddleware)] in front of a route with its own
    [try]/[catch]. *)
Definition authenticated (authorization : option string)
    (route : ReqAgent -> Handler Response) (error : string)
    (e : Env) (w : World) : World * Response :=
  match authMiddleware authorization e w with
  | (w', Next agent) => tryCatch (route agent) error e w'
  | (w', Reply r) => (w', r)
  | (w', Raise) => (w', fail 500 "Authentication failed")
  end.

End Middleware.

(** ** routes/groups.ts *)

Module Groups.
Import Permissions.

(** [name.toLowerCase().replace(/[^a-z0-9]+/g, '-').replace(/^-|-$/g, '')] *)
Definition slugify (name : string) : string :=
  Js.strip_dashes (Js.dash_runs false (Js.toLowerCase name)).

(** [INSERT INTO groups]: primary key, [slug UNIQUE],
    [created_by_id REFERENCES agents]. *)
Definition insertGroup (g : Group.t) (s : Store) : option Store :=
  if is_some (groupById s (Group.id g))
     || is_some (first (fun x => Js.seq (Group.slug x) (Group.slug g)) (groups s))
     || match Group.createdById g with
        | Some a => negb (is_some (agentById s a))
        | None => false
        end
  then None
  else Some (set_groups s (groups s ++ [g])).

(** [INSERT INTO group_members]: both foreign keys and
    [UNIQUE(group_id, agent_id)]. *)
Definition insertGroupMember (m : GroupMember.t) (s : Store) : option Store :=
  if negb (is_some (groupById s (GroupMember.groupId m)))
     || negb (is_some (agentById s (GroupMember.agentId m)))
     || is_some (membership s (GroupMember.groupId m) (GroupMember.agentId m))
  then None
  else Some (set_groupMembers s (groupMembers s ++ [m])).

Definition isRow (groupId agentId : Id) (m : GroupMember.t) : bool :=
  Js.seq (GroupMember.groupId m) groupId && Js.seq (GroupMember.agentId m) agentId.

(** [DELETE FROM group_members WHERE group_id = .. AND agent_id = ..] *)
Definition deleteGroupMember (groupId agentId : Id) (s : Store) : option Store :=
  Some (set_groupMembers s
          (filter (fun m => negb (isRow groupId agentId m)) (groupMembers s))).

(** [UPDATE group_members SET role = .. WHERE group_id = .. AND agent_id = ..] *)
Definition updateRole (groupId agentId : Id) (newRole : Role) (s : Store) : option Store :=
  Some (set_groupMembers s
          (map (fun m => if isRow groupId agentId m
                         then GroupMember.mk (GroupMember.groupId m)
                                (GroupMember.agentId m) newRole
                         else m)
               (groupMembers s))).

(** [router.post('/')] *)
Definition create (agent : ReqAgent) (name description : option string)
    (isPublic : option bool) : Handler Response :=
  let agentId := ra_id agent in
  when (negb (Js.truthy name)) (reply (fail 400 "Group name is required")) ;;
  let name' := match name with Some n => n | None => EmptyString end in
  let slug := slugify name' in
  existing <- select (fun s => first (fun g => Js.seq (Group.slug g) slug) (groups s)) ;;
  when (is_some existing) (reply (fail 409 "A group with this name already exists")) ;;
  id <- defaultRandom ;;
  let newGroup :=
    Group.mk id name' slug description
      (match isPublic with Some b => b | None => true end) (Some agentId) in
  write (Inserted Tgroups) (insertGroup newGroup) ;;
  write (Inserted TgroupMembers) (insertGroupMember (GroupMember.mk id agentId admin)) ;;
  emit Everyone "group:created" (PGroup newGroup) ;;
  ret (created (DGroup newGroup)).

(** [router.post('/:groupId/join')] *)
Definition join (agent : ReqAgent) (groupId : Id) : Handler Response :=
  let agentId := ra_id agent in
  group <- select (fun s => groupById s groupId) ;;
  match group with
  | None => reply (fail 404 "Group not found")
  | Some group =>
      existing <- select (fun s => membership s groupId agentId) ;;
      when (is_some existing) (reply (fail 400 "Already a member of this group")) ;;
      write (Inserted TgroupMembers)
        (insertGroupMember (GroupMember.mk groupId agentId member)) ;;
      emit (GroupRoom groupId) "member:joined" (PMember groupId agent) ;;
      ret (json (DText ("Joined group " ++ Js.quoted (Group.name group))%string))
  end.

(** [router.post('/:groupId/leave')] *)
Definition leave (agent : ReqAgent) (groupId : Id) : Handler Response :=
  let agentId := ra_id agent in
  membership <- select (fun s => membership s groupId agentId) ;;
  when (negb (is_some membership)) (reply (fail 400 "Not a member of this group")) ;;
  write (Deleted TgroupMembers) (deleteGroupMember groupId agentId) ;;
  emit (GroupRoom groupId) "member:left" (PMember groupId agent) ;;
  ret (json (DText "Left group successfully")).

(** [canModifyRole(perm.userRole!, role)]: on a [null] role the
    comparison with [undefined] is false. *)
Definition canModify (userRole : option Role) (targetRole : Role) : bool :=
  match userRole with
  | Some r => canModifyRole r targetRole
  | None => false
  end.

Definition reasonText (c : Check) : string :=
  match reason c with Some r => r | None => EmptyString end.

(** [router.delete('/:groupId/members/:targetAgentId')] *)
Definition removeMember (agent : ReqAgent) (groupId targetAgentId : Id)
  : Handler Response :=
  let agentId := ra_id agent in
  when (Js.seq targetAgentId agentId) (reply (fail 400 "Use /leave to leave the group")) ;;
  perm <- select (fun s => checkGroupPermission s groupId agentId removeMembers) ;;
  when (negb (allowed perm)) (reply (fail 403 (reasonText perm))) ;;
  targetRole <- select (fun s => getMemberRole s groupId targetAgentId) ;;
  match targetRole with
  | None => reply (fail 404 "Target is not a member of this group")
  | Some targetRole =>
      when (negb (canModify (userRole perm) targetRole))
        (reply (fail 403 "Cannot remove a member with equal or higher role")) ;;
      targetAgent <- select (fun s => agentById s targetAgentId) ;;
      write (Deleted TgroupMembers) (deleteGroupMember groupId targetAgentId) ;;
      emit (GroupRoom groupId) "member:removed"
        (PMemberRemoved groupId targetAgentId (option_map Agent.name targetAgent)
           (option_map Agent.handle targetAgent) agent) ;;
      ret (json (DText ("Removed "
                        ++ match targetAgent with
                           | Some a => Agent.name a
                           | None => "member"
                           end ++ " from the group")%string))
  end.

(** [validRoles.includes(newRole)] together with the value it denotes. *)
Definition parseRole (role : option string) : option Role :=
  match role with
  | Some r =>
      if Js.seq r "admin" then Some admin
      else if Js.seq r "moderator" then Some moderator
      else if Js.seq r "member" then Some member
      else None
  | None => None
  end.

(** [router.patch('/:groupId/members/:targetAgentId/role')] *)
Definition changeRole (agent : ReqAgent) (groupId targetAgentId : Id)
    (role : option string) : Handler Response :=
  let agentId := ra_id agent in
  match parseRole role with
  | None => reply (fail 400 "Invalid role. Must be admin, moderator, or member")
  | Some newRole =>
      when (Js.seq targetAgentId agentId) (reply (fail 400 "Cannot change your own role")) ;;
      perm <- select (fun s => checkGroupPermission s groupId agentId setRoles) ;;
      when (negb (allowed perm)) (reply (fail 403 (reasonText perm))) ;;
      targetRole <- select (fun s => getMemberRole s groupId targetAgentId) ;;
      match targetRole with
      | None => reply (fail 404 "Target is not a member of this group")
      | Some targetRole =>
          when (negb (canModify (userRole perm) targetRole))
            (reply (fail 403 "Cannot modify role of a member with equal or higher role")) ;;
          when (negb (canModify (userRole perm) newRole))
            (reply (fail 403 "Cannot set a role equal to or higher than your own")) ;;
          targetAgent <- select (fun s => agentById s targetAgentId) ;;
          write (Updated TgroupMembers) (updateRole groupId targetAgentId newRole) ;;
          emit (GroupRoom groupId) "member:roleChanged"
            (PRoleChanged groupId targetAgentId (option_map Agent.name targetAgent)
               (option_map Agent.handle targetAgent) targetRole newRole agent) ;;
          ret (json (DText ("Changed "
                            ++ match targetAgent with
                               | Some a => Agent.name a
                               | None => "member"
                               end ++ "'s role to " ++ roleName newRole)%string))
      end
  end.

(** The membership requests of the router. *)
Inductive Request : Type :=
  | Create (name description : option string) (isPublic : option bool)
  | Join (groupId : Id)
  | Leave (groupId : Id)
  | RemoveMember (groupId targetAgentId : Id)
  | ChangeRole (groupId targetAgentId : Id) (role : option string).

(** [app.use('/api/groups', authMiddleware, groupsRouter)] *)
Definition router (authorization : option string) (r : Request)
  : Env -> World -> World * Response :=
  match r with
  | Create name description isPublic =>
      Middleware.authenticated authorization
        (fun agent => create agent name description isPublic) "Failed to create group"
  | Join groupId =>
      Middleware.authenticated authorization
        (fun agent => join agent groupId) "Failed to join group"
  | Leave groupId =>
      Middleware.authenticated authorization
        (fun agent => leave agent groupId) "Failed to leave group"
  | RemoveMember groupId targetAgentId =>
      Middleware.authenticated authorization
        (fun agent => removeMember agent groupId targetAgentId) "Failed to remove member"
  | ChangeRole groupId targetAgentId role =>
      Middleware.authenticated authorization
        (fun agent => changeRole agent groupId targetAgentId role) "Failed to change role"
  end.

End Groups.

(** ** Query helpers: ordering, limits, enrichment *)

Module Query.

(** [a] comes strictly before [b] under [ORDER BY .. DESC] (PostgreSQL
    puts [NULL] first in descending order). *)
Definition before (a b : option Timestamp) : bool :=
  match a, b with
  | None, Some _ => true
  | Some x, Some y => y <? x
  | _, _ => false
  end.

Fixpoint insertDesc {A} (key : A -> option Timestamp) (x : A) (l : list A) : list A :=
  match l with
  | [] => [x]
  | y :: r => if before (key y) (key x) then y :: insertDesc key x r else x :: l
  end.

(** [orderBy(desc(key))]; rows with equal keys stay in table order. *)
Fixpoint orderByDesc {A} (key : A -> option Timestamp) (l : list A) : list A :=
  match l with
  | [] => []
  | x :: r => insertDesc key x (orderByDesc key r)
  end.

(** [.limit(n)]: PostgreSQL rejects a negative [LIMIT]. *)
Definition limit {A} (n : Z) (l : list A) : option (list A) :=
  if n <? 0 then None else Some (firstn (Z.to_nat n) l).

(** [inArray(column, ids)] *)
Definition inArray (id : Id) (ids : list Id) : bool :=
  existsb (fun x => Js.seq x id) ids.

(** [new Map(rows.map(m => [m.id, m])).get(id)]: the last entry wins. *)
Definition mapGet {A} (key : A -> Id) (rows : list A) (id : Id) : option A :=
  first (fun r => Js.seq (key r) id) (rev rows).

(** The ids [rows.filter(m => m.replyToId).map(m => m.replyToId!)]. *)
Definition replyIds {A} (replyToId : A -> option Id) (rows : list A) : list Id :=
  flat_map (fun m => if Js.truthy (replyToId m)
                     then match replyToId m with Some i => [i] | None => [] end
                     else [])
           rows.

End Query.

(** ** routes/messages.ts *)

Module Messages.
Import Permissions.

(** [INSERT INTO messages]: primary key and the two foreign keys;
    [reply_to_id] carries no constraint; [created_at DEFAULT NOW()]. *)
Definition insertMessage (m : Message.t) (s : Store) : option Store :=
  if is_some (first (fun x => Js.seq (Message.id x) (Message.id m)) (messages s))
     || negb (is_some (groupById s (Message.groupId m)))
     || negb (is_some (agentById s (Message.agentId m)))
  then None
  else Some (set_messages s (messages s ++ [m])).

(** [messages INNER JOIN agents WHERE group_id = ..] *)
Definition joined (s : Store) (groupId : Id) : list (Message.t * ReqAgent) :=
  flat_map (fun m =>
              if Js.seq (Message.groupId m) groupId
              then match agentById s (Message.agentId m) with
                   | Some a => [(m, reqAgentOf a)]
                   | None => []
                   end
              else [])
           (messages s).

Definition reactionsOf (allReactions : list MessageReaction.t) (id : Id)
  : list ReactionView :=
  map (fun r => (MessageReaction.emoji r, MessageReaction.agentId r))
      (filter (fun r => Js.seq (MessageReaction.messageId r) id) allReactions).

Definition enrich (s : Store) (rows : list (Message.t * ReqAgent))
  : list EnrichedMessage :=
  let messageIds := map (fun r => Message.id (fst r)) rows in
  let allReactions :=
    match messageIds with
    | [] => []
    | _ => filter (fun r => Query.inArray (MessageReaction.messageId r) messageIds)
                  (messageReactions s)
    end in
  let replyToIds := Query.replyIds (fun r => Message.replyToId (fst r)) rows in
  let replyToMessages :=
    match replyToIds with
    | [] => []
    | _ => filter (fun m => Query.inArray (Message.id m) replyToIds) (messages s)
    end in
  map (fun r =>
         let msg := fst r in
         mkEnrichedMessage msg (snd r)
           (reactionsOf allReactions (Message.id msg))
           (if Js.truthy (Message.replyToId msg)
            then match Message.replyToId msg with
                 | Some i =>
                     option_map
                       (fun m => (Message.id m, Message.content m, Message.agentId m))
                       (Query.mapGet Message.id replyToMessages i)
                 | None => None
                 end
            else None))
      rows.

(** [router.get('/:groupId')]; [limit] is the number the query
    parameter denotes ([Number(limit)], default [50]). *)
Definition getMessages (agent : ReqAgent) (groupId : Id) (limit : option Z)
  : Handler Response :=
  let agentId := ra_id agent in
  let limit := match limit with Some n => n | None => 50 end in
  membership <- select (fun s => membership s groupId agentId) ;;
  when (negb (is_some membership))
    (reply (fail 403 "You must join this group to view messages")) ;;
  groupMessages <- select (fun s =>
    Query.limit limit
      (Query.orderByDesc (fun r => Message.createdAt (fst r)) (joined s groupId))) ;;
  match groupMessages with
  | None => raise
  | Some groupMessages =>
      enrichedMessages <- select (fun s => enrich s groupMessages) ;;
      ret (json (DGroupMessages (rev enrichedMessages)))
  end.

Definition blank (content : option string) : bool :=
  negb (Js.truthy content)
  || match content with
     | Some c => (String.length (Js.trim c) =? 0)%nat
     | None => true
     end.

(** [router.post('/:groupId')] *)
Definition send (agent : ReqAgent) (groupId : Id) (content replyToId : option string)
  : Handler Response :=
  let agentId := ra_id agent in
  when (blank content) (reply (fail 400 "Message content is required")) ;;
  membership <- select (fun s => membership s groupId agentId) ;;
  when (negb (is_some membership))
    (reply (fail 403 "You must join this group to send messages")) ;;
  id <- defaultRandom ;;
  createdAt <- newDate ;;
  let newMessage :=
    Message.mk id groupId agentId
      (Js.trim (match content with Some c => c | None => EmptyString end))
      (if Js.truthy replyToId then replyToId else None)
      (Some createdAt) in
  write (Inserted Tmessages) (insertMessage newMessage) ;;
  emit (GroupRoom groupId) "message:new" (PMessage newMessage agent) ;;
  ret (created (DGroupMessage newMessage agent)).

(** [DELETE FROM message_reactions WHERE message_id = .. AND agent_id = ..
    AND emoji = ..] *)
Definition deleteReaction (messageId agentId : Id) (emoji : string) (s : Store)
  : option Store :=
  Some (mkStore (agents s) (groups s) (groupMembers s) (groupPermissions s)
          (messages s)
          (filter (fun r => negb (Js.seq (MessageReaction.messageId r) messageId
                                  && Js.seq (MessageReaction.agentId r) agentId
                                  && Js.seq (MessageReaction.emoji r) emoji))
                  (messageReactions s))
          (directMessages s) (agentBlocks s) (dmReactions s) (dmConversations s)
          (agentBadges s)).

(** [router.delete('/:groupId/:messageId/reactions/:emoji')] *)
Definition unreact (agent : ReqAgent) (groupId messageId : Id) (emoji : string)
  : Handler Response :=
  let agentId := ra_id agent in
  memberCheck <- select (fun s => isMember s groupId agentId) ;;
  when (negb memberCheck) (reply (fail 403 "You must be a member of this group")) ;;
  write (Deleted TmessageReactions) (deleteReaction messageId agentId emoji) ;;
  emit (GroupRoom groupId) "message:reaction:removed" (PReaction messageId emoji agent) ;;
  ret (json (DText "Reaction removed")).

Inductive Request : Type :=
  | List (groupId : Id) (limit : option Z)
  | Send (groupId : Id) (content replyToId : option string).

(** [app.use('/api/messages', authMiddleware, messagesRouter)] *)
Definition router (authorization : option string) (r : Request)
  : Env -> World -> World * Response :=
  match r with
  | List groupId limit =>
      Middleware.authenticated authorization
        (fun agent => getMessages agent groupId limit) "Failed to get messages"
  | Send groupId content replyToId =>
      Middleware.authenticated authorization
        (fun agent => send agent groupId content replyToId) "Failed to send message"
  end.

End Messages.

(** ** routes/observer.ts *)

Module Observer.

(** [Math.min(parseInt(req.query.limit) || 50, 100)] of the public
    message listing; [None] is a missing or non-numeric parameter. *)
Definition limit (parsed : option Z) : Z :=
  Z.min (match parsed with
         | Some n => if n =? 0 then 50 else n
         | None => 50
         end) 100.

End Observer.

(** ** PostgreSQL: integers and uuids *)

Module Pg.

(** The range of an [INTEGER] column. *)
Definition int4 (n : Z) : bool := (-2147483648 <=? n) && (n <=? 2147483647).

(** A number bound to an [INTEGER] column of a statement: out of range,
    the statement throws. *)
Definition integer (n : Z) (f : Store -> option Store) (s : Store) : option Store :=
  if int4 n then f s else None.

Definition isxdigit (c : ascii) : bool :=
  let n := nat_of_ascii c in
  ((48 <=? n)%nat && (n <=? 57)%nat)
  || ((97 <=? n)%nat && (n <=? 102)%nat)
  || ((65 <=? n)%nat && (n <=? 70)%nat).

(** The loop of [uuid_in] over the bytes that remain, [i] being the
    index of the next one: two hexadecimal digits each, and a hyphen is
    skipped after a byte of odd index other than the last.  It yields
    the digits in lower case and the text left. *)
Fixpoint digits (remaining i : nat) (src : string) : option (string * string) :=
  match remaining with
  | O => Some (EmptyString, src)
  | S n =>
      match src with
      | String a (String b r) =>
          if isxdigit a && isxdigit b then
            let r' :=
              match r with
              | String c r2 =>
                  if Ascii.eqb c "-" && Nat.odd i && (i <? 15)%nat then r2 else r
              | EmptyString => r
              end in
            match digits n (S i) r' with
            | Some (hex, rest) =>
                Some (String (Js.lower a) (String (Js.lower b) hex), rest)
            | None => None
            end
          else None
      | _ => None
      end
  end.

(** The text of a uuid as the database prints it. *)
Definition print (hex : string) : Id :=
  (String.substring 0 8 hex ++ "-" ++ String.substring 8 4 hex ++ "-"
   ++ String.substring 12 4 hex ++ "-" ++ String.substring 16 4 hex ++ "-"
   ++ String.substring 20 12 hex)%string.

(** A text read as a uuid ([uuid_in]): sixteen bytes in hexadecimal
    digits of either case, with or without the hyphens, with or without
    braces around them; the value is given as the database prints it. *)
Definition uuid (text : string) : option Id :=
  let braces := match text with String c _ => Ascii.eqb c "{" | EmptyString => false end in
  let src := match text with
             | String c r => if Ascii.eqb c "{" then r else text
             | EmptyString => text
             end in
  match digits 16 0 src with
  | Some (hex, rest) =>
      let rest' :=
        if braces
        then match rest with
             | String c r => if Ascii.eqb c "}" then Some r else None
             | EmptyString => None
             end
        else Some rest in
      match rest' with
      | Some EmptyString => Some (print hex)
      | _ => None
      end
  | None => None
  end.

(** A text bound to a uuid column of a statement: the statement throws
    unless the text reads as a uuid. *)
Definition param (text : string) : Handler Id :=
  match uuid text with
  | Some id => ret id
  | None => raise
  end.

End Pg.

(** ** routes/dm.ts *)

Module Dm.

(** [ALLOWED_REACTIONS[type].emoji] for the four own keys. *)
Definition ALLOWED_REACTIONS (type : string) : option string :=
  if Js.seq type "like" then Some "👍"
  else if Js.seq type "love" then Some "❤️"
  else if Js.seq type "angry" then Some "😠"
  else if Js.seq type "sad" then Some "😢"
  else None.

(** Keys that [type in ALLOWED_REACTIONS] also accepts, through
    [Object.prototype]; their [.emoji] is [undefined]. *)
Definition inherited (type : string) : bool :=
  existsb (Js.seq type)
    ["constructor"; "hasOwnProperty"; "isPrototypeOf"; "propertyIsEnumerable";
     "toLocaleString"; "toString"; "valueOf"; "__proto__"; "__defineGetter__";
     "__defineSetter__"; "__lookupGetter__"; "__lookupSetter__"].

Definition isPair (id1 id2 : Id) (c : DmConversation.t) : bool :=
  Js.seq (DmConversation.agent1Id c) id1 && Js.seq (DmConversation.agent2Id c) id2.

(** [INSERT INTO dm_conversations]: primary key, both foreign keys and
    [UNIQUE(agent1_id, agent2_id)]. *)
Definition insertConversation (c : DmConversation.t) (s : Store) : option Store :=
  if is_some (first (fun x => Js.seq (DmConversation.id x) (DmConversation.id c))
                    (dmConversations s))
     || negb (is_some (agentById s (DmConversation.agent1Id c)))
     || negb (is_some (agentById s (DmConversation.agent2Id c)))
     || is_some (first (isPair (DmConversation.agent1Id c) (DmConversation.agent2Id c))
                       (dmConversations s))
  then None
  else Some (set_dmConversations s (dmConversations s ++ [c])).

(** [async function getOrCreateConversation(agent1Id, agent2Id)], the two
    ids in the spelling the database prints. *)
Definition getOrCreateConversation (agent1Id agent2Id : Id)
  : Handler DmConversation.t :=
  let (id1, id2) :=
    if (agent1Id <? agent2Id)%string then (agent1Id, agent2Id)
    else (agent2Id, agent1Id) in
  existing <- select (fun s => first (isPair id1 id2) (dmConversations s)) ;;
  match existing with
  | Some existing => ret existing
  | None =>
      id <- defaultRandom ;;
      d <- newDate ;;
      let newConv :=
        DmConversation.mk id id1 id2 None None false None None None None (Some d) in
      write (Inserted TdmConversations) (insertConversation newConv) ;;
      ret newConv
  end.

(** [async function isBlocked(blockerId, blockedId)] *)
Definition isBlocked (s : Store) (blockerId blockedId : Id) : bool :=
  is_some (first (fun b => Js.seq (AgentBlock.blockerId b) blockerId
                           && Js.seq (AgentBlock.blockedId b) blockedId)
                 (agentBlocks s)).

(** The two directions of a thread. *)
Definition between (a b : Id) (m : DirectMessage.t) : bool :=
  (Js.seq (DirectMessage.fromAgentId m) a && Js.seq (DirectMessage.toAgentId m) b)
  || (Js.seq (DirectMessage.fromAgentId m) b && Js.seq (DirectMessage.toAgentId m) a).

(** The predicate of [conversation.filter(msg => ..)]. *)
Definition visible (myClearedAt : option Timestamp) (now : Timestamp)
    (msg : DirectMessage.t) : bool :=
  if match myClearedAt, DirectMessage.createdAt msg with
     | Some c, Some t => t <? c
     | _, _ => false
     end
  then false
  else if match DirectMessage.expiresAt msg with
          | Some x => x <? now
          | None => false
          end
  then false
  else true.

Definition reactionsOf (allReactions : list DmReaction.t) (id : Id)
  : list ReactionView :=
  map (fun r => (DmReaction.emoji r, DmReaction.agentId r))
      (filter (fun r => Js.seq (DmReaction.messageId r) id) allReactions).

Definition enrich (s : Store) (rows : list DirectMessage.t) : list EnrichedDm :=
  let messageIds := map DirectMessage.id rows in
  let allReactions :=
    match messageIds with
    | [] => []
    | _ => filter (fun r => Query.inArray (DmReaction.messageId r) messageIds)
                  (dmReactions s)
    end in
  let replyToIds := Query.replyIds DirectMessage.replyToId rows in
  let replyToMessages :=
    match replyToIds with
    | [] => []
    | _ => filter (fun m => Query.inArray (DirectMessage.id m) replyToIds)
                  (directMessages s)
    end in
  map (fun msg =>
         mkEnrichedDm msg
           (reactionsOf allReactions (DirectMessage.id msg))
           (if Js.truthy (DirectMessage.replyToId msg)
            then match DirectMessage.replyToId msg with
                 | Some i =>
                     option_map
                       (fun m => (DirectMessage.id m, DirectMessage.content m,
                                  DirectMessage.fromAgentId m))
                       (Query.mapGet DirectMessage.id replyToMessages i)
                 | None => None
                 end
            else None))
      rows.

Definition setRead (m : DirectMessage.t) : DirectMessage.t :=
  DirectMessage.mk (DirectMessage.id m) (DirectMessage.fromAgentId m)
    (DirectMessage.toAgentId m) (DirectMessage.content m) (DirectMessage.replyToId m)
    true (DirectMessage.encrypted m) (DirectMessage.ciphertext m)
    (DirectMessage.expiresAt m) (DirectMessage.createdAt m).

(** [UPDATE direct_messages SET read = true WHERE from = .. AND to = ..
    AND read = false] *)
Definition markRead (from to : Id) (s : Store) : option Store :=
  Some (set_directMessages s
          (map (fun m =>
                  if Js.seq (DirectMessage.fromAgentId m) from
                     && Js.seq (DirectMessage.toAgentId m) to
                     && negb (DirectMessage.read m)
                  then setRead m else m)
               (directMessages s))).

(** [router.get('/:agentId')] *)
Definition thread (agent : ReqAgent) (targetAgentId : Id) (limit : option Z)
  : Handler Response :=
  let limit := match limit with Some n => n | None => 50 end in
  let myAgentId := ra_id agent in
  conv <- getOrCreateConversation myAgentId targetAgentId ;;
  let amAgent1 := (myAgentId <? targetAgentId)%string in
  let myClearedAt :=
    if amAgent1 then DmConversation.agent1ClearedAt conv
    else DmConversation.agent2ClearedAt conv in
  conversation <- select (fun s =>
    Query.limit limit
      (Query.orderByDesc DirectMessage.createdAt
         (filter (between myAgentId targetAgentId) (directMessages s)))) ;;
  match conversation with
  | None => raise
  | Some conversation =>
      now <- newDate ;;
      let conversation := filter (visible myClearedAt now) conversation in
      enrichedMessages <- select (fun s => enrich s conversation) ;;
      write (Updated TdirectMessages) (markRead targetAgentId myAgentId) ;;
      ret (json (DThread (rev enrichedMessages)))
  end.

(** [INSERT INTO direct_messages]: primary key and the two foreign
    keys; [reply_to_id] carries no constraint. *)
Definition insertDm (m : DirectMessage.t) (s : Store) : option Store :=
  if is_some (first (fun x => Js.seq (DirectMessage.id x) (DirectMessage.id m))
                    (directMessages s))
     || negb (is_some (agentById s (DirectMessage.fromAgentId m)))
     || negb (is_some (agentById s (DirectMessage.toAgentId m)))
  then None
  else Some (set_directMessages s (directMessages s ++ [m])).

Definition dmById (s : Store) (id : Id) : option DirectMessage.t :=
  first (fun m => Js.seq (DirectMessage.id m) id) (directMessages s).

(** [router.post('/:agentId')].  [Date.now()] reads the clock of the
    handler; [created_at] is left to its [DEFAULT NOW()], which the
    database reads when it inserts the row: [insertedAt]. *)
Definition sendAt (insertedAt : Timestamp) (agent : ReqAgent) (targetAgentId : Id)
    (content replyToId : option string) : Handler Response :=
  let myAgentId := ra_id agent in
  when (Messages.blank content) (reply (fail 400 "Message content is required")) ;;
  targetAgent <- select (fun s => agentById s targetAgentId) ;;
  match targetAgent with
  | None => reply (fail 404 "Agent not found")
  | Some targetAgent =>
      when (Js.seq targetAgentId myAgentId)
        (reply (fail 400 "Cannot send DM to yourself")) ;;
      blocked <- select (fun s => isBlocked s targetAgentId myAgentId) ;;
      when blocked (reply (fail 403 "You cannot message this agent")) ;;
      conv <- getOrCreateConversation myAgentId targetAgentId ;;
      now <- newDate ;;
      let expiresAt :=
        if Js.truthy_num (DmConversation.disappearTimer conv)
           && negb (DmConversation.disappearTimerPendingApproval conv)
        then match DmConversation.disappearTimer conv with
             | Some t => Some (now + t * 1000)
             | None => None
             end
        else None in
      (if Js.truthy replyToId then
         replyMsg <- select (fun s =>
           dmById s (match replyToId with Some i => i | None => EmptyString end)) ;;
         match replyMsg with
         | None => reply (fail 404 "Reply message not found")
         | Some replyMsg =>
             let isInConversation :=
               (Js.seq (DirectMessage.fromAgentId replyMsg) myAgentId
                && Js.seq (DirectMessage.toAgentId replyMsg) targetAgentId)
               || (Js.seq (DirectMessage.fromAgentId replyMsg) targetAgentId
                   && Js.seq (DirectMessage.toAgentId replyMsg) myAgentId) in
             when (negb isInConversation)
               (reply (fail 400 "Can only reply to messages in this conversation"))
         end
       else ret tt) ;;
      id <- defaultRandom ;;
      createdAt <- ret insertedAt ;;
      let newDm :=
        DirectMessage.mk id myAgentId targetAgentId
          (Js.trim (match content with Some c => c | None => EmptyString end))
          (if Js.truthy replyToId then replyToId else None)
          false false None expiresAt (Some createdAt) in
      write (Inserted TdirectMessages) (insertDm newDm) ;;
      emit (AgentRoom targetAgentId) "dm:new" (PDm newDm agent (reqAgentOf targetAgent)) ;;
      ret (created (DDm newDm agent (reqAgentOf targetAgent)))
  end.

(** The request when the database reads the instant the handler reads. *)
Definition send (agent : ReqAgent) (targetAgentId : Id)
    (content replyToId : option string) : Handler Response :=
  fun e w => sendAt (now e) agent targetAgentId content replyToId e w.

(** [INSERT INTO agent_blocks]: both foreign keys and
    [UNIQUE(blocker_id, blocked_id)]. *)
Definition insertBlock (b : AgentBlock.t) (s : Store) : option Store :=
  if negb (is_some (agentById s (AgentBlock.blockerId b)))
     || negb (is_some (agentById s (AgentBlock.blockedId b)))
     || isBlocked s (AgentBlock.blockerId b) (AgentBlock.blockedId b)
  then None
  else Some (set_agentBlocks s (agentBlocks s ++ [b])).

(** [router.post('/block/:agentId')] *)
Definition block (agent : ReqAgent) (targetAgentId : Id) : Handler Response :=
  let myAgentId := ra_id agent in
  when (Js.seq targetAgentId myAgentId) (reply (fail 400 "Cannot block yourself")) ;;
  targetAgent <- select (fun s => agentById s targetAgentId) ;;
  match targetAgent with
  | None => reply (fail 404 "Agent not found")
  | Some targetAgent =>
      alreadyBlocked <- select (fun s => isBlocked s myAgentId targetAgentId) ;;
      when alreadyBlocked (reply (fail 400 "Agent is already blocked")) ;;
      write (Inserted TagentBlocks) (insertBlock (AgentBlock.mk myAgentId targetAgentId)) ;;
      emit (AgentRoom targetAgentId) "dm:blocked" (PBlocked agent) ;;
      ret (json (DText ("Blocked " ++ Agent.name targetAgent)%string))
  end.

(** [router.delete('/block/:agentId')], the id in the spelling the
    database prints; [DmWire.unblock] is the route on any text. *)
Definition unblock (agent : ReqAgent) (targetAgentId : Id) : Handler Response :=
  let myAgentId := ra_id agent in
  write (Deleted TagentBlocks)
    (fun s => Some (set_agentBlocks s
       (filter (fun b => negb (Js.seq (AgentBlock.blockerId b) myAgentId
                               && Js.seq (AgentBlock.blockedId b) targetAgentId))
               (agentBlocks s)))) ;;
  ret (json (DText "Agent unblocked")).

Definition isReaction (messageId agentId : Id) (emoji : string) (r : DmReaction.t)
  : bool :=
  Js.seq (DmReaction.messageId r) messageId
  && Js.seq (DmReaction.agentId r) agentId
  && Js.seq (DmReaction.emoji r) emoji.

(** [INSERT INTO dm_reactions]: both foreign keys and
    [UNIQUE(message_id, agent_id, emoji)]. *)
Definition insertReaction (r : DmReaction.t) (s : Store) : option Store :=
  if negb (is_some (dmById s (DmReaction.messageId r)))
     || negb (is_some (agentById s (DmReaction.agentId r)))
     || is_some (first (isReaction (DmReaction.messageId r) (DmReaction.agentId r)
                          (DmReaction.emoji r)) (dmReactions s))
  then None
  else Some (set_dmReactions s (dmReactions s ++ [r])).

(** [router.post('/:messageId/reactions')] *)
Definition react (agent : ReqAgent) (messageId : Id) (type : option string)
  : Handler Response :=
  let myAgentId := ra_id agent in
  let type' := match type with Some t => t | None => EmptyString end in
  when (negb (Js.truthy type)
        || negb (is_some (ALLOWED_REACTIONS type') || inherited type'))
    (reply (fail 400 "Invalid reaction type. Allowed: like, love, angry, sad")) ;;
  message <- select (fun s => dmById s messageId) ;;
  match message with
  | None => reply (fail 404 "Message not found")
  | Some message =>
      when (negb (Js.seq (DirectMessage.fromAgentId message) myAgentId)
            && negb (Js.seq (DirectMessage.toAgentId message) myAgentId))
        (reply (fail 403 "You can only react to messages in your conversations")) ;;
      match ALLOWED_REACTIONS type' with
      | None => raise
      | Some emoji =>
          existing <- select (fun s =>
            first (isReaction messageId myAgentId emoji) (dmReactions s)) ;;
          when (is_some existing)
            (reply (fail 400 "You already reacted with this emoji")) ;;
          write (Inserted TdmReactions)
            (insertReaction (DmReaction.mk messageId myAgentId emoji)) ;;
          let recipientId :=
            if Js.seq (DirectMessage.fromAgentId message) myAgentId
            then DirectMessage.toAgentId message
            else DirectMessage.fromAgentId message in
          emit (AgentRoom recipientId) "dm:reaction:added"
            (PReaction messageId emoji agent) ;;
          ret (json (DText "Reaction added"))
      end
  end.

(** [DELETE FROM dm_reactions WHERE message_id = .. AND agent_id = ..
    AND emoji = ..] *)
Definition deleteReaction (messageId agentId : Id) (emoji : string) (s : Store)
  : option Store :=
  Some (set_dmReactions s
          (filter (fun r => negb (isReaction messageId agentId emoji r))
                  (dmReactions s))).

(** [router.delete('/:messageId/reactions/:emoji')] *)
Definition unreact (agent : ReqAgent) (messageId : Id) (emoji : string)
  : Handler Response :=
  let myAgentId := ra_id agent in
  message <- select (fun s => dmById s messageId) ;;
  match message with
  | Some message =>
      let recipientId :=
        if Js.seq (DirectMessage.fromAgentId message) myAgentId
        then DirectMessage.toAgentId message
        else DirectMessage.fromAgentId message in
      emit (AgentRoom recipientId) "dm:reaction:removed"
        (PReaction messageId emoji agent)
  | None => ret tt
  end ;;
  write (Deleted TdmReactions) (deleteReaction messageId myAgentId emoji) ;;
  ret (json (DText "Reaction removed")).

(** [UPDATE dm_conversations SET .. WHERE id = ..] *)
Definition updateConversation (id : Id) (f : DmConversation.t -> DmConversation.t)
    (s : Store) : option Store :=
  Some (set_dmConversations s
          (map (fun c => if Js.seq (DmConversation.id c) id then f c else c)
               (dmConversations s))).

Definition setCleared (amAgent1 : bool) (d : Timestamp) (c : DmConversation.t)
  : DmConversation.t :=
  DmConversation.mk (DmConversation.id c) (DmConversation.agent1Id c)
    (DmConversation.agent2Id c) (DmConversation.disappearTimer c)
    (DmConversation.disappearTimerSetBy c)
    (DmConversation.disappearTimerPendingApproval c)
    (DmConversation.disappearTimerProposedValue c)
    (DmConversation.disappearTimerProposedBy c)
    (if amAgent1 then Some d else DmConversation.agent1ClearedAt c)
    (if amAgent1 then DmConversation.agent2ClearedAt c else Some d)
    (Some d).

(** [router.delete('/:agentId/clear')] *)
Definition clear (agent : ReqAgent) (targetAgentId : Id) : Handler Response :=
  let myAgentId := ra_id agent in
  conv <- getOrCreateConversation myAgentId targetAgentId ;;
  let amAgent1 := (myAgentId <? targetAgentId)%string in
  d <- newDate ;;
  write (Updated TdmConversations)
    (updateConversation (DmConversation.id conv) (setCleared amAgent1 d)) ;;
  emit (AgentRoom targetAgentId) "dm:cleared" (PCleared myAgentId) ;;
  ret (json (DText "Conversation cleared")).

(** [router.get('/:agentId/settings')] *)
Definition getSettings (agent : ReqAgent) (targetAgentId : Id) : Handler Response :=
  let myAgentId := ra_id agent in
  conv <- getOrCreateConversation myAgentId targetAgentId ;;
  iBlockedThem <- select (fun s => isBlocked s myAgentId targetAgentId) ;;
  theyBlockedMe <- select (fun s => isBlocked s targetAgentId myAgentId) ;;
  let pendingProposal :=
    if DmConversation.disappearTimerPendingApproval conv
       && negb (Js.seq_opt (DmConversation.disappearTimerProposedBy conv) (Some myAgentId))
    then Some (DmConversation.disappearTimerProposedValue conv,
               DmConversation.disappearTimerProposedBy conv)
    else None in
  ret (json (DSettings
               (mkDmSettings (DmConversation.disappearTimer conv)
                  (Js.truthy_num (DmConversation.disappearTimer conv)
                   && negb (DmConversation.disappearTimerPendingApproval conv))
                  pendingProposal iBlockedThem theyBlockedMe))).

(** The three [set({..})] of the disappearing-timer route. *)
Definition setDisabled (d : Timestamp) (c : DmConversation.t) : DmConversation.t :=
  DmConversation.mk (DmConversation.id c) (DmConversation.agent1Id c)
    (DmConversation.agent2Id c) None None false None None
    (DmConversation.agent1ClearedAt c) (DmConversation.agent2ClearedAt c) (Some d).

Definition setEnabled (timer : Z) (setBy : option Id) (d : Timestamp)
    (c : DmConversation.t) : DmConversation.t :=
  DmConversation.mk (DmConversation.id c) (DmConversation.agent1Id c)
    (DmConversation.agent2Id c) (Some timer) setBy false None None
    (DmConversation.agent1ClearedAt c) (DmConversation.agent2ClearedAt c) (Some d).

Definition setProposal (pending : option bool) (timer : Z) (by_ : Id) (d : Timestamp)
    (c : DmConversation.t) : DmConversation.t :=
  DmConversation.mk (DmConversation.id c) (DmConversation.agent1Id c)
    (DmConversation.agent2Id c) (DmConversation.disappearTimer c)
    (DmConversation.disappearTimerSetBy c)
    (match pending with
     | Some b => b
     | None => DmConversation.disappearTimerPendingApproval c
     end)
    (Some timer) (Some by_)
    (DmConversation.agent1ClearedAt c) (DmConversation.agent2ClearedAt c) (Some d).

(** [a === b] on [number | null]. *)
Definition seq_num (a b : option Z) : bool :=
  match a, b with
  | Some x, Some y => x =? y
  | None, None => true
  | _, _ => false
  end.

(** [router.post('/:agentId/disappear')]; [timer] is the number in the
    body, an integer, [None] when it is [null] or missing.  The columns
    [disappear_timer] and [disappear_timer_proposed_value] are
    [INTEGER]. *)
Definition setDisappear (agent : ReqAgent) (targetAgentId : Id) (timer : option Z)
  : Handler Response :=
  let myAgentId := ra_id agent in
  conv <- getOrCreateConversation myAgentId targetAgentId ;;
  match timer with
  | None =>
      d <- newDate ;;
      write (Updated TdmConversations)
        (updateConversation (DmConversation.id conv) (setDisabled d)) ;;
      emit (AgentRoom targetAgentId) "dm:disappear:disabled" (PDisappear myAgentId None) ;;
      ret (json (DDisappear "disabled" None))
  | Some t =>
      if negb (Js.truthy_num timer) || (t =? 0) then
        d <- newDate ;;
        write (Updated TdmConversations)
          (updateConversation (DmConversation.id conv) (setDisabled d)) ;;
        emit (AgentRoom targetAgentId) "dm:disappear:disabled"
          (PDisappear myAgentId None) ;;
        ret (json (DDisappear "disabled" None))
      else if DmConversation.disappearTimerPendingApproval conv
              && negb (Js.seq_opt (DmConversation.disappearTimerProposedBy conv)
                         (Some myAgentId))
      then
        if seq_num (DmConversation.disappearTimerProposedValue conv) timer then
          d <- newDate ;;
          write (Updated TdmConversations)
            (Pg.integer t
               (updateConversation (DmConversation.id conv)
                  (setEnabled t (DmConversation.disappearTimerProposedBy conv) d))) ;;
          emit (AgentRoom targetAgentId) "dm:disappear:enabled"
            (PDisappear myAgentId timer) ;;
          emit (AgentRoom myAgentId) "dm:disappear:enabled"
            (PDisappear targetAgentId timer) ;;
          ret (json (DDisappear "enabled" timer))
        else
          d <- newDate ;;
          write (Updated TdmConversations)
            (Pg.integer t
               (updateConversation (DmConversation.id conv)
                  (setProposal None t myAgentId d))) ;;
          emit (AgentRoom targetAgentId) "dm:disappear:proposed"
            (PDisappear myAgentId timer) ;;
          ret (json (DDisappear "proposed" timer))
      else
        d <- newDate ;;
        write (Updated TdmConversations)
          (Pg.integer t
             (updateConversation (DmConversation.id conv)
                (setProposal (Some true) t myAgentId d))) ;;
        emit (AgentRoom targetAgentId) "dm:disappear:proposed"
          (PDisappear myAgentId timer) ;;
        ret (json (DDisappear "proposed" timer))
  end.

Inductive Request : Type :=
  | Thread (targetAgentId : Id) (limit : option Z)
  | Send (targetAgentId : Id) (content replyToId : option string)
  | Block (targetAgentId : Id)
  | Unblock (targetAgentId : Id)
  | React (messageId : Id) (type : option string)
  | Unreact (messageId : Id) (emoji : string)
  | Clear (targetAgentId : Id)
  | GetSettings (targetAgentId : Id)
  | SetDisappear (targetAgentId : Id) (timer : option Z).

Definition route (agent : ReqAgent) (r : Request) : Handler Response :=
  match r with
  | Thread targetAgentId limit => thread agent targetAgentId limit
  | Send targetAgentId content replyToId => send agent targetAgentId content replyToId
  | Block targetAgentId => block agent targetAgentId
  | Unblock targetAgentId => unblock agent targetAgentId
  | React messageId type => react agent messageId type
  | Unreact messageId emoji => unreact agent messageId emoji
  | Clear targetAgentId => clear agent targetAgentId
  | GetSettings targetAgentId => getSettings agent targetAgentId
  | SetDisappear targetAgentId timer => setDisappear agent targetAgentId timer
  end.

Definition errorText (r : Request) : string :=
  match r with
  | Thread _ _ => "Failed to get direct messages"
  | Send _ _ _ => "Failed to send direct message"
  | Block _ => "Failed to block agent"
  | Unblock _ => "Failed to unblock agent"
  | React _ _ => "Failed to add reaction"
  | Unreact _ _ => "Failed to remove reaction"
  | Clear _ => "Failed to clear conversation"
  | GetSettings _ => "Failed to get settings"
  | SetDisappear _ _ => "Failed to set disappearing messages"
  end.

(** [app.use('/api/dm', authMiddleware, dmRouter)] *)
Definition router (authorization : option string) (r : Request)
  : Env -> World -> World * Response :=
  Middleware.authenticated authorization (fun agent => route agent r) (errorText r).

End Dm.

(** ** routes/auth.ts *)

Module Auth.

(** What a [fetch] of the Twitter API yields: an exception, a response
    that is not [ok], or the number of tweets in [data]. *)
Inductive Fetch : Type :=
  | NetworkError
  | NotOk
  | Tweets (n : nat).

(** [process.env.TWITTER_BEARER_TOKEN] and the remote service. *)
Record Config := mkConfig {
  TWITTER_BEARER_TOKEN : option string;
  searchRecent : string -> option string -> Fetch;
  userByUsername : string -> option string }.

Definition byClaimToken (s : Store) (token : string) : option Agent.t :=
  first (fun a => Js.seq_opt (Agent.claimToken a) (Some token)) (agents s).

(** The [set({..})] that marks an agent as claimed. *)
Definition setClaimed (claimedBy : string) (twitterUserId : option string)
    (d : Timestamp) (a : Agent.t) : Agent.t :=
  Agent.mk (Agent.id a) (Agent.name a) (Agent.handle a) (Agent.bio a)
    (Agent.apiKey a) None None true (Some claimedBy) twitterUserId
    (Agent.isOnline a) (Agent.lastSeen a) (Some d).

Definition updateAgent (id : Id) (f : Agent.t -> Agent.t) (s : Store) : option Store :=
  Some (set_agents s (map (fun a => if Js.seq (Agent.id a) id then f a else a) (agents s))).

(** [insert(agentBadges).values(..).onConflictDoNothing()] inside its own
    [try]/[catch]; the badge ['verified'] is seeded by the migration. *)
Definition awardVerified (agentId : Id) (s : Store) : option Store :=
  if is_some (first (fun b => Js.seq (AgentBadge.agentId b) agentId
                              && Js.seq (AgentBadge.badgeSlug b) "verified")
                    (agentBadges s))
  then Some s
  else Some (set_agentBadges s
               (agentBadges s ++ [AgentBadge.mk agentId "verified" (Some "system")])).

(** The handle with its first [@] removed. *)
Definition stripAt (twitterHandle : string) : string :=
  Js.replace_first "@" twitterHandle.

(** [router.post('/claim/:token/verify')] *)
Definition verify (cfg : Config) (token : string) (twitterHandle : option string)
  : Handler Response :=
  when (negb (Js.truthy twitterHandle)) (reply (fail 400 "Twitter handle is required")) ;;
  let twitterHandle := match twitterHandle with Some h => h | None => EmptyString end in
  agent <- select (fun s => byClaimToken s token) ;;
  match agent with
  | None => reply (fail 404 "Invalid claim token")
  | Some agent =>
      when (Agent.claimed agent) (reply (fail 400 "Agent already claimed")) ;;
      let twitterBearerToken := TWITTER_BEARER_TOKEN cfg in
      (if negb (Js.truthy twitterBearerToken) then ret tt
       else
         match searchRecent cfg (stripAt twitterHandle) (Agent.verificationCode agent) with
         | NetworkError => raise
         | NotOk => reply (fail 502 "Failed to verify with Twitter")
         | Tweets n =>
             when (n =? 0)%nat
               (reply (fail 400
                  "Verification tweet not found. Please post the tweet and try again."))
         end) ;;
      let twitterUserId :=
        if Js.truthy twitterBearerToken then userByUsername cfg (stripAt twitterHandle)
        else None in
      d <- newDate ;;
      write (Updated Tagents)
        (updateAgent (Agent.id agent) (setClaimed (stripAt twitterHandle) twitterUserId d)) ;;
      write (Inserted TagentBadges) (awardVerified (Agent.id agent)) ;;
      ret (json (DClaimed (Agent.name agent) twitterHandle "verified"))
  end.

(** The route with its [try]/[catch]; no authentication. *)
Definition postVerify (cfg : Config) (token : string) (twitterHandle : option string)
  : Env -> World -> World * Response :=
  tryCatch (verify cfg token twitterHandle) "Failed to verify claim".

End Auth.

(** ** Vocabulary of the specification *)

(** A request as it reaches a router: the [Authorization] header, the
    route with its parameters, and the environment of that request. *)
Record Call (R : Type) := mkCall {
  authorization : option string;
  request : R;
  env : Env }.
Arguments mkCall {R} _ _ _.
Arguments authorization {R} _.
Arguments request {R} _.
Arguments env {R} _.

(** The agent the auth middleware attaches to a request, if any. *)
Definition requester (auth : option string) (e : Env) (w : World) : option ReqAgent :=
  match Middleware.authMiddleware auth e w with
  | (_, Next agent) => Some agent
  | _ => None
  end.

(** The world the route sees once the middleware has recorded the
    agent [id] as seen. *)
Definition seen (id : Id) (e : Env) (w : World) : World :=
  mkWorld (set_agents (db w) (map (Middleware.touch id (now e)) (agents (db w))))
    (drawn w) (trace w ++ [Updated Tagents]).

Module GroupSpec.

Definition isAdminOf (groupId : Id) (m : GroupMember.t) : bool :=
  Js.seq (GroupMember.groupId m) groupId && Role_eqb (GroupMember.role m) admin.

Definition hasAdmin (s : Store) (groupId : Id) : bool :=
  existsb (isAdminOf groupId) (groupMembers s).

(** Every existing group has at least one member with role [admin]. *)
Definition everyGroupHasAdmin (s : Store) : bool :=
  forallb (fun g => hasAdmin s (Group.id g)) (groups s).

(** [UNIQUE(group_id, agent_id)] *)
Fixpoint uniqueMembers (l : list GroupMember.t) : bool :=
  match l with
  | [] => true
  | m :: r =>
      negb (existsb (Groups.isRow (GroupMember.groupId m) (GroupMember.agentId m)) r)
      && uniqueMembers r
  end.

(** [group_id REFERENCES groups(id)] *)
Definition membersReferToGroups (s : Store) : bool :=
  forallb (fun m => is_some (groupById s (GroupMember.groupId m))) (groupMembers s).

(** The constraints [db/migrate.ts] puts on [group_members]. *)
Definition constraints (s : Store) : bool :=
  uniqueMembers (groupMembers s) && membersReferToGroups s.

(** The constraints hold and every group has an admin. *)
Definition sound (s : Store) : bool := constraints s && everyGroupHasAdmin s.

Definition step (w : World) (c : Call Groups.Request) : World :=
  fst (Groups.router (authorization c) (request c) (env c) w).

Definition run (w : World) (cs : list (Call Groups.Request)) : World :=
  fold_left step cs w.

(** The group has an admin other than [agentId]. *)
Definition otherAdmin (s : Store) (groupId agentId : Id) : bool :=
  existsb (fun m => isAdminOf groupId m && negb (Js.seq (GroupMember.agentId m) agentId))
          (groupMembers s).

(** The call is a [leave] issued by the only admin of that group. *)
Definition lastAdminLeaves (w : World) (c : Call Groups.Request) : bool :=
  match request c with
  | Groups.Leave groupId =>
      match requester (authorization c) (env c) w with
      | Some agent =>
          Permissions.isAdmin (db w) groupId (ra_id agent)
          && negb (otherAdmin (db w) groupId (ra_id agent))
      | None => false
      end
  | _ => false
  end.

(** No [leave] of the sequence is issued by the only admin of the group
    left. *)
Fixpoint noLastAdminLeaves (w : World) (cs : list (Call Groups.Request)) : bool :=
  match cs with
  | [] => true
  | c :: r => negb (lastAdminLeaves w c) && noLastAdminLeaves (step w c) r
  end.

End GroupSpec.

Module DmSpec.

(** The states of the disappearing-timer machine of a conversation. *)
Inductive TimerState : Type :=
  | Disabled
  | Proposed (t : Z) (by_ : Id)
  | Active (t : Z).

(** The state a row stands for; [None] for a row flagged as pending
    without a proposal. *)
Definition stateOf (c : DmConversation.t) : option TimerState :=
  if DmConversation.disappearTimerPendingApproval c then
    match DmConversation.disappearTimerProposedValue c,
          DmConversation.disappearTimerProposedBy c with
    | Some t, Some b => Some (Proposed t b)
    | _, _ => None
    end
  else
    match DmConversation.disappearTimer c with
    | Some t => if t =? 0 then Some Disabled else Some (Active t)
    | None => Some Disabled
    end.

(** The row of the conversation between [a] and [b], as
    [getOrCreateConversation] looks it up. *)
Definition conversation (s : Store) (a b : Id) : option DmConversation.t :=
  if (a <? b)%string then first (Dm.isPair a b) (dmConversations s)
  else first (Dm.isPair b a) (dmConversations s).

(** A conversation without a row has no timer. *)
Definition timerState (s : Store) (a b : Id) : option TimerState :=
  match conversation s a b with
  | Some c => stateOf c
  | None => Some Disabled
  end.

(** [clearedAt] on the side of [me] in the conversation with [other]. *)
Definition clearedAt (s : Store) (me other : Id) : option Timestamp :=
  match conversation s me other with
  | Some c =>
      if (me <? other)%string then DmConversation.agent1ClearedAt c
      else DmConversation.agent2ClearedAt c
  | None => None
  end.

(** What the thread of [me] with [other] lists at time [now]: the
    newest [limit] messages of the two directions, without those
    created before [me] cleared the conversation and those that have
    expired, oldest first. *)
Definition listing (s : Store) (me other : Id) (limit : option Z) (now : Timestamp)
  : option (list EnrichedDm) :=
  option_map
    (fun rows => rev (Dm.enrich s (filter (Dm.visible (clearedAt s me other) now) rows)))
    (Query.limit (match limit with Some n => n | None => 50 end)
       (Query.orderByDesc DirectMessage.createdAt
          (filter (Dm.between me other) (directMessages s)))).

(** [agent1Id < agent2Id]. *)
Definition strictlyOrdered (c : DmConversation.t) : bool :=
  (DmConversation.agent1Id c <? DmConversation.agent2Id c)%string.

(** The agent a request is addressed to, for the routes that look the
    conversation up before any check. *)
Definition target (r : Dm.Request) : option Id :=
  match r with
  | Dm.Thread t _ | Dm.Clear t | Dm.GetSettings t | Dm.SetDisappear t _ => Some t
  | _ => None
  end.

Definition step (w : World) (c : Call Dm.Request) : World :=
  fst (Dm.router (authorization c) (request c) (env c) w).

Definition run (w : World) (cs : list (Call Dm.Request)) : World :=
  fold_left step cs w.



End DmSpec.

Module AuthSpec.

(** [claim_token TEXT UNIQUE] *)
Definition claimTokensUnique (s : Store) : Prop :=
  forall a b t,
    In a (agents s) -> In b (agents s) ->
    Agent.claimToken a = Some t -> Agent.claimToken b = Some t -> a = b.

End AuthSpec.

(** A handler keeps a property of the store. *)
Definition keeps (P : Store -> Prop) {A} (h : Handler A) : Prop :=
  forall e w, P (db w) -> P (db (fst (h e w))).

(** ** Sample data for the scenarios of the specification *)

Module Sample.

Fixpoint tally (n : nat) : string :=
  match n with
  | O => EmptyString
  | S k => String "i" (tally k)
  end.

(** The [n]-th uuid drawn is ["u"], ["ui"], ["uii"], ... *)
Definition at_ (t : Timestamp) : Env := mkEnv t (fun n => String "u" (tally n)).

Definition ava : Agent.t :=
  Agent.mk "a1" "Ava" "ava" None "clk_ava" (Some "tokA") (Some "reef-X4B2")
    false None None false None None.

Definition bob : Agent.t :=
  Agent.mk "b2" "Bob" "bob" None "clk_bob" (Some "tokB") (Some "wave-7KQ2")
    false None None false None None.

Definition asAva : option string := Some "Bearer clk_ava".
Definition asBob : option string := Some "Bearer clk_bob".

(** Two registered agents and nothing else. *)
Definition start : World := mkWorld (set_agents emptyStore [ava; bob]) 0 [].

(** Ava creates a group (its id is ["u"]), Bob joins, Ava makes him a
    moderator, Bob leaves. *)
Definition memberLeaves : list (Call Groups.Request) :=
  [ mkCall asAva (Groups.Create (Some "Reef Talk") None None) (at_ 10);
    mkCall asBob (Groups.Join "u") (at_ 20);
    mkCall asAva (Groups.ChangeRole "u" "b2" (Some "moderator")) (at_ 30);
    mkCall asBob (Groups.Leave "u") (at_ 40) ].

(** Ava creates a group and leaves it. *)
Definition adminLeaves : list (Call Groups.Request) :=
  [ mkCall asAva (Groups.Create (Some "Reef Talk") None None) (at_ 10);
    mkCall asAva (Groups.Leave "u") (at_ 20) ].

(** Ava writes to Bob, Bob reads the thread, Ava clears her side, Bob
    proposes a timer, Ava looks at the settings. *)
Definition chat : list (Call Dm.Request) :=
  [ mkCall asAva (Dm.Send "b2" (Some "hi Bob") None) (at_ 10);
    mkCall asBob (Dm.Thread "a1" None) (at_ 20);
    mkCall asAva (Dm.Clear "b2") (at_ 30);
    mkCall asBob (Dm.SetDisappear "a1" (Some 3600)) (at_ 40);
    mkCall asAva (Dm.GetSettings "b2") (at_ 50) ].

(** Ava asks for the thread with herself. *)
Definition selfThread : list (Call Dm.Request) :=
  [ mkCall asAva (Dm.Thread "a1" None) (at_ 10) ].

(** The world after [chat]: Bob's proposal of 3600 seconds is pending
    on the row of the conversation. *)
Definition proposed : World := DmSpec.run start chat.


(** The world after Ava's first message, with the fresh row of the
    conversation. *)
Definition talking : World := DmSpec.run start (firstn 1 chat).


(** Ava answers Bob's proposal with the same value: the timer is on. *)
Definition agreed : World :=
  fst (Dm.router asAva (Dm.SetDisappear "b2" (Some 3600)) (at_ 60) proposed).

(** The message Ava sends next, at 100 ms. *)
Definition expiring : DirectMessage.t :=
  DirectMessage.mk "uii" "a1" "b2" "see you" None false false None
    (Some 3600100) (Some 100).


(** Ava and Bob exchange three messages; then Ava clears her side. *)
Definition three : World :=
  DmSpec.run start
    [ mkCall asAva (Dm.Send "b2" (Some "one") None) (at_ 10);
      mkCall asBob (Dm.Send "a1" (Some "two") None) (at_ 20);
      mkCall asAva (Dm.Send "b2" (Some "three") None) (at_ 30) ].

Definition cleared : World :=
  fst (tryCatch (Dm.clear (reqAgentOf ava) "b2") "Failed to clear conversation"
         (at_ 40) three).

(** The thread as Bob sees it, before and after. *)
Definition bobsThread : list EnrichedDm :=
  [ mkEnrichedDm
      (DirectMessage.mk "ui" "a1" "b2" "one" None false false None None (Some 10))
      [] None;
    mkEnrichedDm
      (DirectMessage.mk "uii" "b2" "a1" "two" None false false None None (Some 20))
      [] None;
    mkEnrichedDm
      (DirectMessage.mk "uiii" "a1" "b2" "three" None false false None None (Some 30))
      [] None ].

(** No [TWITTER_BEARER_TOKEN]: the verification of the tweet is skipped. *)
Definition devMode : Auth.Config :=
  Auth.mkConfig None (fun _ _ => Auth.NetworkError) (fun _ => None).

(** A group with one member and [n] messages. *)
Definition flood (n : nat) : list Message.t :=
  map (fun k => Message.mk (String "m" (tally k)) "g1" "a1" "ping" None
                  (Some (Z.of_nat k)))
      (seq 0 n).

Definition busy : World :=
  mkWorld
    (mkStore [ava; bob] [Group.mk "g1" "Reef" "reef" None true (Some "a1")]
       [GroupMember.mk "g1" "a1" admin] [] (flood 101) [] [] [] [] [] [])
    0 [].

(** Ava creates the group ["u"], Bob the group ["ui"], and Bob sends
    the message ["uii"] to his group. *)
Definition twoRooms : World :=
  fst (Messages.router asBob (Messages.Send "ui" (Some "in wave") None) (at_ 30)
         (GroupSpec.run start
            [ mkCall asAva (Groups.Create (Some "Reef Talk") None None) (at_ 10);
              mkCall asBob (Groups.Create (Some "Wave Talk") None None) (at_ 20) ])).

End Sample.

(** ** Further routes of the server

    The routes below answer with payloads of their own.  Their handlers
    yield the payload of the success answer; the route answers with it,
    or with the error the handler replied, or with a 500 when it threw. *)

Inductive Answer (A : Type) : Type :=
  | Refused (r : Response)
  | Answered (code : nat) (payload : A).
Arguments Refused {A} r.
Arguments Answered {A} code payload.

(** [try { ...; res.status(code).json(payload) } catch { 500 }] *)
Definition respond {A} (code : nat) (h : Handler A) (error : string)
    (e : Env) (w : World) : World * Answer A :=
  match h e w with
  | (w', Next a) => (w', Answered code a)
  | (w', Reply r) => (w', Refused r)
  | (w', Raise) => (w', Refused (fail 500 error))
  end.

(** ** middleware/auth.ts, the optional variant *)

Module Optional.

(** The body of the [try] of [optionalAuth]: [return next()] leaves
    [req.agent] unset. *)
Definition lookup (authorization : option string) : Handler (option ReqAgent) :=
  let authHeader := match authorization with Some h => h | None => EmptyString end in
  if negb (Js.truthy authorization) || negb (Js.startsWith authHeader "Bearer ")
  then ret None
  else
    let apiKey := nth_error (Js.split " " authHeader) 1 in
    let key := match apiKey with Some k => k | None => EmptyString end in
    if negb (Js.truthy apiKey) || negb (Js.startsWith key "clk_")
    then ret None
    else
      agent <- select (fun s => first (fun a => Js.seq (Agent.apiKey a) key) (agents s)) ;;
      match agent with
      | Some a =>
          d <- newDate ;;
          write (Updated Tagents)
            (fun s => Some (set_agents s (map (Middleware.touch (Agent.id a) d) (agents s)))) ;;
          ret (Some (reqAgentOf a))
      | None => ret None
      end.

(** [optionalAuth]: the request always goes on; [catch] lets it go on
    without an agent. *)
Definition optionalAuth (authorization : option string) (e : Env) (w : World)
  : World * option ReqAgent :=
  match lookup authorization e w with
  | (w', Next agent) => (w', agent)
  | (w', _) => (w', None)
  end.

End Optional.

(** ** socket/index.ts, the handshake *)

Module Socket.

(** [io.use(...)]: the error handed to [next], or the agent attached to
    the socket ([agentId], [agentHandle]). *)
Definition handshake (token : option string) (s : Store) : string + (Id * string) :=
  let t := match token with Some t => t | None => EmptyString end in
  if negb (Js.truthy token) || negb (Js.startsWith t "clk_")
  then inl "Invalid authentication token"
  else
    match first (fun a => Js.seq (Agent.apiKey a) t) (agents s) with
    | None => inl "Agent not found"
    | Some agent => inr (Agent.id agent, Agent.handle agent)
    end.

End Socket.

(** ** routes/messages.ts, reactions *)

Module GroupReactions.
Import Permissions.

(** [ALLOWED_REACTIONS[type].emoji] of [routes/messages.ts]. *)
Definition ALLOWED_REACTIONS (type : string) : option string :=
  if Js.seq type "like" then Some "👍"
  else if Js.seq type "love" then Some "❤️"
  else if Js.seq type "angry" then Some "😠"
  else if Js.seq type "sad" then Some "😢"
  else None.

Definition isReaction (messageId agentId : Id) (emoji : string) (r : MessageReaction.t)
  : bool :=
  Js.seq (MessageReaction.messageId r) messageId
  && Js.seq (MessageReaction.agentId r) agentId
  && Js.seq (MessageReaction.emoji r) emoji.

Definition set_messageReactions (s : Store) (l : list MessageReaction.t) : Store :=
  mkStore (agents s) (groups s) (groupMembers s) (groupPermissions s) (messages s)
    l (directMessages s) (agentBlocks s) (dmReactions s) (dmConversations s)
    (agentBadges s).

(** [INSERT INTO message_reactions]: both foreign keys and
    [UNIQUE(message_id, agent_id, emoji)]. *)
Definition insertReaction (r : MessageReaction.t) (s : Store) : option Store :=
  if negb (is_some (first (fun m => Js.seq (Message.id m) (MessageReaction.messageId r))
                          (messages s)))
     || negb (is_some (agentById s (MessageReaction.agentId r)))
     || is_some (first (isReaction (MessageReaction.messageId r)
                          (MessageReaction.agentId r) (MessageReaction.emoji r))
                       (messageReactions s))
  then None
  else Some (set_messageReactions s (messageReactions s ++ [r])).

(** The message [messageId] of the group [groupId]. *)
Definition messageOf (s : Store) (groupId messageId : Id) : option Message.t :=
  first (fun m => Js.seq (Message.id m) messageId && Js.seq (Message.groupId m) groupId)
        (messages s).

(** [router.post('/:groupId/:messageId/reactions')] *)
Definition react (agent : ReqAgent) (groupId messageId : Id) (type : option string)
  : Handler Response :=
  let agentId := ra_id agent in
  let type' := match type with Some t => t | None => EmptyString end in
  when (negb (Js.truthy type)
        || negb (is_some (ALLOWED_REACTIONS type') || Dm.inherited type'))
    (reply (fail 400 "Invalid reaction type. Allowed: like, love, angry, sad")) ;;
  let emoji := ALLOWED_REACTIONS type' in
  memberCheck <- select (fun s => isMember s groupId agentId) ;;
  when (negb memberCheck) (reply (fail 403 "You must be a member of this group")) ;;
  message <- select (fun s => messageOf s groupId messageId) ;;
  match message with
  | None => reply (fail 404 "Message not found")
  | Some message =>
      match emoji with
      | None => raise
      | Some emoji =>
          existing <- select (fun s =>
            first (isReaction messageId agentId emoji) (messageReactions s)) ;;
          when (is_some existing)
            (reply (fail 400 "You already reacted with this emoji")) ;;
          write (Inserted TmessageReactions)
            (insertReaction (MessageReaction.mk messageId agentId emoji)) ;;
          emit (GroupRoom groupId) "message:reaction:added"
            (PReaction messageId emoji agent) ;;
          ret (json (DText "Reaction added"))
      end
  end.

(** A reaction with its author: [{ emoji, agentId, agentName,
    agentHandle }]. *)
Record ReactionRow := mkReactionRow {
  rr_emoji : string;
  rr_agentId : Id;
  rr_agentName : string;
  rr_agentHandle : string }.

(** [message_reactions INNER JOIN agents WHERE message_id = ..] *)
Definition reactionsOf (s : Store) (messageId : Id) : list ReactionRow :=
  flat_map (fun r =>
              if Js.seq (MessageReaction.messageId r) messageId
              then match agentById s (MessageReaction.agentId r) with
                   | Some a =>
                       [mkReactionRow (MessageReaction.emoji r) (MessageReaction.agentId r)
                          (Agent.name a) (Agent.handle a)]
                   | None => []
                   end
              else [])
           (messageReactions s).

(** [router.get('/:groupId/:messageId/reactions')] *)
Definition getReactions (agent : ReqAgent) (groupId messageId : Id)
  : Handler (list ReactionRow) :=
  let agentId := ra_id agent in
  memberCheck <- select (fun s => isMember s groupId agentId) ;;
  when (negb memberCheck) (reply (fail 403 "You must be a member of this group")) ;;
  reactions <- select (fun s => reactionsOf s messageId) ;;
  ret reactions.

End GroupReactions.

(** ** routes/dm.ts, the list of blocked agents *)

Module DmLists.

(** A blocked agent: [{ id, name, handle }]. *)
Definition BlockedRow : Type := (Id * string * string)%type.

(** [agent_blocks INNER JOIN agents ON blocked_id WHERE blocker_id = ..] *)
Definition blockedBy (s : Store) (myAgentId : Id) : list BlockedRow :=
  flat_map (fun b =>
              if Js.seq (AgentBlock.blockerId b) myAgentId
              then match agentById s (AgentBlock.blockedId b) with
                   | Some a => [(Agent.id a, Agent.name a, Agent.handle a)]
                   | None => []
                   end
              else [])
           (agentBlocks s).

(** The handler of [router.get('/blocks')].  The router registers it
    after [router.get('/:agentId')] and so never runs it ([DmWire.get]). *)
Definition blocks (agent : ReqAgent) : Handler (list BlockedRow) :=
  let myAgentId := ra_id agent in
  blocks <- select (fun s => blockedBy s myAgentId) ;;
  ret blocks.

End DmLists.

(** ** routes/dm.ts on the text of the request

    The path parameter of a request is a text.  A statement that binds
    it to a uuid column throws unless PostgreSQL reads it as a uuid,
    and then works on the value read; JavaScript compares and
    interpolates the text itself.  The id of the requester is bound the
    same way. *)

Module DmWire.

(** [async function getOrCreateConversation(agent1Id, agent2Id)] *)
Definition getOrCreateConversation (agent1Id agent2Id : string)
  : Handler DmConversation.t :=
  let (id1, id2) :=
    if (agent1Id <? agent2Id)%string then (agent1Id, agent2Id)
    else (agent2Id, agent1Id) in
  u1 <- Pg.param id1 ;;
  u2 <- Pg.param id2 ;;
  existing <- select (fun s => first (Dm.isPair u1 u2) (dmConversations s)) ;;
  match existing with
  | Some existing => ret existing
  | None =>
      id <- defaultRandom ;;
      d <- newDate ;;
      let newConv :=
        DmConversation.mk id u1 u2 None None false None None None None (Some d) in
      write (Inserted TdmConversations) (Dm.insertConversation newConv) ;;
      ret newConv
  end.

(** [router.get('/:agentId')] *)
Definition thread (agent : ReqAgent) (targetAgentId : string) (limit : option Z)
  : Handler Response :=
  let limit := match limit with Some n => n | None => 50 end in
  let myAgentId := ra_id agent in
  conv <- getOrCreateConversation myAgentId targetAgentId ;;
  let amAgent1 := (myAgentId <? targetAgentId)%string in
  let myClearedAt :=
    if amAgent1 then DmConversation.agent1ClearedAt conv
    else DmConversation.agent2ClearedAt conv in
  me <- Pg.param myAgentId ;;
  target <- Pg.param targetAgentId ;;
  conversation <- select (fun s =>
    Query.limit limit
      (Query.orderByDesc DirectMessage.createdAt
         (filter (Dm.between me target) (directMessages s)))) ;;
  match conversation with
  | None => raise
  | Some conversation =>
      now <- newDate ;;
      let conversation := filter (Dm.visible myClearedAt now) conversation in
      enrichedMessages <- select (fun s => Dm.enrich s conversation) ;;
      write (Updated TdirectMessages) (Dm.markRead target me) ;;
      ret (json (DThread (rev enrichedMessages)))
  end.

(** [router.delete('/:agentId/clear')] *)
Definition clear (agent : ReqAgent) (targetAgentId : string) : Handler Response :=
  let myAgentId := ra_id agent in
  conv <- getOrCreateConversation myAgentId targetAgentId ;;
  let amAgent1 := (myAgentId <? targetAgentId)%string in
  d <- newDate ;;
  write (Updated TdmConversations)
    (Dm.updateConversation (DmConversation.id conv) (Dm.setCleared amAgent1 d)) ;;
  emit (AgentRoom targetAgentId) "dm:cleared" (PCleared myAgentId) ;;
  ret (json (DText "Conversation cleared")).

(** [router.post('/:agentId')], the row being inserted at [insertedAt]. *)
Definition sendAt (insertedAt : Timestamp) (agent : ReqAgent) (targetAgentId : string)
    (content replyToId : option string) : Handler Response :=
  let myAgentId := ra_id agent in
  when (Messages.blank content) (reply (fail 400 "Message content is required")) ;;
  target <- Pg.param targetAgentId ;;
  targetAgent <- select (fun s => agentById s target) ;;
  match targetAgent with
  | None => reply (fail 404 "Agent not found")
  | Some targetAgent =>
      when (Js.seq targetAgentId myAgentId)
        (reply (fail 400 "Cannot send DM to yourself")) ;;
      me <- Pg.param myAgentId ;;
      blocked <- select (fun s => Dm.isBlocked s target me) ;;
      when blocked (reply (fail 403 "You cannot message this agent")) ;;
      conv <- getOrCreateConversation myAgentId targetAgentId ;;
      now <- newDate ;;
      let expiresAt :=
        if Js.truthy_num (DmConversation.disappearTimer conv)
           && negb (DmConversation.disappearTimerPendingApproval conv)
        then match DmConversation.disappearTimer conv with
             | Some t => Some (now + t * 1000)
             | None => None
             end
        else None in
      replyTo <-
        (if Js.truthy replyToId then
           replyTo <- Pg.param (match replyToId with Some i => i | None => EmptyString end) ;;
           replyMsg <- select (fun s => Dm.dmById s replyTo) ;;
           match replyMsg with
           | None => reply (fail 404 "Reply message not found")
           | Some replyMsg =>
               let isInConversation :=
                 (Js.seq (DirectMessage.fromAgentId replyMsg) myAgentId
                  && Js.seq (DirectMessage.toAgentId replyMsg) targetAgentId)
                 || (Js.seq (DirectMessage.fromAgentId replyMsg) targetAgentId
                     && Js.seq (DirectMessage.toAgentId replyMsg) myAgentId) in
               when (negb isInConversation)
                 (reply (fail 400 "Can only reply to messages in this conversation")) ;;
               ret (Some replyTo)
           end
         else ret None) ;;
      id <- defaultRandom ;;
      createdAt <- ret insertedAt ;;
      let newDm :=
        DirectMessage.mk id me target
          (Js.trim (match content with Some c => c | None => EmptyString end))
          replyTo false false None expiresAt (Some createdAt) in
      write (Inserted TdirectMessages) (Dm.insertDm newDm) ;;
      emit (AgentRoom targetAgentId) "dm:new" (PDm newDm agent (reqAgentOf targetAgent)) ;;
      ret (created (DDm newDm agent (reqAgentOf targetAgent)))
  end.

(** [router.get('/:agentId/settings')] *)
Definition getSettings (agent : ReqAgent) (targetAgentId : string) : Handler Response :=
  let myAgentId := ra_id agent in
  conv <- getOrCreateConversation myAgentId targetAgentId ;;
  me <- Pg.param myAgentId ;;
  target <- Pg.param targetAgentId ;;
  iBlockedThem <- select (fun s => Dm.isBlocked s me target) ;;
  theyBlockedMe <- select (fun s => Dm.isBlocked s target me) ;;
  let pendingProposal :=
    if DmConversation.disappearTimerPendingApproval conv
       && negb (Js.seq_opt (DmConversation.disappearTimerProposedBy conv) (Some myAgentId))
    then Some (DmConversation.disappearTimerProposedValue conv,
               DmConversation.disappearTimerProposedBy conv)
    else None in
  ret (json (DSettings
               (mkDmSettings (DmConversation.disappearTimer conv)
                  (Js.truthy_num (DmConversation.disappearTimer conv)
                   && negb (DmConversation.disappearTimerPendingApproval conv))
                  pendingProposal iBlockedThem theyBlockedMe))).

(** [router.post('/:agentId/disappear')] *)
Definition setDisappear (agent : ReqAgent) (targetAgentId : string) (timer : option Z)
  : Handler Response :=
  let myAgentId := ra_id agent in
  conv <- getOrCreateConversation myAgentId targetAgentId ;;
  match timer with
  | None =>
      d <- newDate ;;
      write (Updated TdmConversations)
        (Dm.updateConversation (DmConversation.id conv) (Dm.setDisabled d)) ;;
      emit (AgentRoom targetAgentId) "dm:disappear:disabled" (PDisappear myAgentId None) ;;
      ret (json (DDisappear "disabled" None))
  | Some t =>
      if negb (Js.truthy_num timer) || (t =? 0) then
        d <- newDate ;;
        write (Updated TdmConversations)
          (Dm.updateConversation (DmConversation.id conv) (Dm.setDisabled d)) ;;
        emit (AgentRoom targetAgentId) "dm:disappear:disabled"
          (PDisappear myAgentId None) ;;
        ret (json (DDisappear "disabled" None))
      else if DmConversation.disappearTimerPendingApproval conv
              && negb (Js.seq_opt (DmConversation.disappearTimerProposedBy conv)
                         (Some myAgentId))
      then
        if Dm.seq_num (DmConversation.disappearTimerProposedValue conv) timer then
          d <- newDate ;;
          write (Updated TdmConversations)
            (Pg.integer t
               (Dm.updateConversation (DmConversation.id conv)
                  (Dm.setEnabled t (DmConversation.disappearTimerProposedBy conv) d))) ;;
          emit (AgentRoom targetAgentId) "dm:disappear:enabled"
            (PDisappear myAgentId timer) ;;
          emit (AgentRoom myAgentId) "dm:disappear:enabled"
            (PDisappear targetAgentId timer) ;;
          ret (json (DDisappear "enabled" timer))
        else
          d <- newDate ;;
          write (Updated TdmConversations)
            (Pg.integer t
               (Dm.updateConversation (DmConversation.id conv)
                  (Dm.setProposal None t myAgentId d))) ;;
          emit (AgentRoom targetAgentId) "dm:disappear:proposed"
            (PDisappear myAgentId timer) ;;
          ret (json (DDisappear "proposed" timer))
      else
        d <- newDate ;;
        write (Updated TdmConversations)
          (Pg.integer t
             (Dm.updateConversation (DmConversation.id conv)
                (Dm.setProposal (Some true) t myAgentId d))) ;;
        emit (AgentRoom targetAgentId) "dm:disappear:proposed"
          (PDisappear myAgentId timer) ;;
        ret (json (DDisappear "proposed" timer))
  end.

(** [router.post('/block/:agentId')] *)
Definition block (agent : ReqAgent) (targetAgentId : string) : Handler Response :=
  let myAgentId := ra_id agent in
  when (Js.seq targetAgentId myAgentId) (reply (fail 400 "Cannot block yourself")) ;;
  target <- Pg.param targetAgentId ;;
  targetAgent <- select (fun s => agentById s target) ;;
  match targetAgent with
  | None => reply (fail 404 "Agent not found")
  | Some targetAgent =>
      me <- Pg.param myAgentId ;;
      alreadyBlocked <- select (fun s => Dm.isBlocked s me target) ;;
      when alreadyBlocked (reply (fail 400 "Agent is already blocked")) ;;
      write (Inserted TagentBlocks) (Dm.insertBlock (AgentBlock.mk me target)) ;;
      emit (AgentRoom targetAgentId) "dm:blocked" (PBlocked agent) ;;
      ret (json (DText ("Blocked " ++ Agent.name targetAgent)%string))
  end.

(** [router.delete('/block/:agentId')] *)
Definition unblock (agent : ReqAgent) (targetAgentId : string) : Handler Response :=
  let myAgentId := ra_id agent in
  me <- Pg.param myAgentId ;;
  target <- Pg.param targetAgentId ;;
  write (Deleted TagentBlocks)
    (fun s => Some (set_agentBlocks s
       (filter (fun b => negb (Js.seq (AgentBlock.blockerId b) me
                               && Js.seq (AgentBlock.blockedId b) target))
               (agentBlocks s)))) ;;
  ret (json (DText "Agent unblocked")).

(** The GET routes of the router whose path is one segment, in the
    order the router registers them: ['/:agentId'] and ['/blocks'].
    Express runs the first whose pattern matches the path, a parameter
    matching every segment and a word matching itself in either case;
    neither handler passes the request on. *)
Inductive Pattern : Type :=
  | Param
  | Word (w : string).

Definition matches (p : Pattern) (segment : string) : bool :=
  match p with
  | Param => negb (Js.seq segment EmptyString)
  | Word w => Js.seq (Js.toLowerCase segment) w
  end.

Inductive GetRoute : Type :=
  | GetThread
  | GetBlocks.

Definition getRoutes : list (Pattern * GetRoute) :=
  [(Param, GetThread); (Word "blocks", GetBlocks)].

Definition dispatch (segment : string) : option GetRoute :=
  option_map snd (first (fun r => matches (fst r) segment) getRoutes).

(** What a GET request whose path is the one segment [segment] is
    answered, the segment being written without escapes so that the
    parameter is the segment itself: the thread, the list of the
    blocked agents, or nothing from these two routes. *)
Inductive Got : Type :=
  | Thread (r : Response)
  | Blocks (a : Answer (list DmLists.BlockedRow))
  | NoRoute.

Definition get (agent : ReqAgent) (segment : string) (limit : option Z)
    (e : Env) (w : World) : World * Got :=
  match dispatch segment with
  | Some GetThread =>
      let (w', r) := tryCatch (thread agent segment limit)
                       "Failed to get direct messages" e w in
      (w', Thread r)
  | Some GetBlocks =>
      let (w', a) := respond 200 (DmLists.blocks agent)
                       "Failed to get blocked agents" e w in
      (w', Blocks a)
  | None => (w, NoRoute)
  end.

End DmWire.

(** Two agents whose ids are uuids, Ben's also in upper case, and the
    uuids the database draws. *)

Module SampleWire.

Definition ann : Agent.t :=
  Agent.mk "aaaaaaaa-0000-4000-8000-000000000001" "Ann" "ann" None "clk_ann"
    None None true None None false None None.

Definition ben : Agent.t :=
  Agent.mk "bbbbbbbb-0000-4000-8000-000000000002" "Ben" "ben" None "clk_ben"
    None None true None None false None None.

Definition BEN : string := "BBBBBBBB-0000-4000-8000-000000000002".

Fixpoint decimal (digits n : nat) : string :=
  match digits with
  | O => EmptyString
  | S k =>
      (decimal k (n / 10) ++ String (ascii_of_nat (48 + n mod 10)) EmptyString)%string
  end.

Definition at_ (t : Timestamp) : Env :=
  mkEnv t (fun n => ("cccccccc-0000-4000-8000-" ++ decimal 12 n)%string).

Definition message (n : nat) (from to : Agent.t) (content : string) (t : Timestamp)
  : DirectMessage.t :=
  DirectMessage.mk (gen_random_uuid (at_ 0) n) (Agent.id from) (Agent.id to) content
    None false false None None (Some t).

(** Ann and Ben have exchanged three messages. *)
Definition three : World :=
  mkWorld
    (mkStore [ann; ben] [] [] [] [] []
       [message 1 ann ben "one" 10; message 2 ben ann "two" 20;
        message 3 ann ben "three" 30]
       [] []
       [DmConversation.mk (gen_random_uuid (at_ 0) 0) (Agent.id ann) (Agent.id ben)
          None None false None None None None (Some 10)]
       [])
    4 [].

(** Ann clears the conversation, naming Ben by his id in lower case. *)
Definition cleared : World :=
  fst (tryCatch (DmWire.clear (reqAgentOf ann) (Agent.id ben))
         "Failed to clear conversation" (at_ 40) three).

End SampleWire.

(** ** routes/auth.ts, registration *)

Module Register.

Definition WORDS : list string :=
  ["reef"; "wave"; "moon"; "star"; "leaf"; "pine"; "peak"; "vale";
   "claw"; "link"; "byte"; "node"; "core"; "sync"; "flux"; "grid";
   "aqua"; "neon"; "zinc"; "ruby"; "jade"; "onyx"; "opal"; "rust"].

Definition chars : string := "ABCDEFGHJKLMNPQRSTUVWXYZ23456789".

(** A value of [Math.random()], as the fraction [num / den]; it lies in
    [[0, 1)] when [num < den]. *)
Record Fraction := mkFraction { num : nat; den : nat }.

Definition belowOne (x : Fraction) : bool := (num x <? den x)%nat.

(** [Math.floor(x * n)] *)
Definition scaled (x : Fraction) (n : nat) : nat := (num x * n / den x)%nat.

(** [chars[i]] appended to a string: a missing character reads
    [undefined]. *)
Definition charAt (i : nat) : string :=
  match String.get i chars with
  | Some c => String c EmptyString
  | None => "undefined"
  end.

(** [function generateVerificationCode()]; [random k] is the [k]-th
    value [Math.random()] returns. *)
Definition generateVerificationCode (random : nat -> Fraction) : string :=
  let word := nth (scaled (random 0%nat) (List.length WORDS)) WORDS "undefined" in
  let suffix :=
    fold_left (fun suffix i => (suffix ++ charAt (scaled (random i) (String.length chars)))%string)
              [1; 2; 3; 4]%nat EmptyString in
  (word ++ "-" ++ suffix)%string.

(** What the random sources yield during one registration: the two
    [nanoid] texts and the values of [Math.random()]. *)
Record Entropy := mkEntropy {
  nanoid32 : string;
  nanoid16 : string;
  random : nat -> Fraction }.

(** [INSERT INTO agents]: primary key and the three [UNIQUE] columns. *)
Definition insertAgent (a : Agent.t) (s : Store) : option Store :=
  if is_some (agentById s (Agent.id a))
     || is_some (first (fun x => Js.seq (Agent.handle x) (Agent.handle a)) (agents s))
     || is_some (first (fun x => Js.seq (Agent.apiKey x) (Agent.apiKey a)) (agents s))
     || match Agent.claimToken a with
        | Some t => is_some (Auth.byClaimToken s t)
        | None => false
        end
  then None
  else Some (set_agents s (agents s ++ [a])).

(** The success answer of the registration. *)
Record Registered := mkRegistered {
  reg_id : Id;
  reg_name : string;
  reg_handle : string;
  reg_bio : option string;
  reg_apiKey : string;
  reg_claimUrl : string;
  reg_verificationCode : string }.

(** [router.post('/register')]; [FRONTEND_URL] is the variable of the
    environment. *)
Definition register (FRONTEND_URL : option string) (entropy : Entropy)
    (name handle bio : option string) : Handler Registered :=
  when (negb (Js.truthy name) || negb (Js.truthy handle))
    (reply (fail 400 "Name and handle are required")) ;;
  let name' := match name with Some n => n | None => EmptyString end in
  let handle' :=
    Js.toLowerCase (match handle with Some h => h | None => EmptyString end) in
  existing <- select (fun s => first (fun a => Js.seq (Agent.handle a) handle') (agents s)) ;;
  when (is_some existing)
    (reply (fail 409 "Handle already taken. Please choose another.")) ;;
  let apiKey := ("clk_" ++ nanoid32 entropy)%string in
  let claimToken := nanoid16 entropy in
  let verificationCode := generateVerificationCode (random entropy) in
  id <- defaultRandom ;;
  d <- newDate ;;
  let bio' := if Js.truthy bio then bio else None in
  write (Inserted Tagents)
    (insertAgent
       (Agent.mk id name' handle' bio' apiKey (Some claimToken) (Some verificationCode)
          false None None false (Some d) (Some d))) ;;
  let frontendUrl :=
    if Js.truthy FRONTEND_URL
    then match FRONTEND_URL with Some u => u | None => EmptyString end
    else "http://localhost:3001" in
  ret (mkRegistered id name' handle' bio' apiKey
         (frontendUrl ++ "/claim/" ++ claimToken)%string verificationCode).

(** The success answer of the claim page: the agent, the code and the
    text of the tweet. *)
Record ClaimInfo := mkClaimInfo {
  ci_name : string;
  ci_handle : string;
  ci_bio : option string;
  ci_verificationCode : option string;
  ci_tweetText : string }.

(** [router.get('/claim/:token')] *)
Definition claimInfo (token : string) : Handler ClaimInfo :=
  agent <- select (fun s => Auth.byClaimToken s token) ;;
  match agent with
  | None => reply (fail 404 "Invalid claim token")
  | Some agent =>
      when (Agent.claimed agent) (reply (fail 400 "Agent already claimed")) ;;
      ret (mkClaimInfo (Agent.name agent) (Agent.handle agent) (Agent.bio agent)
             (Agent.verificationCode agent)
             ("Claiming my @clawlink bot #"
              ++ match Agent.verificationCode agent with
                 | Some c => c
                 | None => "null"
                 end)%string)
  end.

End Register.

(** ** The chat view of the web client, the reactions of a message *)

Module ChatView.

(** [counts.set(emoji, (counts.get(emoji) || 0) + 1)] on a [Map], whose
    entries keep the order of their first insertion. *)
Fixpoint bump (emoji : string) (counts : list (string * nat)) : list (string * nat) :=
  match counts with
  | [] => [(emoji, 1%nat)]
  | (k, n) :: r =>
      if Js.seq k emoji then (k, S n) :: r else (k, n) :: bump emoji r
  end.

(** [emojiToLabel[emoji] || '']: a plain object also answers the names
    it inherits, with a value that is not a text. *)
Inductive Label : Type :=
  | Text (s : string)
  | Inherited.

Definition emojiToLabel (emoji : string) : Label :=
  if Js.seq emoji "👍" then Text "Nice"
  else if Js.seq emoji "❤️" then Text "Love it"
  else if Js.seq emoji "😠" then Text "No"
  else if Js.seq emoji "😢" then Text "Sorry"
  else if Dm.inherited emoji then Inherited
  else Text EmptyString.

Record Grouped := mkGrouped {
  g_emoji : string;
  g_label : Label;
  g_count : nat }.

(** [function groupReactions(reactions)] *)
Definition groupReactions (reactions : list ReactionView) : list Grouped :=
  let counts := fold_left (fun counts r => bump (fst r) counts) reactions [] in
  map (fun entry => mkGrouped (fst entry) (emojiToLabel (fst entry)) (snd entry)) counts.

End ChatView.

(** ** Routes and jobs whose socket events have payloads of their own

    The events below are not among [Payload]; [io] renders such an
    event as the entry it leaves in the trace, so that the handlers
    trace them in program order like every other effect. *)

Module Moderation.
Import Permissions.

Inductive Notice : Type :=
  | NMessageDeleted (groupId messageId : Id) (deletedBy : ReqAgent)
  | NGroupDeleted (groupId : Id) (groupName : string) (deletedBy : ReqAgent)
  | NPermissionsUpdated (groupId : Id) (permissions : PermissionKey -> Role)
      (updatedBy : ReqAgent)
  | NExpired (messageId : Id).


(** [DELETE FROM groups WHERE id = ..]; members, messages (with their
    reactions) and permissions of the group go with it. *)
Definition deleteGroupRow (groupId : Id) (s : Store) : option Store :=
  let gone := fun m => Js.seq (Message.groupId m) groupId in
  Some (mkStore (agents s)
          (filter (fun g => negb (Js.seq (Group.id g) groupId)) (groups s))
          (filter (fun m => negb (Js.seq (GroupMember.groupId m) groupId)) (groupMembers s))
          (filter (fun p => negb (Js.seq (GroupPermission.groupId p) groupId))
                  (groupPermissions s))
          (filter (fun m => negb (gone m)) (messages s))
          (filter (fun r =>
                     negb (existsb (fun m => gone m
                                             && Js.seq (Message.id m)
                                                  (MessageReaction.messageId r))
                                   (messages s)))
                  (messageReactions s))
          (directMessages s) (agentBlocks s) (dmReactions s) (dmConversations s)
          (agentBadges s)).

(** [expires_at IS NOT NULL AND expires_at < now] *)
Definition expired (now : Timestamp) (m : DirectMessage.t) : bool :=
  match DirectMessage.expiresAt m with
  | Some x => x <? now
  | None => false
  end.

(** [DELETE FROM direct_messages WHERE expires_at < ..]; the reactions
    of the messages go with them. *)
Definition deleteExpired (now : Timestamp) (s : Store) : option Store :=
  Some (mkStore (agents s) (groups s) (groupMembers s) (groupPermissions s)
          (messages s) (messageReactions s)
          (filter (fun m => negb (expired now m)) (directMessages s))
          (agentBlocks s)
          (filter (fun r =>
                     negb (existsb (fun m => expired now m
                                             && Js.seq (DirectMessage.id m)
                                                  (DmReaction.messageId r))
                                   (directMessages s)))
                  (dmReactions s))
          (dmConversations s) (agentBadges s)).

(** [validKeys.includes(key)] together with the key it denotes. *)
Definition parseKey (key : string) : option PermissionKey :=
  if Js.seq key "renameGroup" then Some renameGroup
  else if Js.seq key "editDescription" then Some editDescription
  else if Js.seq key "editAvatar" then Some editAvatar
  else if Js.seq key "deleteGroup" then Some deleteGroup
  else if Js.seq key "removeMembers" then Some removeMembers
  else if Js.seq key "setRoles" then Some setRoles
  else if Js.seq key "inviteMembers" then Some inviteMembers
  else if Js.seq key "pinMessages" then Some pinMessages
  else if Js.seq key "deleteAnyMessage" then Some deleteAnyMessage
  else None.

Definition PermissionKey_eqb (a b : PermissionKey) : bool :=
  match a, b with
  | renameGroup, renameGroup | editDescription, editDescription
  | editAvatar, editAvatar | deleteGroup, deleteGroup
  | removeMembers, removeMembers | setRoles, setRoles
  | inviteMembers, inviteMembers | pinMessages, pinMessages
  | deleteAnyMessage, deleteAnyMessage => true
  | _, _ => false
  end.

(** The loop over [Object.entries(permissions)]: the first entry that
    is refused, or the [updates]. *)
Fixpoint validate (entries : list (string * string))
    (updates : list (PermissionKey * Role)) : string + list (PermissionKey * Role) :=
  match entries with
  | [] => inr updates
  | (key, value) :: rest =>
      match parseKey key with
      | None => inl ("Invalid permission key: " ++ key)%string
      | Some k =>
          match Groups.parseRole (Some value) with
          | None => inl ("Invalid role value for " ++ key ++ ": " ++ value)%string
          | Some role =>
              if PermissionKey_eqb k deleteGroup && negb (Role_eqb role admin)
              then inl "deleteGroup permission must be admin-only"
              else validate rest (updates ++ [(k, role)])
          end
      end
  end.

(** [{ ...row, ...updates }]: of two entries for a key the later one
    counts. *)
Definition overlay (updates : list (PermissionKey * Role)) (base : PermissionKey -> Role)
  : PermissionKey -> Role :=
  fun k =>
    match first (fun u => PermissionKey_eqb (fst u) k) (rev updates) with
    | Some u => snd u
    | None => base k
    end.

Definition permissionsRow (s : Store) (groupId : Id) : option GroupPermission.t :=
  first (fun p => Js.seq (GroupPermission.groupId p) groupId) (groupPermissions s).

(** [export async function getGroupPermissions(groupId)] *)
Definition getGroupPermissions (s : Store) (groupId : Id) : PermissionKey -> Role :=
  match permissionsRow s groupId with
  | Some p => GroupPermission.required p
  | None => DEFAULT_PERMISSIONS
  end.

Definition set_groupPermissions (s : Store) (l : list GroupPermission.t) : Store :=
  mkStore (agents s) (groups s) (groupMembers s) l (messages s)
    (messageReactions s) (directMessages s) (agentBlocks s) (dmReactions s)
    (dmConversations s) (agentBadges s).

(** [UPDATE group_permissions SET .. WHERE group_id = ..] *)
Definition updatePermissionsRow (groupId : Id) (updates : list (PermissionKey * Role))
    (s : Store) : option Store :=
  Some (set_groupPermissions s
          (map (fun p =>
                  if Js.seq (GroupPermission.groupId p) groupId
                  then GroupPermission.mk (GroupPermission.groupId p)
                         (overlay updates (GroupPermission.required p))
                  else p)
               (groupPermissions s))).

(** [INSERT INTO group_permissions]: the foreign key, [UNIQUE(group_id)]
    and the defaults of the columns. *)
Definition insertPermissionsRow (groupId : Id) (updates : list (PermissionKey * Role))
    (s : Store) : option Store :=
  if negb (is_some (groupById s groupId)) || is_some (permissionsRow s groupId)
  then None
  else Some (set_groupPermissions s
               (groupPermissions s
                ++ [GroupPermission.mk groupId (overlay updates DEFAULT_PERMISSIONS)])).

Section Io.
Variable io : Room -> string -> Notice -> Effect.

(** [io.to(room).emit(event, notice)] *)
Definition notify (room : Room) (event : string) (notice : Notice) : Handler unit :=
  log (io room event notice).


(** [router.delete('/:groupId')] of [routes/groups.ts] *)
Definition deleteGroupById (agent : ReqAgent) (groupId : Id) : Handler Response :=
  let agentId := ra_id agent in
  adminCheck <- select (fun s => isAdmin s groupId agentId) ;;
  when (negb adminCheck) (reply (fail 403 "Only admins can delete groups")) ;;
  group <- select (fun s => groupById s groupId) ;;
  match group with
  | None => reply (fail 404 "Group not found")
  | Some group =>
      write (Deleted Tgroups) (deleteGroupRow groupId) ;;
      notify Everyone "group:deleted" (NGroupDeleted groupId (Group.name group) agent) ;;
      ret (json (DText ("Group " ++ Js.quoted (Group.name group)
                        ++ " has been deleted")%string))
  end.

(** [router.put('/:groupId/permissions')] of [routes/groups.ts];
    [permissions] is the list of the entries of the object in the body,
    [None] when the body has none. *)
Definition updatePermissions (agent : ReqAgent) (groupId : Id)
    (permissions : option (list (string * string))) : Handler (PermissionKey -> Role) :=
  let agentId := ra_id agent in
  adminCheck <- select (fun s => isAdmin s groupId agentId) ;;
  when (negb adminCheck) (reply (fail 403 "Only admins can modify group permissions")) ;;
  match permissions with
  | None => raise
  | Some entries =>
      match validate entries [] with
      | inl error => reply (fail 400 error)
      | inr updates =>
          existing <- select (fun s => permissionsRow s groupId) ;;
          (if is_some existing
           then write (Updated TgroupPermissions) (updatePermissionsRow groupId updates)
           else write (Inserted TgroupPermissions) (insertPermissionsRow groupId updates)) ;;
          newPermissions <- select (fun s => getGroupPermissions s groupId) ;;
          notify (GroupRoom groupId) "group:permissionsUpdated"
            (NPermissionsUpdated groupId newPermissions agent) ;;
          ret newPermissions
      end
  end.

(** The body of the [try] of [cleanupExpiredMessages] in [index.ts]. *)
Definition cleanup : Handler unit :=
  now <- newDate ;;
  expired <- select (fun s => filter (expired now) (directMessages s)) ;;
  match expired with
  | [] => ret tt
  | _ =>
      fold_right
        (fun msg rest =>
           notify (AgentRoom (DirectMessage.fromAgentId msg)) "dm:expired"
             (NExpired (DirectMessage.id msg)) ;;
           notify (AgentRoom (DirectMessage.toAgentId msg)) "dm:expired"
             (NExpired (DirectMessage.id msg)) ;;
           rest)
        (ret tt) expired ;;
      write (Deleted TdirectMessages) (deleteExpired now)
  end.

(** [async function cleanupExpiredMessages()]: an error is logged. *)
Definition cleanupExpiredMessages (e : Env) (w : World) : World := fst (cleanup e w).

End Io.

End Moderation.

(** ** Vocabulary of the further properties *)

Module Terms.

(** The text holds no space. *)
Definition spaceless (key : string) : bool :=
  forallb (fun c => negb (Ascii.eqb c " ")) (list_ascii_of_string key).

(** The status is one of the client errors. *)
Definition refused (r : Response) : bool :=
  (400 <=? status r)%nat && (status r <? 500)%nat.

(** [a] is not later than [b]: it does not come strictly before [b]
    when the newest comes first. *)
Definition notLater (a b : option Timestamp) : Prop := Query.before a b = false.

(** The order of a listing with the newest first. *)
Definition newestFirst {A : Type} (key : A -> option Timestamp) (x y : A) : Prop :=
  notLater (key y) (key x).

(** The order of a listing with the oldest first. *)
Definition oldestFirst {A : Type} (key : A -> option Timestamp) (x y : A) : Prop :=
  notLater (key x) (key y).

(** The text of the given bytes. *)
Definition bytes (l : list nat) : string := string_of_list_ascii (map ascii_of_nat l).

(** The characters that [trim] removes, the white space and the line
    terminators of ECMAScript, in UTF-8: U+0009 to U+000D, U+0020,
    U+00A0, U+1680, U+2000 to U+200A, U+2028, U+2029, U+202F, U+205F,
    U+3000 and U+FEFF. *)
Definition whiteSpace : list string :=
  map bytes
    [[9]; [10]; [11]; [12]; [13]; [32]; [194; 160]; [225; 154; 128];
     [226; 128; 128]; [226; 128; 129]; [226; 128; 130]; [226; 128; 131];
     [226; 128; 132]; [226; 128; 133]; [226; 128; 134]; [226; 128; 135];
     [226; 128; 136]; [226; 128; 137]; [226; 128; 138];
     [226; 128; 168]; [226; 128; 169]; [226; 128; 175]; [226; 129; 159];
     [227; 128; 128]; [239; 187; 191]]%nat.

(** A text of white space only. *)
Definition white (s : string) : Prop :=
  exists l, Forall (fun x => In x whiteSpace) l
            /\ s = fold_right String.append EmptyString l.

(** A text with something in it, and no white space at either end. *)
Definition tidy (s : string) : Prop :=
  s <> EmptyString
  /\ forall sp u, In sp whiteSpace ->
                  s <> (sp ++ u)%string /\ s <> (u ++ sp)%string.

(** The characters of the suffix of a verification code. *)
Definition codeChar (c : ascii) : bool :=
  existsb (Ascii.eqb c) (list_ascii_of_string Register.chars).

(** The number of reactions with the emoji [x]. *)
Definition occurrences (x : string) (reactions : list ReactionView) : nat :=
  List.length (filter (fun r => Js.seq (fst r) x) reactions).

(** The two notices of an expired message. *)
Definition notices (io : Room -> string -> Moderation.Notice -> Effect)
    (msg : DirectMessage.t) : list Effect :=
  [io (AgentRoom (DirectMessage.fromAgentId msg)) "dm:expired"
      (Moderation.NExpired (DirectMessage.id msg));
   io (AgentRoom (DirectMessage.toAgentId msg)) "dm:expired"
      (Moderation.NExpired (DirectMessage.id msg))].

End Terms.

(** An instance of [io] for the examples: the event, with the id it is
    about. *)

Module SampleIo.
Import Moderation.

Definition subject (notice : Notice) : Id :=
  match notice with
  | NMessageDeleted _ messageId _ => messageId
  | NGroupDeleted groupId _ _ => groupId
  | NPermissionsUpdated groupId _ _ => groupId
  | NExpired messageId => messageId
  end.

Definition brief (room : Room) (event : string) (notice : Notice) : Effect :=
  Emitted room event (PCleared (subject notice)).

End SampleIo.

(** * Properties *)

(** ** Lists of rows and the handler monad *)

Lemma seq_true (a b : string) : Js.seq a b = true <-> a = b.
Proof. unfold Js.seq. apply String.eqb_eq. Qed.

Lemma seq_false (a b : string) : Js.seq a b = false <-> a <> b.
Proof. unfold Js.seq. apply String.eqb_neq. Qed.

Lemma seq_refl (a : string) : Js.seq a a = true.
Proof. apply seq_true. reflexivity. Qed.

Lemma seq_sym (a b : string) : Js.seq a b = Js.seq b a.
Proof. unfold Js.seq. apply String.eqb_sym. Qed.

Lemma first_some {A} (p : A -> bool) (l : list A) (a : A) :
  first p l = Some a -> In a l /\ p a = true.
Proof. unfold first. apply find_some. Qed.

Lemma first_none {A} (p : A -> bool) (l : list A) :
  first p l = None -> forall a, In a l -> p a = false.
Proof. unfold first. apply find_none. Qed.

Lemma first_app_some {A} (p : A -> bool) (l l' : list A) :
  is_some (first p l) = true -> is_some (first p (l ++ l')) = true.
Proof.
  unfold first. induction l as [|x r IH]; simpl; [discriminate|].
  destruct (p x); auto.
Qed.

Lemma first_in_some {A} (p : A -> bool) (l : list A) (a : A) :
  In a l -> p a = true -> is_some (first p l) = true.
Proof.
  intros Hin Hp. destruct (first p l) eqn:E; [reflexivity|].
  rewrite (first_none _ _ E a Hin) in Hp. discriminate.
Qed.

Ltac monad :=
  unfold when, emit in *;
  unfold tryCatch, bind, ret, reply, raise, select, newDate, defaultRandom,
    write, log in *.

(** Case analysis on the test the handler performs next. *)
Ltac branch :=
  match goal with
  | |- context [if ?c then _ else _] => destruct c eqn:?
  | |- context [match ?x with Some _ => _ | None => _ end] => destruct x eqn:?
  end; cbn [fst snd db drawn trace].

(** The middleware either answers itself, leaving the world as it is, or
    hands an existing agent to the route. *)
Lemma authMiddleware_cases (auth : option string) (e : Env) (w : World) :
  (exists r, Middleware.authMiddleware auth e w = (w, Reply r))
  \/ (exists a, In a (agents (db w))
                /\ Middleware.authMiddleware auth e w
                   = (seen (Agent.id a) e w, Next (reqAgentOf a))).
Proof.
  unfold Middleware.authMiddleware. monad.
  branch; [left; eauto|].
  branch; [left; eauto|].
  match goal with
  | |- context [first ?p (agents (db w))] =>
      destruct (first p (agents (db w))) as [a|] eqn:E
  end; [|left; eauto].
  right. exists a. split; [apply (first_some _ _ _ E)|reflexivity].
Qed.

Lemma authenticated_cases (auth : option string) (route : ReqAgent -> Handler Response)
    (error : string) (e : Env) (w : World) :
  (exists r, Middleware.authenticated auth route error e w = (w, r))
  \/ (exists a, In a (agents (db w))
                /\ requester auth e w = Some (reqAgentOf a)
                /\ Middleware.authenticated auth route error e w
                   = tryCatch (route (reqAgentOf a)) error e (seen (Agent.id a) e w)).
Proof.
  unfold Middleware.authenticated, requester.
  destruct (authMiddleware_cases auth e w) as [[r H]|[a [Hin H]]]; rewrite H.
  - left. eauto.
  - right. exists a. auto.
Qed.

Lemma agentById_seen (id : Id) (e : Env) (w : World) (a : Agent.t) :
  In a (agents (db w)) ->
  is_some (agentById (db (seen id e w)) (Agent.id a)) = true.
Proof.
  intros Hin. unfold agentById. simpl.
  apply first_in_some with (a := Middleware.touch id (now e) a).
  - apply in_map. exact Hin.
  - unfold Middleware.touch. destruct (Js.seq (Agent.id a) id); simpl; apply seq_refl.
Qed.

(** ** Group membership *)

Module GroupFacts.
Import Permissions Groups GroupSpec.

Lemma isRow_true g a m :
  isRow g a m = true <-> GroupMember.groupId m = g /\ GroupMember.agentId m = a.
Proof. unfold isRow. rewrite andb_true_iff, !seq_true. tauto. Qed.

Lemma isRow_sym x m :
  isRow (GroupMember.groupId x) (GroupMember.agentId x) m
  = isRow (GroupMember.groupId m) (GroupMember.agentId m) x.
Proof.
  unfold isRow.
  rewrite (seq_sym (GroupMember.groupId m)), (seq_sym (GroupMember.agentId m)).
  reflexivity.
Qed.

Lemma membership_none s g a :
  membership s g a = None -> existsb (isRow g a) (groupMembers s) = false.
Proof.
  intros H. destruct (existsb (isRow g a) (groupMembers s)) eqn:E; [|reflexivity].
  apply existsb_exists in E as [m [Hin Hm]].
  pose proof (first_none _ _ H m Hin) as Hf. cbv beta in Hf.
  unfold isRow in Hm. congruence.
Qed.

Lemma role_admin r : Role_eqb r admin = true <-> r = admin.
Proof. destruct r; simpl; split; congruence. Qed.

(** A role that somebody can modify is not [admin]. *)
Lemma canModify_not_admin u r : canModify u r = true -> r <> admin.
Proof.
  unfold canModify, canModifyRole. destruct u as [u|]; [|discriminate].
  intros H ->. destruct u; simpl in H; discriminate.
Qed.

Lemma unique_app l m :
  uniqueMembers l = true ->
  existsb (isRow (GroupMember.groupId m) (GroupMember.agentId m)) l = false ->
  uniqueMembers (l ++ [m]) = true.
Proof.
  induction l as [|x r IH]; simpl; [reflexivity|].
  rewrite andb_true_iff, negb_true_iff, orb_false_iff.
  intros [Hx Hr] [Hm Hmr].
  rewrite existsb_app, Hx, (IH Hr Hmr). simpl.
  rewrite isRow_sym, Hm. reflexivity.
Qed.

Lemma unique_filter p l :
  uniqueMembers l = true -> uniqueMembers (filter p l) = true.
Proof.
  induction l as [|x r IH]; simpl; [reflexivity|].
  rewrite andb_true_iff, negb_true_iff. intros [Hx Hr].
  destruct (p x); simpl; [|auto].
  rewrite (IH Hr), andb_true_r, negb_true_iff.
  destruct (existsb _ (filter p r)) eqn:E; [|reflexivity].
  apply existsb_exists in E as [m [Hin Hm]]. apply filter_In in Hin as [Hin _].
  assert (existsb (isRow (GroupMember.groupId x) (GroupMember.agentId x)) r = true)
    by (apply existsb_exists; eauto).
  congruence.
Qed.

Lemma unique_map f l :
  (forall m, GroupMember.groupId (f m) = GroupMember.groupId m
             /\ GroupMember.agentId (f m) = GroupMember.agentId m) ->
  uniqueMembers (map f l) = uniqueMembers l.
Proof.
  intros Hf. induction l as [|x r IH]; simpl; [reflexivity|].
  rewrite IH. f_equal. f_equal.
  destruct (Hf x) as [-> ->].
  clear IH. induction r as [|y r IH]; simpl; [reflexivity|].
  rewrite IH. f_equal. unfold isRow. destruct (Hf y) as [-> ->]. reflexivity.
Qed.

(** Under the uniqueness constraint the row [limit(1)] selects is the
    only row of that member. *)
Lemma unique_first l g a m0 m :
  uniqueMembers l = true -> first (isRow g a) l = Some m0 ->
  In m l -> isRow g a m = true -> m = m0.
Proof.
  induction l as [|x r IH]; simpl; [intros _ H; discriminate|].
  rewrite andb_true_iff, negb_true_iff. intros [Hx Hr] Hf Hin Hm.
  destruct (isRow g a x) eqn:Ex.
  - injection Hf as <-. destruct Hin as [->|Hin]; [reflexivity|].
    exfalso. apply isRow_true in Ex as [<- <-].
    assert (existsb (isRow (GroupMember.groupId x) (GroupMember.agentId x)) r = true)
      by (apply existsb_exists; eauto).
    congruence.
  - destruct Hin as [->|Hin]; [congruence|]. eauto.
Qed.

Lemma admin_kept (l l' : list GroupMember.t) :
  (forall m, In m l -> GroupMember.role m = admin -> In m l') ->
  forall g, existsb (isAdminOf g) l = true -> existsb (isAdminOf g) l' = true.
Proof.
  intros H g E. apply existsb_exists in E as [m [Hin Hm]].
  apply existsb_exists. exists m. split; [|exact Hm].
  apply H; [exact Hin|]. unfold isAdminOf in Hm.
  apply andb_true_iff in Hm as [_ Hm]. apply role_admin. exact Hm.
Qed.

Lemma sound_split s :
  sound s = true <->
  uniqueMembers (groupMembers s) = true
  /\ membersReferToGroups s = true
  /\ everyGroupHasAdmin s = true.
Proof. unfold sound, constraints. rewrite !andb_true_iff. tauto. Qed.

Lemma refers_in s m :
  membersReferToGroups s = true -> In m (groupMembers s) ->
  is_some (groupById s (GroupMember.groupId m)) = true.
Proof.
  unfold membersReferToGroups. rewrite forallb_forall. intros H Hin. exact (H m Hin).
Qed.

(** Replacing the member rows keeps the store sound when the new rows
    are unique, refer to groups, and leave an admin row to every group
    that had one. *)
Lemma sound_rows s l' :
  sound s = true ->
  uniqueMembers l' = true ->
  (forall m, In m l' -> is_some (groupById s (GroupMember.groupId m)) = true) ->
  (forall g, existsb (isAdminOf g) (groupMembers s) = true ->
             existsb (isAdminOf g) l' = true) ->
  sound (set_groupMembers s l') = true.
Proof.
  rewrite !sound_split. intros (Hu & Hr & Ha) Hu' Hsub Hadm.
  split; [exact Hu'|]. split.
  - unfold membersReferToGroups. simpl. apply forallb_forall. exact Hsub.
  - unfold everyGroupHasAdmin, hasAdmin in *. simpl.
    rewrite forallb_forall in *. intros g Hg. auto.
Qed.

(** In particular when they include the old admin rows. *)
Lemma sound_members s l' :
  sound s = true ->
  uniqueMembers l' = true ->
  (forall m, In m l' -> is_some (groupById s (GroupMember.groupId m)) = true) ->
  (forall m, In m (groupMembers s) -> GroupMember.role m = admin -> In m l') ->
  sound (set_groupMembers s l') = true.
Proof.
  intros Hs Hu Hsub Hadm. apply sound_rows; auto.
  apply admin_kept. exact Hadm.
Qed.

(** Deleting the rows of a member whose selected row is not an admin
    row keeps the store sound. *)
Lemma sound_delete s g a m0 :
  sound s = true -> membership s g a = Some m0 -> GroupMember.role m0 <> admin ->
  sound (set_groupMembers s
           (filter (fun m => negb (isRow g a m)) (groupMembers s))) = true.
Proof.
  intros Hs Hm Hrole. pose proof Hs as Hs'. apply sound_split in Hs' as (Hu & Hr & _).
  apply sound_members; auto.
  - apply unique_filter. exact Hu.
  - intros m Hin. apply filter_In in Hin as [Hin _]. apply refers_in; assumption.
  - intros m Hin Hadm. apply filter_In. split; [exact Hin|].
    apply negb_true_iff. destruct (isRow g a m) eqn:E; [|reflexivity].
    exfalso. apply Hrole. rewrite <- (unique_first _ _ _ _ _ Hu Hm Hin E). exact Hadm.
Qed.

(** Deleting the rows of an admin keeps the store sound when the group
    has another admin. *)
Lemma sound_delete_admin s g a :
  sound s = true -> otherAdmin s g a = true ->
  sound (set_groupMembers s
           (filter (fun m => negb (isRow g a m)) (groupMembers s))) = true.
Proof.
  intros Hs Hother. pose proof Hs as Hs'. apply sound_split in Hs' as (Hu & Hr & _).
  apply sound_rows; auto.
  - apply unique_filter. exact Hu.
  - intros m Hin. apply filter_In in Hin as [Hin _]. apply refers_in; assumption.
  - intros g' Hg'. unfold otherAdmin in Hother.
    apply existsb_exists in Hother as (m1 & Hin1 & H1).
    apply andb_true_iff in H1 as [Hadm1 Hne1]. apply negb_true_iff in Hne1.
    apply existsb_exists in Hg' as (m2 & Hin2 & Hadm2).
    destruct (Js.seq g' g) eqn:Eg.
    + apply seq_true in Eg. subst g'. apply existsb_exists. exists m1.
      split; [|exact Hadm1]. apply filter_In. split; [exact Hin1|].
      unfold isRow. rewrite Hne1, andb_false_r. reflexivity.
    + apply existsb_exists. exists m2. split; [|exact Hadm2].
      apply filter_In. split; [exact Hin2|].
      unfold isAdminOf in Hadm2. apply andb_true_iff in Hadm2 as [Hg2 _].
      apply seq_true in Hg2. unfold isRow. rewrite Hg2, Eg. reflexivity.
Qed.

(** So does changing their role. *)
Lemma sound_update s g a r m0 :
  sound s = true -> membership s g a = Some m0 -> GroupMember.role m0 <> admin ->
  sound (set_groupMembers s
           (map (fun m => if isRow g a m
                          then GroupMember.mk (GroupMember.groupId m)
                                 (GroupMember.agentId m) r
                          else m)
                (groupMembers s))) = true.
Proof.
  intros Hs Hm Hrole. pose proof Hs as Hs'. apply sound_split in Hs' as (Hu & Hr & _).
  apply sound_members; auto.
  - rewrite unique_map; [exact Hu|]. intros m. destruct (isRow g a m); auto.
  - intros m Hin. apply in_map_iff in Hin as (m1 & <- & Hin).
    replace (GroupMember.groupId (if isRow g a m1 then _ else m1))
      with (GroupMember.groupId m1) by (destruct (isRow g a m1); reflexivity).
    apply refers_in; assumption.
  - intros m Hin Hadm. apply in_map_iff. exists m. split; [|exact Hin].
    destruct (isRow g a m) eqn:E; [|reflexivity].
    exfalso. apply Hrole. rewrite <- (unique_first _ _ _ _ _ Hu Hm Hin E). exact Hadm.
Qed.

Lemma sound_insert_member s m s' :
  sound s = true -> insertGroupMember m s = Some s' -> sound s' = true.
Proof.
  unfold insertGroupMember. intros Hs H.
  destruct (negb (is_some (groupById s (GroupMember.groupId m)))) eqn:Eg; [discriminate|].
  destruct (negb (is_some (agentById s (GroupMember.agentId m)))); [discriminate|].
  destruct (membership s (GroupMember.groupId m) (GroupMember.agentId m)) eqn:Em;
    [discriminate|].
  simpl in H. injection H as <-.
  pose proof Hs as Hs'. apply sound_split in Hs' as (Hu & Hr & _).
  apply sound_members; auto.
  - apply unique_app; [exact Hu|]. apply membership_none. exact Em.
  - intros x Hin. apply in_app_iff in Hin as [Hin|[<-|[]]].
    + apply refers_in; assumption.
    + apply negb_false_iff. exact Eg.
  - intros x Hin _. apply in_app_iff. left. exact Hin.
Qed.

(** The two inserts of the creation flow: once the group row is in,
    the admin row of its creator is accepted. *)
Lemma sound_create s g a s1 :
  sound s = true -> insertGroup g s = Some s1 ->
  is_some (agentById s a) = true ->
  exists s2, insertGroupMember (GroupMember.mk (Group.id g) a admin) s1 = Some s2
             /\ sound s2 = true.
Proof.
  unfold insertGroup. intros Hs H Ha.
  destruct (groupById s (Group.id g)) eqn:Eg; [discriminate|].
  destruct (is_some (first _ (groups s))); [discriminate|].
  simpl in H. destruct (match Group.createdById g with Some _ => _ | None => _ end);
    [discriminate|].
  injection H as <-.
  apply sound_split in Hs as (Hu & Hr & Hadm).
  assert (Hnew : is_some (groupById (set_groups s (groups s ++ [g])) (Group.id g)) = true).
  { unfold groupById. simpl. apply first_in_some with (a := g).
    - apply in_app_iff. right. left. reflexivity.
    - apply seq_refl. }
  assert (Hm : membership s (Group.id g) a = None).
  { destruct (membership s (Group.id g) a) as [m|] eqn:Em; [|reflexivity].
    apply first_some in Em as [Hin Hp]. apply andb_true_iff in Hp as [Hp _].
    apply seq_true in Hp. pose proof (refers_in s m Hr Hin) as Hg.
    rewrite Hp, Eg in Hg. discriminate. }
  unfold insertGroupMember. cbn [GroupMember.groupId GroupMember.agentId].
  rewrite Hnew. change (agentById (set_groups s (groups s ++ [g])) a) with (agentById s a).
  rewrite Ha.
  change (membership (set_groups s (groups s ++ [g])) (Group.id g) a)
    with (membership s (Group.id g) a).
  rewrite Hm. simpl. eexists. split; [reflexivity|].
  apply sound_split. simpl. split; [|split].
  - apply unique_app; [exact Hu|]. apply membership_none. exact Hm.
  - unfold membersReferToGroups. simpl. rewrite forallb_app. apply andb_true_iff. split.
    + apply forallb_forall. intros m Hin. apply (first_app_some _ (groups s) [g]).
      apply (refers_in s m Hr Hin).
    + simpl. rewrite andb_true_r. exact Hnew.
  - unfold everyGroupHasAdmin, hasAdmin in *. simpl. rewrite forallb_app.
    apply andb_true_iff. split.
    + rewrite forallb_forall in *. intros x Hin. rewrite existsb_app.
      rewrite (Hadm x Hin). reflexivity.
    + simpl. rewrite andb_true_r, existsb_app. simpl.
      unfold isAdminOf. simpl. rewrite seq_refl. apply orb_true_r.
Qed.

Lemma create_sound agent name description isPublic error e w :
  sound (db w) = true -> is_some (agentById (db w) (ra_id agent)) = true ->
  sound (db (fst (tryCatch (create agent name description isPublic) error e w))) = true.
Proof.
  intros Hs Ha. unfold create. monad.
  branch; [exact Hs|].
  branch; [exact Hs|]. cbn.
  match goal with
  | |- context [insertGroup ?g (db w)] =>
      destruct (insertGroup g (db w)) as [s1|] eqn:Ei
  end; cbn; [|exact Hs].
  destruct (sound_create _ _ (ra_id agent) _ Hs Ei Ha) as (s2 & E2 & Hs2).
  cbn in E2. rewrite E2. cbn. exact Hs2.
Qed.

Lemma join_sound agent g error e w :
  sound (db w) = true ->
  sound (db (fst (tryCatch (join agent g) error e w))) = true.
Proof.
  intros Hs. unfold join. monad. cbn.
  branch; [|exact Hs].
  branch; [exact Hs|]. cbn.
  match goal with
  | |- context [insertGroupMember ?m (db w)] =>
      destruct (insertGroupMember m (db w)) as [s1|] eqn:Ei
  end; cbn; [|exact Hs].
  exact (sound_insert_member _ _ _ Hs Ei).
Qed.

Lemma leave_sound agent g error e w :
  sound (db w) = true ->
  isAdmin (db w) g (ra_id agent) && negb (otherAdmin (db w) g (ra_id agent)) = false ->
  sound (db (fst (tryCatch (leave agent g) error e w))) = true.
Proof.
  intros Hs Ha. unfold leave. monad.
  destruct (membership (db w) g (ra_id agent)) as [m0|] eqn:Em; cbn; [|exact Hs].
  apply andb_false_iff in Ha as [Ha|Ha].
  - apply (sound_delete _ _ _ m0); auto.
    unfold isAdmin, getMemberRole in Ha. rewrite Em in Ha. simpl in Ha.
    destruct (GroupMember.role m0); congruence.
  - apply sound_delete_admin; [exact Hs|]. apply negb_false_iff. exact Ha.
Qed.

Lemma removeMember_sound agent g target error e w :
  sound (db w) = true ->
  sound (db (fst (tryCatch (removeMember agent g target) error e w))) = true.
Proof.
  intros Hs. unfold removeMember. monad. cbn.
  branch; [exact Hs|].
  branch; [exact Hs|].
  unfold getMemberRole.
  destruct (membership (db w) g target) as [m0|] eqn:Em; cbn; [|exact Hs].
  branch; [exact Hs|]. cbn.
  apply (sound_delete _ _ _ m0); auto.
  apply negb_false_iff in Heqb1. exact (canModify_not_admin _ _ Heqb1).
Qed.

Lemma changeRole_sound agent g target role error e w :
  sound (db w) = true ->
  sound (db (fst (tryCatch (changeRole agent g target role) error e w))) = true.
Proof.
  intros Hs. unfold changeRole. monad.
  destruct (parseRole role) as [newRole|]; cbn; [|exact Hs].
  branch; [exact Hs|].
  branch; [exact Hs|].
  unfold getMemberRole.
  destruct (membership (db w) g target) as [m0|] eqn:Em; cbn; [|exact Hs].
  branch; [exact Hs|].
  branch; [exact Hs|]. cbn.
  apply (sound_update _ _ _ _ m0); auto.
  apply negb_false_iff in Heqb1. exact (canModify_not_admin _ _ Heqb1).
Qed.

(** One request keeps the store sound unless it is the [leave] of an
    admin. *)
Lemma step_sound w c :
  sound (db w) = true -> lastAdminLeaves w c = false -> sound (db (step w c)) = true.
Proof.
  intros Hs Hl. unfold step, lastAdminLeaves in *.
  destruct (request c) as [name description isPublic|g|g|g target|g target role];
    unfold router;
    match goal with
    | |- context [Middleware.authenticated ?a ?r ?t ?e ?w] =>
        destruct (authenticated_cases a r t e w) as [[r0 H]|(a0 & Hin & Hreq & H)];
        rewrite H; clear H; [exact Hs|]
    end.
  - apply create_sound; [exact Hs|]. apply agentById_seen. exact Hin.
  - apply join_sound. exact Hs.
  - apply leave_sound; [exact Hs|]. rewrite Hreq in Hl. exact Hl.
  - apply removeMember_sound. exact Hs.
  - apply changeRole_sound. exact Hs.
Qed.

Lemma run_sound cs : forall w,
  sound (db w) = true -> noLastAdminLeaves w cs = true -> sound (db (run w cs)) = true.
Proof.
  induction cs as [|c r IH]; intros w Hs Hl; [exact Hs|].
  simpl in Hl. apply andb_true_iff in Hl as [Hc Hr]. apply negb_true_iff in Hc.
  simpl. apply IH; [apply step_sound; assumption|exact Hr].
Qed.

(** C1 (amended).  Starting from a store that satisfies the constraints
    of [group_members] and in which every group has an admin, every
    sequence of create, join, leave, remove-member and change-role
    requests in which no [leave] is issued by the only admin of the
    group left ends in a store where every existing group has a member
    with role [admin]. *)
Theorem admin_kept_unless_last_admin_leaves :
  forall (w : World) (cs : list (Call Groups.Request)),
    constraints (db w) = true ->
    everyGroupHasAdmin (db w) = true ->
    noLastAdminLeaves w cs = true ->
    everyGroupHasAdmin (db (run w cs)) = true.
Proof.
  intros w cs Hc Ha Hl.
  assert (Hs : sound (db w) = true) by (unfold sound; rewrite Hc, Ha; reflexivity).
  pose proof (run_sound cs w Hs Hl) as H.
  apply sound_split in H. tauto.
Qed.

(** The theorem at work: Bob joins Ava's group, is made a moderator and
    leaves; the group keeps its admin. *)
Lemma admin_kept_unless_last_admin_leaves_witness :
  constraints (db Sample.start) = true
  /\ everyGroupHasAdmin (db Sample.start) = true
  /\ noLastAdminLeaves Sample.start Sample.memberLeaves = true
  /\ groups (db (run Sample.start Sample.memberLeaves)) <> []
  /\ everyGroupHasAdmin (db (run Sample.start Sample.memberLeaves)) = true.
Proof.
  split; [reflexivity|]. split; [reflexivity|]. split; [vm_compute; reflexivity|].
  split; [vm_compute; discriminate|].
  apply (admin_kept_unless_last_admin_leaves Sample.start Sample.memberLeaves);
    vm_compute; reflexivity.
Defined.

(** C1 as stated fails: Ava creates the group ["u"], of which she is
    the only admin, and leaves it; the request succeeds and the group
    stays, without an admin. *)
Lemma last_admin_may_leave :
  constraints (db Sample.start) = true
  /\ everyGroupHasAdmin (db Sample.start) = true
  /\ snd (Groups.router Sample.asAva (Groups.Leave "u") (Sample.at_ 20)
            (run Sample.start (firstn 1 Sample.adminLeaves)))
     = json (DText "Left group successfully")
  /\ is_some (groupById (db (run Sample.start Sample.adminLeaves)) "u") = true
  /\ hasAdmin (db (run Sample.start Sample.adminLeaves)) "u" = false
  /\ everyGroupHasAdmin (db (run Sample.start Sample.adminLeaves)) = false.
Proof. repeat split; vm_compute; reflexivity. Qed.

End GroupFacts.

(** ** Handlers that keep a property of the store *)

Section Keeps.
Variable P : Store -> Prop.

Lemma keeps_ret {A} (a : A) : keeps P (ret a).
Proof. intros e w H. exact H. Qed.

Lemma keeps_reply {A} (r : Response) : keeps P (@reply A r).
Proof. intros e w H. exact H. Qed.

Lemma keeps_raise {A} : keeps P (@raise A).
Proof. intros e w H. exact H. Qed.

Lemma keeps_select {A} (q : Store -> A) : keeps P (select q).
Proof. intros e w H. exact H. Qed.

Lemma keeps_newDate : keeps P newDate.
Proof. intros e w H. exact H. Qed.

Lemma keeps_defaultRandom : keeps P defaultRandom.
Proof. intros e w H. exact H. Qed.

Lemma keeps_emit room event payload : keeps P (emit room event payload).
Proof. intros e w H. exact H. Qed.

Lemma keeps_write x f :
  (forall s s', P s -> f s = Some s' -> P s') -> keeps P (write x f).
Proof.
  intros Hf e w H. unfold write. destruct (f (db w)) as [s'|] eqn:E; simpl; eauto.
Qed.

Lemma keeps_bind {A B} (m : Handler A) (k : A -> Handler B) :
  keeps P m -> (forall a, keeps P (k a)) -> keeps P (bind m k).
Proof.
  intros Hm Hk e w H. unfold bind. specialize (Hm e w H).
  destruct (m e w) as [w' [a|r|]]; simpl in *; auto. apply Hk. exact Hm.
Qed.

(** [if (c) return res...;] followed by code that runs only when [c]
    is false. *)
Lemma keeps_guard {B} (c : bool) (r : Response) (k : unit -> Handler B) :
  (c = false -> keeps P (k tt)) -> keeps P (bind (when c (reply r)) k).
Proof.
  intros Hk e w H. unfold bind, when. destruct c; simpl; [exact H|].
  apply Hk; auto.
Qed.

Lemma keeps_tryCatch (h : Handler Response) error e w :
  keeps P h -> P (db w) -> P (db (fst (tryCatch h error e w))).
Proof.
  intros Hh H. unfold tryCatch. specialize (Hh e w H).
  destruct (h e w) as [w' [a|r|]]; exact Hh.
Qed.

Lemma keeps_authenticated auth (route : ReqAgent -> Handler Response) error e w :
  (forall s l, P s -> P (set_agents s l)) ->
  (forall a, requester auth e w = Some a -> keeps P (route a)) ->
  P (db w) -> P (db (fst (Middleware.authenticated auth route error e w))).
Proof.
  intros Hagents Hroute H.
  destruct (authenticated_cases auth route error e w) as [[r E]|(a & _ & Hreq & E)];
    rewrite E; [exact H|].
  apply keeps_tryCatch; [apply Hroute; exact Hreq|].
  apply Hagents. exact H.
Qed.

End Keeps.

(** Decomposes a handler along its statements; what remains are its
    writes. *)
Ltac keeps_steps :=
  repeat first
    [ apply keeps_guard; intros ?
    | apply keeps_bind; [|intros ?]
    | apply keeps_ret | apply keeps_reply | apply keeps_raise | apply keeps_select
    | apply keeps_newDate | apply keeps_defaultRandom | apply keeps_emit
    | match goal with
      | |- keeps _ (when ?c _) => destruct c; unfold when
      | |- keeps _ (if ?c then _ else _) => destruct c eqn:?
      | |- keeps _ (match ?x with Some _ => _ | None => _ end) => destruct x eqn:?
      end ].

(** ** The order of texts *)

Module DmOrder.
Import Dm DmSpec.

Lemma ltb_asym (a b : string) : (a <? b)%string = true -> (b <? a)%string = false.
Proof.
  unfold String.ltb. rewrite (String.compare_antisym a b).
  destruct (String.compare b a); simpl; congruence.
Qed.

Lemma ltb_total (a b : string) :
  a <> b -> (a <? b)%string = false -> (b <? a)%string = true.
Proof.
  unfold String.ltb. intros Hne. rewrite (String.compare_antisym a b).
  destruct (String.compare b a) eqn:E; simpl; try congruence.
  apply String.compare_eq_iff in E. congruence.
Qed.

Lemma ltb_irrefl (a : string) : (a <? a)%string = false.
Proof.
  destruct (a <? a)%string eqn:E; [|reflexivity].
  rewrite (ltb_asym a a E) in E. discriminate.
Qed.

End DmOrder.

(** ** Direct messages: the disappearing-timer machine *)

Module DmTimer.
Import Dm DmSpec.

Lemma getOrCreate_existing a b c e w :
  conversation (db w) a b = Some c -> getOrCreateConversation a b e w = (w, Next c).
Proof.
  unfold conversation, getOrCreateConversation. intros H.
  destruct (a <? b)%string; monad; rewrite H; reflexivity.
Qed.

Lemma first_updated a b id f l c :
  (forall x, DmConversation.agent1Id (f x) = DmConversation.agent1Id x
             /\ DmConversation.agent2Id (f x) = DmConversation.agent2Id x) ->
  first (isPair a b) l = Some c ->
  Js.seq (DmConversation.id c) id = true ->
  first (isPair a b) (map (fun x => if Js.seq (DmConversation.id x) id then f x else x) l)
  = Some (f c).
Proof.
  intros Hf. unfold first. induction l as [|x r IH]; simpl; [discriminate|].
  intros H Hid.
  assert (Hp : isPair a b (if Js.seq (DmConversation.id x) id then f x else x)
               = isPair a b x).
  { destruct (Js.seq (DmConversation.id x) id); [|reflexivity].
    unfold isPair. destruct (Hf x) as [-> ->]. reflexivity. }
  rewrite Hp. destruct (isPair a b x).
  - injection H as ->. rewrite Hid. reflexivity.
  - auto.
Qed.

(** The row of a conversation after an update through its id. *)
Lemma conversation_updated s a b c f :
  (forall x, DmConversation.agent1Id (f x) = DmConversation.agent1Id x
             /\ DmConversation.agent2Id (f x) = DmConversation.agent2Id x) ->
  conversation s a b = Some c ->
  conversation
    (set_dmConversations s
       (map (fun x => if Js.seq (DmConversation.id x) (DmConversation.id c)
                      then f x else x) (dmConversations s))) a b
  = Some (f c).
Proof.
  unfold conversation. intros Hf H. simpl.
  destruct (a <? b)%string; apply first_updated; auto using seq_refl.
Qed.

Lemma conversation_sym s a b : conversation s a b = conversation s b a.
Proof.
  unfold conversation.
  destruct (a <? b)%string eqn:E1; destruct (b <? a)%string eqn:E2; try reflexivity.
  - rewrite (DmOrder.ltb_asym a b E1) in E2. discriminate.
  - destruct (String.eqb_spec a b) as [->|Hne]; [reflexivity|].
    rewrite (DmOrder.ltb_total a b Hne E1) in E2. discriminate.
Qed.

Lemma proposed_fields c t by_ :
  stateOf c = Some (Proposed t by_) ->
  DmConversation.disappearTimerPendingApproval c = true
  /\ DmConversation.disappearTimerProposedValue c = Some t
  /\ DmConversation.disappearTimerProposedBy c = Some by_.
Proof.
  unfold stateOf. destruct (DmConversation.disappearTimerPendingApproval c).
  - destruct (DmConversation.disappearTimerProposedValue c),
             (DmConversation.disappearTimerProposedBy c); intros H; try discriminate.
    injection H as -> ->. auto.
  - destruct (DmConversation.disappearTimer c) as [z|]; [destruct (z =? 0)|]; discriminate.
Qed.


(** A proposal that meets a pending proposal of the other side. *)
Lemma answer agent target t t' by_ c error e w :
  conversation (db w) (ra_id agent) target = Some c ->
  stateOf c = Some (Proposed t' by_) ->
  by_ <> ra_id agent ->
  t <> 0 ->
  Pg.int4 t = true ->
  let result := tryCatch (setDisappear agent target (Some t)) error e w in
  (t = t' ->
   timerState (db (fst result)) (ra_id agent) target = Some (Active t)
   /\ trace (fst result)
      = trace w ++ [Updated TdmConversations;
                    Emitted (AgentRoom target) "dm:disappear:enabled"
                      (PDisappear (ra_id agent) (Some t));
                    Emitted (AgentRoom (ra_id agent)) "dm:disappear:enabled"
                      (PDisappear target (Some t))]
   /\ snd result = json (DDisappear "enabled" (Some t)))
  /\ (t <> t' ->
      timerState (db (fst result)) (ra_id agent) target
      = Some (Proposed t (ra_id agent))
      /\ trace (fst result)
         = trace w ++ [Updated TdmConversations;
                       Emitted (AgentRoom target) "dm:disappear:proposed"
                         (PDisappear (ra_id agent) (Some t))]
      /\ snd result = json (DDisappear "proposed" (Some t))).
Proof.
  intros Hc Hst Hby Ht Hi result. subst result.
  apply proposed_fields in Hst as (Hp & Hv & Hb).
  assert (Ht0 : (t =? 0) = false) by (apply Z.eqb_neq; exact Ht).
  assert (Hbs : Js.seq by_ (ra_id agent) = false) by (apply seq_false; exact Hby).
  unfold setDisappear. unfold tryCatch, bind.
  rewrite (getOrCreate_existing _ _ _ _ _ Hc). monad. unfold Pg.integer. rewrite Hi.
  unfold Js.truthy_num. rewrite Ht0, Hp, Hb, Hv. cbn.
  unfold Js.seq in Hbs. rewrite Hbs. cbn. split.
  - intros <-. rewrite Z.eqb_refl. cbn. split; [|split].
    + unfold timerState. rewrite (conversation_updated _ _ _ c); auto.
      unfold stateOf. simpl. rewrite Ht0. reflexivity.
    + rewrite <- !app_assoc. reflexivity.
    + reflexivity.
  - intros Hne.
    assert (Hneq : (t' =? t) = false) by (apply Z.eqb_neq; congruence).
    rewrite Hneq. cbn. split; [|split].
    + unfold timerState. rewrite (conversation_updated _ _ _ c); auto.
      unfold stateOf. simpl. rewrite Hp. reflexivity.
    + rewrite <- !app_assoc. reflexivity.
    + reflexivity.
Qed.







End DmTimer.

Lemma first_app_none {A} (p : A -> bool) (l : list A) (x : A) :
  first p l = None -> p x = true -> first p (l ++ [x]) = Some x.
Proof.
  unfold first. induction l as [|y r IH]; simpl; intros H Hx.
  - rewrite Hx. reflexivity.
  - destruct (p y); [discriminate|auto].
Qed.

(** ** Direct messages: expiry of the messages sent *)

Module DmExpiry.
Import Dm DmSpec.

(** [getOrCreateConversation] finds the row, or inserts a row without
    timer, or fails on the insert. *)
Lemma getOrCreate_cases a b e w :
  (exists c, conversation (db w) a b = Some c
             /\ getOrCreateConversation a b e w = (w, Next c))
  \/ (conversation (db w) a b = None
      /\ exists w' o, getOrCreateConversation a b e w = (w', o)
         /\ match o with
            | Next c => db w' = set_dmConversations (db w) (dmConversations (db w) ++ [c])
                        /\ DmConversation.disappearTimer c = None
                        /\ DmConversation.disappearTimerPendingApproval c = false
                        /\ DmConversation.agent1ClearedAt c = None
                        /\ DmConversation.agent2ClearedAt c = None
                        /\ conversation (db w') a b = Some c
            | Reply _ => False
            | Raise => db w' = db w
            end).
Proof.
  destruct (conversation (db w) a b) as [c|] eqn:E.
  - left. exists c. split; [reflexivity|]. apply DmTimer.getOrCreate_existing. exact E.
  - right. split; [reflexivity|].
    unfold conversation in *. unfold getOrCreateConversation.
    destruct (a <? b)%string eqn:Eab; monad; rewrite E; cbn;
      match goal with
      | |- context [insertConversation ?c (db w)] =>
          destruct (insertConversation c (db w)) as [s'|] eqn:Ei
      end; cbn; do 2 eexists; (split; [reflexivity|]); cbn; try reflexivity.
    all: unfold insertConversation in Ei.
    all: match type of Ei with (if ?c then _ else _) = _ => destruct c end;
      [discriminate|]; injection Ei as <-; cbn.
    all: repeat (split; [reflexivity|]).
    all: apply first_app_none; [exact E|].
    all: unfold isPair; cbn; rewrite !seq_refl; reflexivity.
Qed.

Lemma expiry_stateOf c now :
  (if Js.truthy_num (DmConversation.disappearTimer c)
      && negb (DmConversation.disappearTimerPendingApproval c)
   then match DmConversation.disappearTimer c with
        | Some t => Some (now + t * 1000)
        | None => None
        end
   else None)
  = match stateOf c with
    | Some (Active t) => Some (now + t * 1000)
    | _ => None
    end.
Proof.
  unfold stateOf, Js.truthy_num.
  destruct (DmConversation.disappearTimerPendingApproval c),
           (DmConversation.disappearTimer c) as [t|],
           (DmConversation.disappearTimerProposedValue c),
           (DmConversation.disappearTimerProposedBy c);
    try destruct (t =? 0); reflexivity.
Qed.

Lemma insertDm_in m s s' :
  insertDm m s = Some s' -> In m (directMessages s').
Proof.
  unfold insertDm. intros H.
  match type of H with (if ?c then _ else _) = _ => destruct c end; [discriminate|].
  injection H as <-. simpl. apply in_app_iff. right. left. reflexivity.
Qed.

Ltac reply_check H :=
  match type of H with
  | context [if Js.truthy ?r then _ else _] => destruct (Js.truthy r)
  end; cbn in H;
  [ match type of H with
    | context [dmById ?s ?i] => destruct (dmById s i); cbn in H; [|discriminate]
    end;
    match type of H with
    | context [if negb ?c then _ else _] => destruct c; cbn in H; [|discriminate]
    end
  | ].

Ltac stored H :=
  match type of H with
  | context [insertDm ?x ?s] =>
      let Ei := fresh "Ei" in
      destruct (insertDm x s) as [s'|] eqn:Ei; cbn in H; [|discriminate];
      injection H as <- <- <- <-; cbn;
      split; [exact (insertDm_in _ _ _ Ei)|]; split; [reflexivity|]
  end.


Lemma send_expiry insertedAt agent target content replyToId error e w w' m from to :
  tryCatch (sendAt insertedAt agent target content replyToId) error e w
  = (w', created (DDm m from to)) ->
  In m (directMessages (db w'))
  /\ DirectMessage.createdAt m = Some insertedAt
  /\ DirectMessage.expiresAt m
     = match timerState (db w) (ra_id agent) target with
       | Some (Active t) => Some (now e + t * 1000)
       | _ => None
       end.
Proof.
  intros H. unfold sendAt in H. monad.
  destruct (Messages.blank content); cbn in H; [discriminate|].
  destruct (agentById (db w) target) as [ta|]; cbn in H; [|discriminate].
  destruct (Js.seq target (ra_id agent)); cbn in H; [discriminate|].
  destruct (isBlocked (db w) target (ra_id agent)); cbn in H; [discriminate|].
  unfold timerState.
  destruct (getOrCreate_cases (ra_id agent) target e w)
    as [(c & Hc & Hg)|(Hc & w1 & o & Hg & Ho)]; rewrite Hg in H; clear Hg; rewrite Hc.
  - reply_check H; stored H; apply expiry_stateOf.
  - destruct o as [c|r|]; [|contradiction|discriminate].
    destruct Ho as (_ & Ht & Hp & _).
    reply_check H; stored H; rewrite Ht; reflexivity.
Qed.

(** Handlers that write to [dm_conversations] only. *)
Lemma getOrCreate_frame (P : Store -> Prop) a b :
  (forall s l, P s -> P (set_dmConversations s l)) ->
  keeps P (getOrCreateConversation a b).
Proof.
  intros HP. unfold getOrCreateConversation.
  destruct (a <? b)%string; keeps_steps;
    apply keeps_write; intros st0 st1 Hst Hi; unfold insertConversation in Hi;
    (match type of Hi with (if ?c then _ else _) = _ => destruct c end;
     [discriminate|]); injection Hi as <-; apply HP; exact Hst.
Qed.

Lemma setDisappear_frame (P : Store -> Prop) agent target timer :
  (forall s l, P s -> P (set_dmConversations s l)) ->
  keeps P (setDisappear agent target timer).
Proof.
  intros HP. unfold setDisappear. keeps_steps;
    try (apply getOrCreate_frame; exact HP);
    apply keeps_write; intros st0 st1 Hst Hu;
    unfold Pg.integer, updateConversation in Hu;
    try (match type of Hu with (if ?c then _ else _) = _ => destruct c end;
         [|discriminate]);
    injection Hu as <-; apply HP; exact Hst.
Qed.

(** C5 (amended).  A DM that is sent carries an [expiresAt] exactly
    when the timer of its conversation is [Active t] at the time of the
    send, and then [expiresAt] is the instant the handler reads
    ([Date.now()]) plus [t] (in milliseconds, [t] in seconds), whereas
    [createdAt] is the instant the database reads when it inserts the
    row: [expiresAt = createdAt + t] holds when both read the same
    instant.  Setting the timer leaves the stored messages as they
    are. *)
Theorem expiry_follows_timer :
  (forall insertedAt agent target content replyToId error e w w' m from to,
      tryCatch (sendAt insertedAt agent target content replyToId) error e w
      = (w', created (DDm m from to)) ->
      In m (directMessages (db w'))
      /\ DirectMessage.createdAt m = Some insertedAt
      /\ DirectMessage.expiresAt m
         = match timerState (db w) (ra_id agent) target with
           | Some (Active t) => Some (now e + t * 1000)
           | _ => None
           end
      /\ (insertedAt = now e ->
          exists sent,
            DirectMessage.createdAt m = Some sent
            /\ DirectMessage.expiresAt m
               = match timerState (db w) (ra_id agent) target with
                 | Some (Active t) => Some (sent + t * 1000)
                 | _ => None
                 end))
  /\ (forall agent target timer error e w,
         directMessages (db (fst (tryCatch (setDisappear agent target timer) error e w)))
         = directMessages (db w)).
Proof.
  split.
  - intros insertedAt agent target content replyToId error e w w' m from to H.
    destruct (send_expiry _ _ _ _ _ _ _ _ _ _ _ _ H) as (Hin & Hc & Hx).
    split; [exact Hin|]. split; [exact Hc|]. split; [exact Hx|].
    intros ->. exists (now e). split; [exact Hc|exact Hx].
  - intros agent target timer error e w.
    apply (keeps_tryCatch (fun s => directMessages s = directMessages (db w)));
      [|reflexivity].
    apply setDisappear_frame. intros s l Hs. exact Hs.
Qed.

(** The timer of Ava and Bob is active with 3600 seconds; the message
    Ava sends at 100 ms, inserted at the same instant, expires at
    3600100 ms. *)
Lemma expiry_follows_timer_witness :
  timerState (db Sample.agreed) "a1" "b2" = Some (Active 3600)
  /\ In Sample.expiring
       (directMessages
          (db (fst (tryCatch (sendAt 100 (reqAgentOf Sample.ava) "b2" (Some " see you ")
                                None)
                      "Failed to send direct message" (Sample.at_ 100) Sample.agreed))))
  /\ DirectMessage.createdAt Sample.expiring = Some 100
  /\ DirectMessage.expiresAt Sample.expiring = Some (100 + 3600 * 1000).
Proof.
  split; [vm_compute; reflexivity|].
  destruct expiry_follows_timer as [Hsend _].
  assert (Hrun : tryCatch (sendAt 100 (reqAgentOf Sample.ava) "b2" (Some " see you ") None)
                   "Failed to send direct message" (Sample.at_ 100) Sample.agreed
                 = (fst (tryCatch (sendAt 100 (reqAgentOf Sample.ava) "b2"
                                     (Some " see you ") None)
                           "Failed to send direct message" (Sample.at_ 100) Sample.agreed),
                    created (DDm Sample.expiring (reqAgentOf Sample.ava)
                               (reqAgentOf Sample.bob))))
    by (vm_compute; reflexivity).
  destruct (Hsend _ _ _ _ _ _ _ _ _ _ _ _ Hrun) as (Hin & Hc & Hx & _).
  split; [exact Hin|]. split; reflexivity.
Defined.

(** C5 as stated fails when the two clocks differ: the handler reads
    100 ms, the database inserts the row at 107 ms; the message is
    created at 107 ms and expires at 3600100 ms, not at
    [createdAt + t]. *)
Lemma expiry_is_not_counted_from_createdAt :
  timerState (db Sample.agreed) "a1" "b2" = Some (Active 3600)
  /\ exists w' m,
       tryCatch (sendAt 107 (reqAgentOf Sample.ava) "b2" (Some " see you ") None)
         "Failed to send direct message" (Sample.at_ 100) Sample.agreed
       = (w', created (DDm m (reqAgentOf Sample.ava) (reqAgentOf Sample.bob)))
       /\ In m (directMessages (db w'))
       /\ DirectMessage.createdAt m = Some 107
       /\ DirectMessage.expiresAt m = Some 3600100
       /\ DirectMessage.expiresAt m <> Some (107 + 3600 * 1000).
Proof.
  split; [vm_compute; reflexivity|].
  do 2 eexists. split; [vm_compute; reflexivity|].
  split; [vm_compute; auto|]. split; [reflexivity|]. split; [reflexivity|].
  vm_compute. discriminate.
Qed.

End DmExpiry.

Lemma is_some_false {A} (o : option A) : is_some o = false -> o = None.
Proof. destruct o; [discriminate|reflexivity]. Qed.

(** ** Direct messages: blocking *)

Module DmBlock.
Import Dm DmSpec.


(** With both agents registered and an unused uuid, the conversation is
    found or created. *)
Lemma getOrCreate_succeeds a b e w :
  is_some (agentById (db w) a) = true ->
  is_some (agentById (db w) b) = true ->
  first (fun c => Js.seq (DmConversation.id c) (gen_random_uuid e (drawn w)))
        (dmConversations (db w)) = None ->
  exists w' c,
    getOrCreateConversation a b e w = (w', Next c)
    /\ agents (db w') = agents (db w)
    /\ directMessages (db w') = directMessages (db w)
    /\ (drawn w' = drawn w \/ drawn w' = S (drawn w)).
Proof.
  intros Ha Hb Hid.
  destruct (DmExpiry.getOrCreate_cases a b e w)
    as [(c & Hc & Hg)|(Hc & _)].
  - exists w, c. auto.
  - unfold conversation in Hc. unfold getOrCreateConversation.
    destruct (a <? b)%string; monad; rewrite Hc; cbn;
      unfold insertConversation; cbn; rewrite Hid, Ha, Hb, Hc; cbn;
      do 2 eexists; (split; [reflexivity|]); cbn; auto.
Qed.






End DmBlock.

(** ** Direct messages: clearing one side of a conversation *)

Module DmClear.
Import Dm DmSpec.

Lemma sides a b c d :
  a <> b ->
  (if (a <? b)%string
   then DmConversation.agent1ClearedAt (setCleared (a <? b)%string d c)
   else DmConversation.agent2ClearedAt (setCleared (a <? b)%string d c)) = Some d
  /\ (if (b <? a)%string
      then DmConversation.agent1ClearedAt (setCleared (a <? b)%string d c)
      else DmConversation.agent2ClearedAt (setCleared (a <? b)%string d c))
     = (if (b <? a)%string
        then DmConversation.agent1ClearedAt c
        else DmConversation.agent2ClearedAt c).
Proof.
  intros Hne. destruct (a <? b)%string eqn:E.
  - rewrite (DmOrder.ltb_asym a b E). simpl. auto.
  - rewrite (DmOrder.ltb_total a b Hne E). simpl. auto.
Qed.

(** The two sides of a conversation once the row found for [a] and
    [b] carries the time [d] on the side of [a]. *)
Lemma cleared_sides s a b c d :
  a <> b ->
  conversation s a b = Some c ->
  let s' :=
    set_dmConversations s
      (map (fun x => if Js.seq (DmConversation.id x) (DmConversation.id c)
                     then setCleared (a <? b)%string d x else x)
           (dmConversations s)) in
  clearedAt s' a b = Some d
  /\ clearedAt s' b a = clearedAt s b a
  /\ is_some (conversation s' a b) = true.
Proof.
  intros Hne Hc s'.
  assert (Hf : forall x, DmConversation.agent1Id (setCleared (a <? b)%string d x)
                         = DmConversation.agent1Id x
                         /\ DmConversation.agent2Id (setCleared (a <? b)%string d x)
                            = DmConversation.agent2Id x) by (intros x; split; reflexivity).
  pose proof (DmTimer.conversation_updated s a b c _ Hf Hc) as Hu. fold s' in Hu.
  destruct (sides a b c d Hne) as [Hmine Htheirs].
  unfold clearedAt.
  rewrite (DmTimer.conversation_sym s' b a), (DmTimer.conversation_sym s b a), Hu, Hc.
  simpl. auto.
Qed.

Lemma clear_effect agent target error e w w1 r :
  ra_id agent <> target ->
  tryCatch (clear agent target) error e w = (w1, r) -> status r = 200%nat ->
  directMessages (db w1) = directMessages (db w)
  /\ dmReactions (db w1) = dmReactions (db w)
  /\ clearedAt (db w1) (ra_id agent) target = Some (now e)
  /\ clearedAt (db w1) target (ra_id agent) = clearedAt (db w) target (ra_id agent)
  /\ is_some (conversation (db w1) (ra_id agent) target) = true.
Proof.
  intros Hne H Hr. unfold clear in H. unfold tryCatch, bind in H.
  destruct (DmExpiry.getOrCreate_cases (ra_id agent) target e w)
    as [(c & Hc & Hg)|(Hc & w0 & o & Hg & Ho)]; rewrite Hg in H; clear Hg.
  - monad. cbn in H. injection H as <- <-. cbn.
    split; [reflexivity|]. split; [reflexivity|].
    exact (cleared_sides (db w) _ _ c (now e) Hne Hc).
  - destruct o as [c|r0|]; [|contradiction|].
    + destruct Ho as (Hdb & _ & _ & H1 & H2 & Hc0).
      monad. cbn in H. injection H as <- <-. cbn.
      destruct (cleared_sides (db w0) _ _ c (now e) Hne Hc0) as (Ha & Hb & Hs).
      split; [rewrite Hdb; reflexivity|]. split; [rewrite Hdb; reflexivity|].
      split; [exact Ha|]. split; [|exact Hs].
      rewrite Hb. unfold clearedAt.
      rewrite (DmTimer.conversation_sym (db w0) target (ra_id agent)), Hc0.
      rewrite (DmTimer.conversation_sym (db w) target (ra_id agent)), Hc.
      destruct (target <? ra_id agent)%string; assumption.
    + injection H as <- <-. discriminate.
Qed.

Lemma enrich_frame s1 s2 rows :
  dmReactions s1 = dmReactions s2 -> directMessages s1 = directMessages s2 ->
  enrich s1 rows = enrich s2 rows.
Proof. unfold enrich. intros -> ->. reflexivity. Qed.

(** What the thread route answers. *)
Lemma thread_answer agent target limit error e w w' d :
  tryCatch (thread agent target limit) error e w = (w', json d) ->
  exists l, d = DThread l
            /\ listing (db w) (ra_id agent) target limit (now e) = Some l.
Proof.
  intros H. unfold thread in H. unfold tryCatch, bind in H. unfold listing, clearedAt.
  destruct (DmExpiry.getOrCreate_cases (ra_id agent) target e w)
    as [(c & Hc & Hg)|(Hc & w0 & o & Hg & Ho)]; rewrite Hg in H; clear Hg; rewrite Hc.
  - monad. cbn in H.
    destruct (Query.limit _ _) as [rows|]; cbn in H; [|discriminate].
    injection H as <- <-. eexists. split; reflexivity.
  - destruct o as [c|r0|]; [|contradiction|discriminate].
    destruct Ho as (Hdb & _ & _ & H1 & H2 & _).
    monad. cbn in H. rewrite Hdb in H. cbn in H.
    destruct (Query.limit _ _) as [rows|]; cbn in H; [|discriminate].
    injection H as <- <-. eexists. split; [reflexivity|].
    rewrite H1, H2. cbn.
    rewrite (enrich_frame (db w0) (db w)) by (rewrite Hdb; reflexivity).
    destruct (ra_id agent <? target)%string; reflexivity.
Qed.

Lemma thread_lists agent target limit error e w l :
  is_some (conversation (db w) (ra_id agent) target) = true ->
  listing (db w) (ra_id agent) target limit (now e) = Some l ->
  snd (tryCatch (thread agent target limit) error e w) = json (DThread l).
Proof.
  intros Hs Hl. unfold thread. unfold tryCatch, bind. unfold listing, clearedAt in Hl.
  destruct (conversation (db w) (ra_id agent) target) as [c|] eqn:Hc; [|discriminate].
  rewrite (DmTimer.getOrCreate_existing _ _ _ e w Hc). monad. cbn.
  destruct (Query.limit _ _) as [rows|]; cbn in *; [|discriminate].
  injection Hl as <-. reflexivity.
Qed.

Lemma in_insertDesc {A} (key : A -> option Timestamp) x y l :
  In x (Query.insertDesc key y l) -> x = y \/ In x l.
Proof.
  induction l as [|z r IH]; simpl; [intros [<-|[]]; auto|].
  destruct (Query.before (key z) (key y)); simpl.
  - intros [<-|H]; [auto|]. destruct (IH H); auto.
  - intros [<-|[<-|H]]; auto.
Qed.

Lemma in_orderByDesc {A} (key : A -> option Timestamp) x l :
  In x (Query.orderByDesc key l) -> In x l.
Proof.
  induction l as [|y r IH]; simpl; [auto|].
  intros H. destruct (in_insertDesc key x y _ H); auto.
Qed.

Lemma in_limit {A} n (l rows : list A) x :
  Query.limit n l = Some rows -> In x rows -> In x l.
Proof.
  unfold Query.limit. destruct (n <? 0); [discriminate|].
  intros H. injection H as <-. revert l. induction (Z.to_nat n) as [|k IH]; simpl.
  - contradiction.
  - intros [|y r]; simpl; [contradiction|]. intros [<-|H]; auto.
Qed.

Lemma in_enrich s rows x : In x (enrich s rows) -> In (ed_message x) rows.
Proof.
  unfold enrich. intros H. apply in_map_iff in H as (m & <- & Hin). exact Hin.
Qed.

(** Every message listed is a message of the thread that the filter
    lets through. *)
Lemma listing_in s me other limit now l x :
  listing s me other limit now = Some l -> In x l ->
  In (ed_message x) (directMessages s)
  /\ between me other (ed_message x) = true
  /\ visible (clearedAt s me other) now (ed_message x) = true.
Proof.
  unfold listing. destruct (Query.limit _ _) as [rows|] eqn:E; [|discriminate].
  simpl. intros H Hin. injection H as <-.
  apply in_rev, in_enrich, filter_In in Hin as [Hin Hv].
  apply (in_limit _ _ _ _ E), in_orderByDesc, filter_In in Hin as [Hin Hb]. auto.
Qed.

Lemma listing_frame s1 s2 me other limit now :
  directMessages s1 = directMessages s2 ->
  dmReactions s1 = dmReactions s2 ->
  clearedAt s1 me other = clearedAt s2 me other ->
  listing s1 me other limit now = listing s2 me other limit now.
Proof.
  unfold listing. intros Hd Hr ->. rewrite Hd.
  destruct (Query.limit _ _) as [rows|]; [|reflexivity]. simpl.
  rewrite (enrich_frame s1 s2); auto.
Qed.

Lemma visible_after d now m t :
  visible (Some d) now m = true -> DirectMessage.createdAt m = Some t -> d <= t.
Proof.
  unfold visible. intros H Hc. rewrite Hc in H.
  destruct (t <? d) eqn:E; [discriminate|]. apply Z.ltb_ge. exact E.
Qed.

(** With the other agent named by the id the database prints, a
    successful clear by [a] writes the time of the request on the side
    of [a] only: the stored messages and the other side's [clearedAt]
    stay as they were; the thread [a] lists afterwards under that same
    id contains no message created before that time, and none at all
    when every message of the thread is older; the thread the other
    agent lists is the one listed before. *)
Lemma clear_at_one_spelling :
  forall a target error e w w1 r,
    ra_id a <> target ->
    tryCatch (clear a target) error e w = (w1, r) ->
    status r = 200%nat ->
    directMessages (db w1) = directMessages (db w)
    /\ clearedAt (db w1) (ra_id a) target = Some (now e)
    /\ clearedAt (db w1) target (ra_id a) = clearedAt (db w) target (ra_id a)
    /\ (forall limit error' e' w2 l,
           tryCatch (thread a target limit) error' e' w1 = (w2, json (DThread l)) ->
           (forall x t, In x l -> DirectMessage.createdAt (ed_message x) = Some t ->
                        now e <= t)
           /\ ((forall m, In m (directMessages (db w)) ->
                          between (ra_id a) target m = true ->
                          exists t, DirectMessage.createdAt m = Some t /\ t < now e) ->
               l = []))
    /\ (forall b limit error' e' d,
           ra_id b = target ->
           snd (tryCatch (thread b (ra_id a) limit) error' e' w) = json d ->
           snd (tryCatch (thread b (ra_id a) limit) error' e' w1) = json d).
Proof.
  intros a target error e w w1 r Hne Hclear Hr.
  destruct (clear_effect a target error e w w1 r Hne Hclear Hr)
    as (Hdm & Hre & Hmine & Htheirs & Hrow).
  split; [exact Hdm|]. split; [exact Hmine|]. split; [exact Htheirs|]. split.
  - intros limit error' e' w2 l Hthread.
    destruct (thread_answer _ _ _ _ _ _ _ _ Hthread) as (l' & Hd & Hl).
    injection Hd as <-. split.
    + intros x t Hin Hc. destruct (listing_in _ _ _ _ _ _ x Hl Hin) as (_ & _ & Hv).
      rewrite Hmine in Hv. exact (visible_after _ _ _ _ Hv Hc).
    + intros Hold. destruct l as [|x l]; [reflexivity|]. exfalso.
      destruct (listing_in _ _ _ _ _ _ x Hl (or_introl eq_refl)) as (Hin & Hb & Hv).
      rewrite Hdm in Hin. destruct (Hold _ Hin Hb) as (t & Hc & Hlt).
      rewrite Hmine in Hv. pose proof (visible_after _ _ _ _ Hv Hc). lia.
  - intros b limit error' e' d Hb Hbefore. subst target.
    destruct (tryCatch (thread b (ra_id a) limit) error' e' w) as [w' r'] eqn:E.
    simpl in Hbefore. subst r'.
    destruct (thread_answer _ _ _ _ _ _ _ _ E) as (l & -> & Hl).
    apply thread_lists.
    + rewrite DmTimer.conversation_sym. exact Hrow.
    + rewrite <- Hl. apply listing_frame; assumption.
Qed.

End DmClear.

(** ** Direct messages: the text of an id and the id

    At the spelling the database prints, the routes on the text of the
    request are the routes on ids. *)

Module DmWireFacts.
Import Dm DmSpec.

Lemma thread_agrees agent T limit e w :
  Pg.uuid (ra_id agent) = Some (ra_id agent) -> Pg.uuid T = Some T ->
  DmWire.thread agent T limit e w = thread agent T limit e w.
Proof.
  intros Ha HT. unfold DmWire.thread, thread, DmWire.getOrCreateConversation,
    getOrCreateConversation, Pg.param.
  cbv zeta. destruct (ra_id agent <? T)%string; cbv beta iota;
    rewrite !Ha, !HT; reflexivity.
Qed.

Lemma clear_agrees agent T e w :
  Pg.uuid (ra_id agent) = Some (ra_id agent) -> Pg.uuid T = Some T ->
  DmWire.clear agent T e w = clear agent T e w.
Proof.
  intros Ha HT. unfold DmWire.clear, clear, DmWire.getOrCreateConversation,
    getOrCreateConversation, Pg.param.
  cbv zeta. destruct (ra_id agent <? T)%string; cbv beta iota;
    rewrite !Ha, !HT; reflexivity.
Qed.

Lemma block_agrees agent T e w :
  Pg.uuid (ra_id agent) = Some (ra_id agent) -> Pg.uuid T = Some T ->
  DmWire.block agent T e w = block agent T e w.
Proof.
  intros Ha HT. unfold DmWire.block, block, Pg.param.
  cbv zeta. rewrite !Ha, !HT. monad. destruct (Js.seq T (ra_id agent)); [reflexivity|].
  destruct (agentById (db w) T); reflexivity.
Qed.

Lemma unblock_agrees agent T e w :
  Pg.uuid (ra_id agent) = Some (ra_id agent) -> Pg.uuid T = Some T ->
  DmWire.unblock agent T e w = unblock agent T e w.
Proof.
  intros Ha HT. unfold DmWire.unblock, unblock, Pg.param.
  cbv zeta. rewrite Ha, HT. reflexivity.
Qed.

Lemma getSettings_agrees agent T e w :
  Pg.uuid (ra_id agent) = Some (ra_id agent) -> Pg.uuid T = Some T ->
  DmWire.getSettings agent T e w = getSettings agent T e w.
Proof.
  intros Ha HT. unfold DmWire.getSettings, getSettings, DmWire.getOrCreateConversation,
    getOrCreateConversation, Pg.param.
  cbv zeta. destruct (ra_id agent <? T)%string; cbv beta iota;
    rewrite !Ha, !HT; reflexivity.
Qed.

Lemma setDisappear_agrees agent T timer e w :
  Pg.uuid (ra_id agent) = Some (ra_id agent) -> Pg.uuid T = Some T ->
  DmWire.setDisappear agent T timer e w = setDisappear agent T timer e w.
Proof.
  intros Ha HT. unfold DmWire.setDisappear, setDisappear, DmWire.getOrCreateConversation,
    getOrCreateConversation, Pg.param.
  cbv zeta. destruct (ra_id agent <? T)%string; cbv beta iota;
    rewrite !Ha, !HT; reflexivity.
Qed.

Lemma sendAt_agrees insertedAt agent T content replyToId e w :
  Pg.uuid (ra_id agent) = Some (ra_id agent) -> Pg.uuid T = Some T ->
  (forall i, replyToId = Some i -> Js.truthy replyToId = true -> Pg.uuid i = Some i) ->
  DmWire.sendAt insertedAt agent T content replyToId e w
  = sendAt insertedAt agent T content replyToId e w.
Proof.
  intros Ha HT Hr.
  assert (Hg : forall e w, DmWire.getOrCreateConversation (ra_id agent) T e w
                           = getOrCreateConversation (ra_id agent) T e w).
  { intros e0 w0. unfold DmWire.getOrCreateConversation, getOrCreateConversation, Pg.param.
    destruct (ra_id agent <? T)%string; rewrite Ha, HT; reflexivity. }
  unfold DmWire.sendAt, sendAt, Pg.param. cbv zeta. rewrite Ha, HT.
  unfold when, bind, ret, reply, select, newDate.
  destruct (Messages.blank content); [reflexivity|].
  destruct (agentById (db w) T); [|reflexivity].
  destruct (Js.seq T (ra_id agent)); [reflexivity|].
  destruct (isBlocked (db w) T (ra_id agent)); [reflexivity|].
  rewrite Hg. destruct (getOrCreateConversation (ra_id agent) T e w) as [w1 [c|r|]];
    [|reflexivity|reflexivity].
  destruct (Js.truthy replyToId) eqn:Et; [|reflexivity].
  destruct replyToId as [i|]; [|discriminate].
  rewrite (Hr i eq_refl eq_refl).
  destruct (dmById (db w1) i); [|reflexivity].
  match goal with
  | |- context [if negb ?c then _ else _] => destruct c
  end; reflexivity.
Qed.

(** Asked with a text that sorts below the requester's id and that
    the database reads as the id [b], the lookup looks for the row kept
    as ([b], requester) and, finding none, stores it. *)
Lemma getOrCreate_other_spelling a T b e w :
  Pg.uuid a = Some a -> Pg.uuid T = Some b ->
  (a <? T)%string = false ->
  is_some (agentById (db w) a) = true ->
  is_some (agentById (db w) b) = true ->
  first (isPair b a) (dmConversations (db w)) = None ->
  first (fun c => Js.seq (DmConversation.id c) (gen_random_uuid e (drawn w)))
        (dmConversations (db w)) = None ->
  let c := DmConversation.mk (gen_random_uuid e (drawn w)) b a
             None None false None None None None (Some (now e)) in
  DmWire.getOrCreateConversation a T e w
  = (mkWorld (set_dmConversations (db w) (dmConversations (db w) ++ [c]))
       (S (drawn w)) (trace w ++ [Inserted TdmConversations]),
     Next c).
Proof.
  intros Ha HT HaT Hsa Hsb Hrow Hid c.
  unfold DmWire.getOrCreateConversation, Pg.param. rewrite HaT, HT, Ha.
  monad. cbn. rewrite Hrow. cbn.
  unfold insertConversation. cbn. rewrite Hid, Hsa, Hsb, Hrow. reflexivity.
Qed.

End DmWireFacts.

(** ** Direct messages: the two ids of a conversation row *)

Module DmSelf.
Import Dm DmSpec.

(** A row of the conversation of [a] with itself. *)
Definition selfRow (a : Id) (s : Store) : Prop :=
  exists c, In c (dmConversations s)
            /\ DmConversation.agent1Id c = a /\ DmConversation.agent2Id c = a.

Lemma selfRow_updated a id f s :
  (forall x, DmConversation.agent1Id (f x) = DmConversation.agent1Id x
             /\ DmConversation.agent2Id (f x) = DmConversation.agent2Id x) ->
  selfRow a s ->
  selfRow a (set_dmConversations s
               (map (fun c => if Js.seq (DmConversation.id c) id then f c else c)
                    (dmConversations s))).
Proof.
  intros Hf (c & Hin & H1 & H2).
  exists (if Js.seq (DmConversation.id c) id then f c else c). split.
  - cbn. apply in_map_iff. exists c. auto.
  - destruct (Js.seq (DmConversation.id c) id); [|auto].
    destruct (Hf c) as [-> ->]. auto.
Qed.

(** What follows the lookup of the conversation, in the four routes,
    keeps the row. *)
Ltac kept :=
  keeps_steps;
  apply keeps_write; intros st0 st1 Hst Hf;
  unfold markRead, Pg.integer, updateConversation in Hf;
  try (match type of Hf with (if ?c then _ else _) = _ => destruct c end;
       [|discriminate]);
  injection Hf as <-;
  first [ exact Hst
        | apply selfRow_updated; [intros x; split; reflexivity|exact Hst] ].

(** The conversation of a registered agent with itself is created by
    the lookup. *)
Lemma created_with_oneself a e w :
  is_some (agentById (db w) a) = true ->
  conversation (db w) a a = None ->
  first (fun c => Js.seq (DmConversation.id c) (gen_random_uuid e (drawn w)))
        (dmConversations (db w)) = None ->
  exists w1 c, getOrCreateConversation a a e w = (w1, Next c) /\ selfRow a (db w1).
Proof.
  intros Ha Hc Hid.
  destruct (DmBlock.getOrCreate_succeeds a a e w Ha Ha Hid) as (w1 & c & Hg & _).
  exists w1, c. split; [exact Hg|].
  destruct (DmExpiry.getOrCreate_cases a a e w)
    as [(c0 & Hc0 & _)|(_ & w2 & o & Hg2 & Ho)]; [congruence|].
  rewrite Hg in Hg2. injection Hg2 as <- <-.
  destruct Ho as (_ & _ & _ & _ & _ & Hrow).
  unfold conversation in Hrow.
  assert (Hf : first (isPair a a) (dmConversations (db w1)) = Some c)
    by (destruct (a <? a)%string; exact Hrow).
  apply first_some in Hf as [Hin Hp]. unfold isPair in Hp.
  apply andb_true_iff in Hp as [H1 H2]. apply seq_true in H1, H2.
  exists c. auto.
Qed.

(** C4 (what the code does).  The rows are not kept with the smaller
    id first.  The routes of the thread, of the settings, of the
    clearing and of the timer look the conversation up, and create it,
    before any check of the target: addressed to the own id of a
    registered requester who has no such row yet, each of them stores a
    row whose two participants are that id, whatever it answers, while
    the send route refuses that target with 400 and stores nothing.
    And the pair is ordered by comparing the texts of the request: asked
    with a spelling [T] of the id [b] of another agent that sorts below
    the requester's id, which itself is below [b], the thread route
    stores the row of [b] before the requester, its ids in reversed
    order. *)
Theorem conversation_rows_are_not_ordered :
  (forall (agent : ReqAgent) (r : Request) (error : string) (e : Env) (w : World),
      target r = Some (ra_id agent) ->
      is_some (agentById (db w) (ra_id agent)) = true ->
      conversation (db w) (ra_id agent) (ra_id agent) = None ->
      first (fun c => Js.seq (DmConversation.id c) (gen_random_uuid e (drawn w)))
            (dmConversations (db w)) = None ->
      (exists c,
          In c (dmConversations (db (fst (tryCatch (route agent r) error e w))))
          /\ DmConversation.agent1Id c = ra_id agent
          /\ DmConversation.agent2Id c = ra_id agent
          /\ strictlyOrdered c = false)
      /\ (forall insertedAt content replyToId,
            exists answer,
              tryCatch (sendAt insertedAt agent (ra_id agent) content replyToId) error e w
              = (w, answer)
              /\ status answer = 400%nat))
  /\ (forall (agent : ReqAgent) (T : string) (b : Id) (limit : option Z) (error : string)
             (e : Env) (w : World),
         Pg.uuid (ra_id agent) = Some (ra_id agent) ->
         Pg.uuid T = Some b ->
         (ra_id agent <? b)%string = true ->
         (ra_id agent <? T)%string = false ->
         is_some (agentById (db w) (ra_id agent)) = true ->
         is_some (agentById (db w) b) = true ->
         first (isPair b (ra_id agent)) (dmConversations (db w)) = None ->
         first (fun c => Js.seq (DmConversation.id c) (gen_random_uuid e (drawn w)))
               (dmConversations (db w)) = None ->
         exists c,
           In c (dmConversations
                   (db (fst (tryCatch (DmWire.thread agent T limit) error e w))))
           /\ DmConversation.agent1Id c = b
           /\ DmConversation.agent2Id c = ra_id agent
           /\ strictlyOrdered c = false).
Proof.
  split.
  - intros agent r error e w Ht Ha Hc Hid. split.
    + destruct (created_with_oneself (ra_id agent) e w Ha Hc Hid)
        as (w1 & c & Hg & Hrow).
      assert (Hend : selfRow (ra_id agent)
                       (db (fst (tryCatch (route agent r) error e w)))).
      { destruct r as [t limit|t content replyToId|t|t|m type|m emoji|t|t|t timer];
          cbn in Ht; try discriminate; injection Ht as ->; cbn [route].
        - unfold thread. unfold tryCatch at 1. unfold bind at 1. rewrite Hg.
          match goal with
          | |- selfRow _ (db (fst (let (w', o) := ?h e w1 in _))) =>
              change (selfRow (ra_id agent) (db (fst (tryCatch h error e w1))))
          end.
          apply keeps_tryCatch; [|exact Hrow]. kept.
        - unfold clear. unfold tryCatch at 1. unfold bind at 1. rewrite Hg.
          match goal with
          | |- selfRow _ (db (fst (let (w', o) := ?h e w1 in _))) =>
              change (selfRow (ra_id agent) (db (fst (tryCatch h error e w1))))
          end.
          apply keeps_tryCatch; [|exact Hrow]. kept.
        - unfold getSettings. unfold tryCatch at 1. unfold bind at 1. rewrite Hg.
          match goal with
          | |- selfRow _ (db (fst (let (w', o) := ?h e w1 in _))) =>
              change (selfRow (ra_id agent) (db (fst (tryCatch h error e w1))))
          end.
          apply keeps_tryCatch; [|exact Hrow]. keeps_steps.
        - unfold setDisappear. unfold tryCatch at 1. unfold bind at 1. rewrite Hg.
          match goal with
          | |- selfRow _ (db (fst (let (w', o) := ?h e w1 in _))) =>
              change (selfRow (ra_id agent) (db (fst (tryCatch h error e w1))))
          end.
          apply keeps_tryCatch; [|exact Hrow]. kept. }
      destruct Hend as (c' & Hin & H1 & H2). exists c'. repeat split; auto.
      unfold strictlyOrdered. rewrite H1, H2. apply DmOrder.ltb_irrefl.
    + intros insertedAt content replyToId. unfold sendAt. monad.
      destruct (Messages.blank content); cbn; [eexists; split; reflexivity|].
      destruct (agentById (db w) (ra_id agent)); [|discriminate]. cbn.
      rewrite seq_refl. cbn. eexists; split; reflexivity.
  - intros agent T b limit error e w Ha HT Hab HaT Hsa Hsb Hrow Hid.
    pose proof (DmWireFacts.getOrCreate_other_spelling _ _ _ e w Ha HT HaT Hsa Hsb
                  Hrow Hid) as Hg.
    cbv zeta in Hg.
    unfold DmWire.thread. cbv zeta. unfold tryCatch, bind. rewrite Hg.
    rewrite HaT. unfold Pg.param. rewrite Ha, HT. monad. cbn.
    destruct (Query.limit _ _) as [rows|]; cbn.
    all: eexists; (split; [apply in_or_app; right; left; reflexivity|]).
    all: cbn; repeat split; unfold strictlyOrdered; cbn;
      apply DmOrder.ltb_asym; exact Hab.
Qed.

(** Ava asks for the thread with herself: the answer is 200 and the row
    of Ava with Ava is stored.  Ann asks for the thread with Ben under
    his id in upper case: the row of Ben before Ann is stored. *)
Lemma conversation_rows_are_not_ordered_witness :
  (dmConversations (db Sample.start) = []
   /\ status (snd (tryCatch (route (reqAgentOf Sample.ava) (Thread "a1" None))
                     "Failed to get direct messages" (Sample.at_ 10) Sample.start))
      = 200%nat
   /\ exists c,
        In c (dmConversations
                (db (fst (tryCatch (route (reqAgentOf Sample.ava) (Thread "a1" None))
                            "Failed to get direct messages" (Sample.at_ 10)
                            Sample.start))))
        /\ DmConversation.agent1Id c = "a1"
        /\ DmConversation.agent2Id c = "a1"
        /\ strictlyOrdered c = false)
  /\ (status (snd (tryCatch (DmWire.thread (reqAgentOf SampleWire.ann) SampleWire.BEN None)
                     "Failed to get direct messages" (SampleWire.at_ 50)
                     SampleWire.three))
      = 200%nat
      /\ exists c,
           In c (dmConversations
                   (db (fst (tryCatch
                               (DmWire.thread (reqAgentOf SampleWire.ann) SampleWire.BEN
                                  None)
                               "Failed to get direct messages" (SampleWire.at_ 50)
                               SampleWire.three))))
           /\ DmConversation.agent1Id c = Agent.id SampleWire.ben
           /\ DmConversation.agent2Id c = Agent.id SampleWire.ann
           /\ strictlyOrdered c = false).
Proof.
  split.
  - split; [reflexivity|]. split; [vm_compute; reflexivity|].
    exact (proj1 (proj1 conversation_rows_are_not_ordered (reqAgentOf Sample.ava)
                    (Thread "a1" None) "Failed to get direct messages" (Sample.at_ 10)
                    Sample.start eq_refl eq_refl eq_refl eq_refl)).
  - split; [vm_compute; reflexivity|].
    exact (proj2 conversation_rows_are_not_ordered (reqAgentOf SampleWire.ann)
             SampleWire.BEN (Agent.id SampleWire.ben) None
             "Failed to get direct messages" (SampleWire.at_ 50) SampleWire.three
             eq_refl eq_refl eq_refl eq_refl eq_refl eq_refl eq_refl eq_refl).
Defined.

End DmSelf.

(** ** Direct messages: a cleared conversation under another spelling *)

Module DmSpelling.
Import Dm DmSpec.

(** C9 (what the code does).  The side of a conversation is chosen by
    comparing the texts of the two ids, the row by the uuids the
    database reads from them; the row is meant to be kept with the
    smaller id first.  Let [T] be a spelling of the id [b] of another
    agent, such as [b] in upper case, that sorts below the id of the
    requester although the id of the requester is below [b], the row
    of [b] before the requester not being stored yet.  Asked with [T],
    the thread route stores that second row for the pair, its ids in
    reversed order, and reads the requester's [clearedAt] from it: it
    lists every message between the two that has not expired, among
    the [limit] newest, whatever the requester cleared before. *)
Theorem clear_is_lost_under_another_spelling :
  forall (agent : ReqAgent) (T : string) (b : Id) (limit : option Z) (error : string)
         (e : Env) (w : World),
    Pg.uuid (ra_id agent) = Some (ra_id agent) ->
    Pg.uuid T = Some b ->
    (ra_id agent <? b)%string = true ->
    (ra_id agent <? T)%string = false ->
    is_some (agentById (db w) (ra_id agent)) = true ->
    is_some (agentById (db w) b) = true ->
    first (isPair b (ra_id agent)) (dmConversations (db w)) = None ->
    first (fun c => Js.seq (DmConversation.id c) (gen_random_uuid e (drawn w)))
          (dmConversations (db w)) = None ->
    (exists c,
        In c (dmConversations (db (fst (tryCatch (DmWire.thread agent T limit) error e w))))
        /\ DmConversation.agent1Id c = b
        /\ DmConversation.agent2Id c = ra_id agent
        /\ strictlyOrdered c = false)
    /\ snd (tryCatch (DmWire.thread agent T limit) error e w)
       = match Query.limit (match limit with Some n => n | None => 50 end)
                 (Query.orderByDesc DirectMessage.createdAt
                    (filter (between (ra_id agent) b) (directMessages (db w)))) with
         | Some rows =>
             json (DThread (rev (enrich (db w) (filter (visible None (now e)) rows))))
         | None => fail 500 error
         end.
Proof.
  intros agent T b limit error e w Ha HT Hab HaT Hsa Hsb Hrow Hid.
  pose proof (DmWireFacts.getOrCreate_other_spelling _ _ _ e w Ha HT HaT Hsa Hsb Hrow Hid)
    as Hg. cbv zeta in Hg.
  unfold DmWire.thread. cbv zeta. unfold tryCatch, bind. rewrite Hg.
  rewrite HaT. unfold Pg.param. rewrite Ha, HT. monad. cbn.
  destruct (Query.limit _ _) as [rows|]; cbn.
  - split; [|reflexivity].
    eexists. split; [apply in_or_app; right; left; reflexivity|].
    cbn. repeat split. unfold strictlyOrdered. cbn. apply DmOrder.ltb_asym. exact Hab.
  - split; [|reflexivity].
    eexists. split; [apply in_or_app; right; left; reflexivity|].
    cbn. repeat split. unfold strictlyOrdered. cbn. apply DmOrder.ltb_asym. exact Hab.
Qed.

(** Ann and Ben have exchanged three messages and Ann has cleared the
    conversation, naming Ben by his id in lower case.  Her thread under
    that id is empty; her thread under the same id in upper case has
    the three messages again. *)
Lemma clear_is_lost_under_another_spelling_witness :
  (exists d, clearedAt (db SampleWire.cleared) (Agent.id SampleWire.ann) (Agent.id SampleWire.ben) = Some d
        /\ forall m, In m (directMessages (db SampleWire.cleared)) ->
              exists t, DirectMessage.createdAt m = Some t /\ t < d)
  /\ snd (tryCatch (DmWire.thread (reqAgentOf SampleWire.ann) (Agent.id SampleWire.ben) None)
            "Failed to get direct messages" (SampleWire.at_ 50) SampleWire.cleared)
     = json (DThread [])
  /\ exists l,
       snd (tryCatch (DmWire.thread (reqAgentOf SampleWire.ann) SampleWire.BEN None)
              "Failed to get direct messages" (SampleWire.at_ 50) SampleWire.cleared)
       = json (DThread l)
       /\ map (fun x => DirectMessage.content (ed_message x)) l = ["one"; "two"; "three"].
Proof.
  split.
  - exists 40. split; [vm_compute; reflexivity|].
    intros m Hin. vm_compute in Hin.
    destruct Hin as [<-|[<-|[<-|[]]]]; eexists; (split; [reflexivity|]); reflexivity.
  - split; [vm_compute; reflexivity|].
    eexists. split.
    + rewrite (proj2 (clear_is_lost_under_another_spelling (reqAgentOf SampleWire.ann)
                 SampleWire.BEN (Agent.id SampleWire.ben) None
                 "Failed to get direct messages" (SampleWire.at_ 50) SampleWire.cleared
                 eq_refl eq_refl eq_refl eq_refl eq_refl eq_refl eq_refl eq_refl)).
      vm_compute. reflexivity.
    + vm_compute. reflexivity.
Defined.

End DmSpelling.

(** ** Reactions: the order of the deletion and the emission *)

Module ReactionOrder.

(** C10 (what the code does).  Removing a reaction from a DM that
    exists emits [dm:reaction:removed] to the other participant first and
    deletes the row of [dm_reactions] afterwards. *)
Theorem dm_unreact_emits_before_deleting :
  forall agent messageId emoji error e w,
    trace (fst (tryCatch (Dm.unreact agent messageId emoji) error e w))
    = trace w
      ++ match Dm.dmById (db w) messageId with
         | Some message =>
             [ Emitted
                 (AgentRoom (if Js.seq (DirectMessage.fromAgentId message) (ra_id agent)
                             then DirectMessage.toAgentId message
                             else DirectMessage.fromAgentId message))
                 "dm:reaction:removed" (PReaction messageId emoji agent);
               Deleted TdmReactions ]
         | None => [ Deleted TdmReactions ]
         end.
Proof.
  intros agent messageId emoji error e w. unfold Dm.unreact. monad.
  destruct (Dm.dmById (db w) messageId); cbn.
  - rewrite <- app_assoc. reflexivity.
  - reflexivity.
Qed.

(** The route of group messages deletes first and emits afterwards. *)
Lemma group_unreact_deletes_before_emitting :
  forall agent groupId messageId emoji error e w,
    Permissions.isMember (db w) groupId (ra_id agent) = true ->
    trace (fst (tryCatch (Messages.unreact agent groupId messageId emoji) error e w))
    = trace w
      ++ [ Deleted TmessageReactions;
           Emitted (GroupRoom groupId) "message:reaction:removed"
             (PReaction messageId emoji agent) ].
Proof.
  intros agent groupId messageId emoji error e w Hm. unfold Messages.unreact. monad.
  rewrite Hm. cbn. rewrite <- app_assoc. reflexivity.
Qed.

End ReactionOrder.

(** ** Claiming an agent *)

Module AuthFacts.
Import Auth AuthSpec.

Lemma first_all_false {A} (p : A -> bool) (l : list A) :
  (forall x, In x l -> p x = false) -> first p l = None.
Proof.
  unfold first. induction l as [|x r IH]; simpl; [reflexivity|].
  intros H. rewrite (H x (or_introl eq_refl)). apply IH. intros y Hy. apply H. auto.
Qed.

(** Once claimed, the agent is no longer found by its claim token. *)
Lemma token_gone s token agent claimedBy twitterUserId d :
  claimTokensUnique s ->
  byClaimToken s token = Some agent ->
  first (fun a => Js.seq_opt (Agent.claimToken a) (Some token))
        (map (fun a => if Js.seq (Agent.id a) (Agent.id agent)
                       then setClaimed claimedBy twitterUserId d a else a)
             (agents s))
  = None.
Proof.
  intros Hu Hf. apply first_some in Hf as [Hin Ht].
  apply first_all_false. intros x Hx. apply in_map_iff in Hx as (a & <- & Ha).
  destruct (Js.seq (Agent.id a) (Agent.id agent)) eqn:E; [reflexivity|].
  destruct (Js.seq_opt (Agent.claimToken a) (Some token)) eqn:Et; [|reflexivity].
  exfalso. unfold Js.seq_opt in Ht, Et.
  destruct (Agent.claimToken a) as [ta|] eqn:Ea; [|discriminate].
  destruct (Agent.claimToken agent) as [tb|] eqn:Eb; [|discriminate].
  apply String.eqb_eq in Ht, Et. subst ta tb.
  rewrite (Hu a agent token Ha Hin Ea Eb), seq_refl in E. discriminate.
Qed.

(** C6 (what the code does).  A successful verification sets
    [claimed], nulls [claimToken] and [verificationCode]; as the route
    looks the agent up by claim token, verifying again with the same
    token is answered 404 [Invalid claim token], and the branch that
    answers [Agent already claimed] is not reached. *)
Theorem reverify_answers_not_found :
  forall cfg token handle handle' error e e' w w1 d,
    claimTokensUnique (db w) ->
    tryCatch (verify cfg token handle) error e w = (w1, json d) ->
    Js.truthy handle' = true ->
    (exists a, In a (agents (db w1)) /\ Agent.claimed a = true
               /\ Agent.claimToken a = None /\ Agent.verificationCode a = None)
    /\ snd (tryCatch (verify cfg token handle') error e' w1)
       = fail 404 "Invalid claim token".
Proof.
  intros cfg token handle handle' error e e' w w1 d Hu H Hh.
  unfold verify in H. monad.
  destruct (negb (Js.truthy handle)); cbn in H; [discriminate|].
  destruct (byClaimToken (db w) token) as [agent|] eqn:Ea; cbn in H; [|discriminate].
  destruct (Agent.claimed agent); cbn in H; [discriminate|].
  assert (Hw1 : exists cb tu, agents (db w1)
                = map (fun a => if Js.seq (Agent.id a) (Agent.id agent)
                                then setClaimed cb tu (now e) a else a)
                      (agents (db w))).
  { destruct (negb (Js.truthy (TWITTER_BEARER_TOKEN cfg))); cbn in H;
      [|destruct (searchRecent cfg _ _) as [| |n]; cbn in H; try discriminate;
        destruct (n =? 0)%nat; cbn in H; [discriminate|]].
    all: unfold awardVerified in H.
    all: match type of H with
         | context [if ?c then _ else _] => destruct c
         end; cbn in H; injection H as <- _; cbn; do 2 eexists; reflexivity. }
  destruct Hw1 as (cb & tu & Hag). split.
  - apply first_some in Ea as [Hin _].
    exists (setClaimed cb tu (now e) agent). split; [|repeat split; reflexivity].
    rewrite Hag. apply in_map_iff. exists agent. split; [|exact Hin].
    rewrite seq_refl. reflexivity.
  - unfold verify. monad. rewrite Hh. cbn. unfold byClaimToken. rewrite Hag.
    rewrite (token_gone _ _ _ cb tu (now e) Hu Ea). reflexivity.
Qed.

Lemma sample_tokens_unique : claimTokensUnique (db Sample.start).
Proof.
  intros a b t Ha Hb Hta Htb. simpl in Ha, Hb.
  destruct Ha as [<-|[<-|[]]]; destruct Hb as [<-|[<-|[]]];
    simpl in Hta, Htb; congruence.
Defined.

(** Scenario 1 of the specification, without Twitter token: Ava is
    claimed, and the second verification is answered 404. *)
Lemma reverify_answers_not_found_witness :
  status (snd (postVerify Sample.devMode "tokA" (Some "@ava_owner") (Sample.at_ 10)
                 Sample.start)) = 200%nat
  /\ snd (postVerify Sample.devMode "tokA" (Some "@ava_owner") (Sample.at_ 20)
            (fst (postVerify Sample.devMode "tokA" (Some "@ava_owner") (Sample.at_ 10)
                    Sample.start)))
     = fail 404 "Invalid claim token".
Proof.
  split; [vm_compute; reflexivity|].
  assert (Hfirst : tryCatch (verify Sample.devMode "tokA" (Some "@ava_owner"))
                     "Failed to verify claim" (Sample.at_ 10) Sample.start
                   = (fst (postVerify Sample.devMode "tokA" (Some "@ava_owner")
                             (Sample.at_ 10) Sample.start),
                      json (DClaimed "Ava" "@ava_owner" "verified")))
    by (vm_compute; reflexivity).
  exact (proj2 (reverify_answers_not_found Sample.devMode "tokA" (Some "@ava_owner")
                  (Some "@ava_owner") "Failed to verify claim" (Sample.at_ 10)
                  (Sample.at_ 20) Sample.start _ _ sample_tokens_unique Hfirst eq_refl)).
Defined.

End AuthFacts.

(** ** Group messages: listing and sending *)

Module MessageFacts.
Import Permissions Messages.

Lemma length_insertDesc {A} (key : A -> option Timestamp) x l :
  length (Query.insertDesc key x l) = S (length l).
Proof.
  induction l as [|y r IH]; simpl; [reflexivity|].
  destruct (Query.before (key y) (key x)); simpl; [rewrite IH|]; reflexivity.
Qed.

Lemma length_orderByDesc {A} (key : A -> option Timestamp) l :
  length (Query.orderByDesc key l) = length l.
Proof.
  induction l as [|x r IH]; simpl; [reflexivity|].
  rewrite length_insertDesc, IH. reflexivity.
Qed.

Lemma length_enrich s rows : length (enrich s rows) = length rows.
Proof. unfold enrich. apply length_map. Qed.

(** C7 (what the code does).  For a member and a limit [n >= 0] the
    authenticated listing returns [min n k] messages, [k] being the
    number of messages of the group: the limit is not clamped at 100. *)
Theorem listing_is_not_clamped :
  forall agent groupId n error e w,
    isMember (db w) groupId (ra_id agent) = true ->
    0 <= n ->
    exists l,
      snd (tryCatch (getMessages agent groupId (Some n)) error e w)
      = json (DGroupMessages l)
      /\ length l = Nat.min (Z.to_nat n) (length (joined (db w) groupId)).
Proof.
  intros agent groupId n error e w Hm Hn. unfold getMessages. monad.
  unfold isMember in Hm. rewrite Hm. cbn.
  unfold Query.limit. destruct (n <? 0) eqn:E; [apply Z.ltb_lt in E; lia|]. cbn.
  eexists. split; [reflexivity|].
  rewrite length_rev, length_enrich, length_firstn, length_orderByDesc. reflexivity.
Qed.

(** The public listing of [routes/observer.ts] does clamp. *)
Lemma observer_limit_clamped parsed : Observer.limit parsed <= 100.
Proof. unfold Observer.limit. apply Z.le_min_r. Qed.

(** C8 (what the code does).  A member's message with admissible
    content is stored with the [replyToId] of the request, whatever
    that id refers to: the route never looks the reply target up. *)
Theorem reply_target_is_not_checked :
  forall agent groupId content replyToId error e w,
    blank content = false ->
    isMember (db w) groupId (ra_id agent) = true ->
    is_some (groupById (db w) groupId) = true ->
    is_some (agentById (db w) (ra_id agent)) = true ->
    first (fun x => Js.seq (Message.id x) (gen_random_uuid e (drawn w))) (messages (db w))
    = None ->
    exists w' m,
      tryCatch (send agent groupId content replyToId) error e w
      = (w', created (DGroupMessage m agent))
      /\ In m (messages (db w'))
      /\ Message.groupId m = groupId
      /\ Message.replyToId m = (if Js.truthy replyToId then replyToId else None).
Proof.
  intros agent groupId content replyToId error e w Hb Hm Hg Ha Hid.
  unfold send. monad. rewrite Hb. cbn. unfold isMember in Hm. rewrite Hm. cbn.
  unfold insertMessage. cbn. rewrite Hid, Hg, Ha. cbn.
  do 2 eexists. split; [reflexivity|]. cbn. split; [|split; reflexivity].
  apply in_app_iff. right. left. reflexivity.
Qed.

(** A group of 101 messages listed with [limit=101]. *)
Lemma listing_is_not_clamped_witness :
  exists l,
    snd (tryCatch (getMessages (reqAgentOf Sample.ava) "g1" (Some 101))
           "Failed to get messages" (Sample.at_ 500) Sample.busy)
    = json (DGroupMessages l)
    /\ length l = 101%nat.
Proof.
  assert (Hm : isMember (db Sample.busy) "g1" (ra_id (reqAgentOf Sample.ava)) = true)
    by (vm_compute; reflexivity).
  assert (Hn : 0 <= 101) by discriminate.
  destruct (listing_is_not_clamped (reqAgentOf Sample.ava) "g1" 101
              "Failed to get messages" (Sample.at_ 500) Sample.busy Hm Hn)
    as (l & Hl & Hlen).
  exists l. split; [exact Hl|]. rewrite Hlen. vm_compute. reflexivity.
Defined.

(** Ava, a member of the group ["u"] only, replies to the message
    ["uii"], which Bob sent to the group ["ui"]. *)
Lemma reply_target_is_not_checked_witness :
  (exists x, In x (messages (db Sample.twoRooms))
             /\ Message.id x = "uii" /\ Message.groupId x = "ui")
  /\ exists w' m,
       tryCatch (send (reqAgentOf Sample.ava) "u" (Some "re: wave") (Some "uii"))
         "Failed to send message" (Sample.at_ 40) Sample.twoRooms
       = (w', created (DGroupMessage m (reqAgentOf Sample.ava)))
       /\ In m (messages (db w'))
       /\ Message.groupId m = "u"
       /\ Message.replyToId m = Some "uii".
Proof.
  split.
  - eexists. split; [vm_compute; left; reflexivity|]. split; reflexivity.
  - assert (Hb : blank (Some "re: wave") = false) by (vm_compute; reflexivity).
    assert (Hm : isMember (db Sample.twoRooms) "u" (ra_id (reqAgentOf Sample.ava)) = true)
      by (vm_compute; reflexivity).
    assert (Hg : is_some (groupById (db Sample.twoRooms) "u") = true)
      by (vm_compute; reflexivity).
    assert (Ha : is_some (agentById (db Sample.twoRooms) (ra_id (reqAgentOf Sample.ava)))
                 = true) by (vm_compute; reflexivity).
    assert (Hid : first (fun x => Js.seq (Message.id x)
                                    (gen_random_uuid (Sample.at_ 40)
                                       (drawn Sample.twoRooms)))
                    (messages (db Sample.twoRooms)) = None)
      by (vm_compute; reflexivity).
    exact (reply_target_is_not_checked (reqAgentOf Sample.ava) "u" (Some "re: wave")
             (Some "uii") "Failed to send message" (Sample.at_ 40) Sample.twoRooms
             Hb Hm Hg Ha Hid).
Defined.

End MessageFacts.

(** * Further properties *)

Module SlugFacts.
Import Groups.

(** Nothing but [[a-z0-9]] and single dashes; [afterDash] forbids a dash
    in front. *)
Fixpoint spaced (afterDash : bool) (s : string) : bool :=
  match s with
  | EmptyString => true
  | String c r =>
      if Js.is_slug_char c then spaced false r
      else Ascii.eqb c "-" && negb afterDash && spaced true r
  end.

Fixpoint endsWithDash (s : string) : bool :=
  match s with
  | EmptyString => false
  | String c EmptyString => Ascii.eqb c "-"
  | String _ r => endsWithDash r
  end.

Lemma dash_not_slug : Js.is_slug_char "-" = false.
Proof. reflexivity. Qed.

Lemma spaced_dash_runs s : forall b, spaced b (Js.dash_runs b s) = true.
Proof.
  induction s as [|c r IH]; intros b; simpl; [reflexivity|].
  destruct (Js.is_slug_char c) eqn:E; simpl.
  - rewrite E. apply IH.
  - destruct b; [apply IH|].
    simpl. apply IH.
Qed.

Lemma spaced_weaken s : spaced true s = true -> spaced false s = true.
Proof.
  destruct s as [|c r]; simpl; [reflexivity|].
  destruct (Js.is_slug_char c); [auto|].
  rewrite andb_false_r. discriminate.
Qed.

Lemma spaced_strip_last s : forall b,
  spaced b s = true ->
  spaced b (Js.strip_last_dash s) = true /\ endsWithDash (Js.strip_last_dash s) = false.
Proof.
  induction s as [|c r IH]; intros b H; simpl in *; [auto|].
  destruct r as [|d r'].
  - destruct (Ascii.eqb c "-") eqn:E; simpl; [auto|].
    rewrite E. split; [exact H|reflexivity].
  - remember (String d r') as r eqn:Er.
    destruct (Js.is_slug_char c) eqn:E.
    + destruct (IH false H) as [H1 H2]. simpl. rewrite E. split; [exact H1|].
      destruct (Js.strip_last_dash r) eqn:Es; [|exact H2].
      (* the tail was a single dash: [c] is now last, and is not a dash *)
      destruct (Ascii.eqb c "-") eqn:Ec; [|reflexivity].
      apply Ascii.eqb_eq in Ec. subst c. discriminate.
    + apply andb_true_iff in H. destruct H as [H Hr].
      apply andb_true_iff in H. destruct H as [Hc Hb].
      destruct (IH true Hr) as [H1 H2]. simpl. rewrite E, Hc, Hb, H1.
      split; [reflexivity|].
      destruct (Js.strip_last_dash r) eqn:Es; [|exact H2].
      (* impossible: after a dash the tail starts with a slug character *)
      exfalso. subst r. simpl in Hr, Es.
      destruct (Js.is_slug_char d) eqn:Ed.
      * destruct r'; [|discriminate].
        destruct (Ascii.eqb d "-") eqn:E2; [|discriminate].
        apply Ascii.eqb_eq in E2. subst d. discriminate.
      * rewrite andb_false_r in Hr. discriminate.
Qed.

Lemma slug_char_not_dash c : Js.is_slug_char c = true -> Ascii.eqb c "-" = false.
Proof.
  intros H. destruct (Ascii.eqb c "-") eqn:E; [|reflexivity].
  apply Ascii.eqb_eq in E. subst c. discriminate.
Qed.

Lemma slugify_spaced name :
  spaced true (slugify name) = true /\ endsWithDash (slugify name) = false.
Proof.
  unfold slugify, Js.strip_dashes.
  pose proof (spaced_dash_runs (Js.toLowerCase name) false) as H.
  destruct (Js.dash_runs false (Js.toLowerCase name)) as [|c r] eqn:Et; [auto|].
  destruct (Ascii.eqb c "-") eqn:Ec.
  - apply spaced_strip_last. simpl in H.
    apply Ascii.eqb_eq in Ec. subst c. exact H.
  - destruct (spaced_strip_last _ _ H) as [H1 H2]. split; [|exact H2].
    simpl in H. destruct (Js.is_slug_char c) eqn:Es.
    + revert H1. simpl. destruct r; rewrite ?Ec; simpl; rewrite Es; auto.
    + rewrite Ec in H. discriminate.
Qed.

Lemma spaced_chars s : forall b,
  spaced b s = true ->
  Forall (fun c => Js.is_slug_char c = true \/ c = "-"%char) (list_ascii_of_string s).
Proof.
  induction s as [|c r IH]; intros b H; simpl in *; constructor.
  - destruct (Js.is_slug_char c); [auto|].
    right. apply Ascii.eqb_eq.
    destruct (Ascii.eqb c "-"); [reflexivity|discriminate].
  - destruct (Js.is_slug_char c); [eauto|].
    apply andb_true_iff in H. destruct H as [_ H]. eauto.
Qed.

Lemma spaced_no_run a : forall b t, spaced b (a ++ String "-" (String "-" t)) = false.
Proof.
  induction a as [|c r IH]; intros b t; simpl.
  - rewrite andb_false_r. reflexivity.
  - destruct (Js.is_slug_char c); [apply IH|].
    rewrite IH. apply andb_false_r.
Qed.

Lemma endsWithDash_app t : endsWithDash (t ++ "-") = true.
Proof.
  induction t as [|c r IH]; [reflexivity|].
  simpl. destruct (r ++ "-")%string eqn:E; [|exact IH].
  destruct r; discriminate.
Qed.

Lemma lower_fixed c :
  Js.is_slug_char c = true \/ c = "-"%char -> Js.lower c = c.
Proof.
  intros [H| ->]; [|reflexivity].
  unfold Js.lower, Js.is_slug_char in *.
  destruct ((65 <=? nat_of_ascii c)%nat && (nat_of_ascii c <=? 90)%nat) eqn:E; [|reflexivity].
  exfalso.
  apply andb_true_iff in E. destruct E as [E1 E2].
  apply Nat.leb_le in E1, E2.
  apply orb_true_iff in H. destruct H as [H|H];
    apply andb_true_iff in H; destruct H as [H1 H2];
    apply Nat.leb_le in H1, H2; lia.
Qed.

Lemma toLowerCase_fixed s :
  Forall (fun c => Js.is_slug_char c = true \/ c = "-"%char) (list_ascii_of_string s) ->
  Js.toLowerCase s = s.
Proof.
  induction s as [|c r IH]; intros H; simpl in *; [reflexivity|].
  inversion H; subst. rewrite lower_fixed, IH; auto.
Qed.

Lemma dash_runs_fixed s : forall b, spaced b s = true -> Js.dash_runs b s = s.
Proof.
  induction s as [|c r IH]; intros b H; simpl in *; [reflexivity|].
  destruct (Js.is_slug_char c); [rewrite IH; auto|].
  apply andb_true_iff in H. destruct H as [H Hr].
  apply andb_true_iff in H. destruct H as [Hc Hb].
  apply Ascii.eqb_eq in Hc. subst c.
  destruct b; [discriminate|]. rewrite IH; auto.
Qed.

Lemma strip_last_fixed s : endsWithDash s = false -> Js.strip_last_dash s = s.
Proof.
  induction s as [|c r IH]; intros H; simpl in *; [reflexivity|].
  destruct r as [|d r']; [rewrite H; reflexivity|].
  rewrite IH; auto.
Qed.

(** X1.  The slug of a group name is made of lower-case letters, digits
    and dashes only, has no two dashes in a row and no dash at either
    end; a slug is its own slug. *)
Theorem slug_is_url_safe (name : string) :
  let s := slugify name in
  Forall (fun c => Js.is_slug_char c = true \/ c = "-"%char) (list_ascii_of_string s)
  /\ (forall a b, s <> (a ++ "--" ++ b)%string)
  /\ (forall t, s <> ("-" ++ t)%string)
  /\ (forall t, s <> (t ++ "-")%string)
  /\ slugify s = s.
Proof.
  intros s. destruct (slugify_spaced name) as [H1 H2]. fold s in H1, H2.
  pose proof (spaced_chars _ _ H1) as Hc.
  repeat split.
  - exact Hc.
  - intros a b E. rewrite E in H1.
    change ("--" ++ b)%string with (String "-" (String "-" b)) in H1.
    rewrite spaced_no_run in H1. discriminate.
  - intros t E. rewrite E in H1. discriminate.
  - intros t E. rewrite E, endsWithDash_app in H2. discriminate.
  - unfold slugify. rewrite (toLowerCase_fixed _ Hc).
    rewrite (dash_runs_fixed _ _ (spaced_weaken _ H1)).
    unfold Js.strip_dashes. destruct s as [|c r]; [reflexivity|].
    simpl in H1. destruct (Js.is_slug_char c) eqn:Es.
    + rewrite (slug_char_not_dash _ Es). apply strip_last_fixed. exact H2.
    + rewrite andb_false_r in H1. discriminate.
Qed.

End SlugFacts.

Module PermissionFacts.
Import Permissions.

(** X2.  The two comparisons of roles describe one chain
    member < moderator < admin: [hasPermission] is a total preorder,
    [canModifyRole] is its strict part; nobody can modify an admin and a
    member can modify nobody. *)
Theorem role_hierarchy_is_a_chain :
  (forall a, hasPermission a a = true)
  /\ (forall a b c,
        hasPermission a b = true -> hasPermission b c = true -> hasPermission a c = true)
  /\ (forall a b, hasPermission a b = true -> hasPermission b a = true -> a = b)
  /\ (forall a b, hasPermission a b = true \/ hasPermission b a = true)
  /\ (forall a b, canModifyRole a b = negb (hasPermission b a))
  /\ (forall r, canModifyRole r admin = false)
  /\ (forall r, canModifyRole member r = false).
Proof.
  repeat split.
  - intros []; reflexivity.
  - intros [] [] []; cbv; congruence.
  - intros [] []; cbv; congruence.
  - intros [] []; cbv; auto.
  - intros [] []; reflexivity.
  - intros []; reflexivity.
  - intros []; reflexivity.
Qed.

Lemma admin_has_permission r : hasPermission admin r = true.
Proof. destruct r; reflexivity. Qed.

(** X3.  The permission check: an agent who is not a member is refused
    whatever the group has configured, an admin is allowed every action
    whatever the group has configured, whoever is allowed is a member
    whose role reaches the required one, and a reason is given exactly
    when the check refuses. *)
Theorem permission_check_outcomes (s : Store) (groupId agentId : Id) (k : PermissionKey) :
  let c := checkGroupPermission s groupId agentId k in
  (isMember s groupId agentId = false ->
     allowed c = false /\ userRole c = None
     /\ requiredRole c = DEFAULT_PERMISSIONS k
     /\ reason c = Some "Not a member of this group")
  /\ (isAdmin s groupId agentId = true -> allowed c = true)
  /\ (allowed c = true ->
        exists r, getMemberRole s groupId agentId = Some r /\ userRole c = Some r
                  /\ hasPermission r (requiredRole c) = true)
  /\ (allowed c = true <-> reason c = None).
Proof.
  unfold checkGroupPermission, isMember, isAdmin, getMemberRole.
  destruct (membership s groupId agentId) as [m|]; simpl.
  - repeat split; try discriminate.
    + destruct (GroupMember.role m); try discriminate.
      intros _. apply admin_has_permission.
    + intros H. eauto.
    + intros H. rewrite H. reflexivity.
    + match goal with
      | |- context [if ?c then _ else _] => destruct c
      end; [reflexivity|discriminate].
  - repeat split; try discriminate.
Qed.

End PermissionFacts.

Module AuthenticationFacts.
Import Middleware Terms.

Lemma split_spaceless key : spaceless key = true -> Js.split " " key = [key].
Proof.
  unfold spaceless. induction key as [|c r IH]; simpl; [reflexivity|].
  intros H. apply andb_true_iff in H. destruct H as [Hc Hr].
  apply negb_true_iff in Hc. rewrite Hc, (IH Hr). reflexivity.
Qed.

Lemma startsWith_app (p s : string) : Js.startsWith (p ++ s) p = true.
Proof.
  unfold Js.startsWith. induction p as [|c r IH]; simpl.
  - destruct s; reflexivity.
  - destruct (ascii_dec c c); [exact IH|congruence].
Qed.

Lemma bearer_key key :
  spaceless key = true -> nth_error (Js.split " " ("Bearer " ++ key)) 1 = Some key.
Proof.
  intros H. simpl. rewrite (split_spaceless _ H). reflexivity.
Qed.

(** A well-formed header with the key of a registered agent is passed
    on with that agent. *)
Lemma bearer_accepted key a e w :
  spaceless key = true ->
  Js.startsWith key "clk_" = true ->
  first (fun a => Js.seq (Agent.apiKey a) key) (agents (db w)) = Some a ->
  authMiddleware (Some ("Bearer " ++ key)%string) e w
  = (seen (Agent.id a) e w, Next (reqAgentOf a)).
Proof.
  intros Hs Hk Hf.
  unfold authMiddleware. monad.
  rewrite (bearer_key _ Hs).
  change (Js.truthy (Some ("Bearer " ++ key)%string)) with true.
  rewrite startsWith_app.
  cbn [negb orb]. rewrite Hk.
  assert (Ht : Js.truthy (Some key) = true).
  { destruct key; [discriminate|reflexivity]. }
  rewrite Ht. cbn [negb orb]. rewrite Hf. reflexivity.
Qed.

(** X4.  Authentication.  A header [Bearer <key>] whose key starts with
    [clk_], holds no space and is the API key of a registered agent is
    passed on with that agent, who is recorded as online and seen now and
    nothing else changes; the middleware never throws, and whenever it
    does not pass the request on it answers 401 and leaves the world as
    it was; an agent it passes on is registered and its key starts with
    [clk_]. *)
Theorem authentication_accepts_the_api_keys (auth : option string) (e : Env) (w : World) :
  (forall key a,
     auth = Some ("Bearer " ++ key)%string ->
     spaceless key = true ->
     Js.startsWith key "clk_" = true ->
     first (fun a => Js.seq (Agent.apiKey a) key) (agents (db w)) = Some a ->
     exists w',
       authMiddleware auth e w = (w', Next (reqAgentOf a))
       /\ agents (db w') = map (touch (Agent.id a) (now e)) (agents (db w))
       /\ In (touch (Agent.id a) (now e) a) (agents (db w'))
       /\ Agent.isOnline (touch (Agent.id a) (now e) a) = true
       /\ Agent.lastSeen (touch (Agent.id a) (now e) a) = Some (now e)
       /\ set_agents (db w') (agents (db w)) = db w)
  /\ (forall w' o,
        authMiddleware auth e w = (w', o) ->
        (exists r, o = Reply r /\ status r = 401%nat /\ w' = w)
        \/ (exists a, o = Next (reqAgentOf a) /\ In a (agents (db w))
                      /\ Js.startsWith (Agent.apiKey a) "clk_" = true
                      /\ w' = seen (Agent.id a) e w)).
Proof.
  split.
  - intros key a -> Hs Hk Hf.
    rewrite (bearer_accepted _ _ _ _ Hs Hk Hf).
    eexists. split; [reflexivity|]. cbn [db fst agents set_agents seen].
    destruct (first_some _ _ _ Hf) as [Hin _].
    repeat split.
    + apply in_map. exact Hin.
    + unfold touch. rewrite seq_refl. reflexivity.
    + unfold touch. rewrite seq_refl. reflexivity.
    + destruct w as [[] ? ?]. reflexivity.
  - intros w' o. unfold authMiddleware. monad.
    branch; [intros H; inversion H; left; eauto|].
    branch; [intros H; inversion H; left; eauto|].
    match goal with
    | |- context [first ?p (agents (db w))] =>
        destruct (first p (agents (db w))) as [a|] eqn:E
    end; intros H; inversion H; [|left; eauto].
    right. exists a. destruct (first_some _ _ _ E) as [Hin Hp].
    apply seq_true in Hp.
    repeat split; auto.
    rewrite Hp.
    match goal with
    | H : _ || negb (Js.startsWith ?k "clk_") = false |- _ =>
        apply orb_false_iff in H; destruct H as [_ H];
        apply negb_false_iff in H; exact H
    end.
Qed.

Lemma authentication_accepts_the_api_keys_witness :
  exists w',
    authMiddleware Sample.asAva (Sample.at_ 10) Sample.start
    = (w', Next (reqAgentOf Sample.ava))
    /\ Agent.lastSeen (touch "a1" 10 Sample.ava) = Some 10.
Proof.
  destruct (authentication_accepts_the_api_keys Sample.asAva (Sample.at_ 10) Sample.start)
    as [H _].
  destruct (H "clk_ava" Sample.ava) as [w' [H1 [_ [_ [_ [H2 _]]]]]];
    try reflexivity.
  exists w'. split; [exact H1|exact H2].
Defined.

End AuthenticationFacts.

Module MembershipFacts.
Import Permissions Groups GroupSpec GroupFacts Terms.

Ltac leaf :=
  cbn [fst snd db drawn trace];
  try (intros; reflexivity);
  try (unfold refused; cbn; intros; discriminate).

Lemma create_refused agent name description isPublic error e w :
  refused (snd (tryCatch (create agent name description isPublic) error e w)) = true ->
  fst (tryCatch (create agent name description isPublic) error e w) = w.
Proof.
  unfold create. monad.
  branch; leaf. branch; leaf.
  branch; leaf. cbn. branch; leaf.
Qed.

Lemma join_refused agent g error e w :
  refused (snd (tryCatch (join agent g) error e w)) = true ->
  fst (tryCatch (join agent g) error e w) = w.
Proof.
  unfold join. monad. cbn.
  branch; leaf. branch; leaf. branch; leaf.
Qed.

Lemma leave_refused agent g error e w :
  refused (snd (tryCatch (leave agent g) error e w)) = true ->
  fst (tryCatch (leave agent g) error e w) = w.
Proof.
  unfold leave. monad. cbn.
  branch; leaf.
Qed.

Lemma removeMember_refused agent g target error e w :
  refused (snd (tryCatch (removeMember agent g target) error e w)) = true ->
  fst (tryCatch (removeMember agent g target) error e w) = w.
Proof.
  unfold removeMember. monad. cbn.
  branch; leaf. branch; leaf. branch; leaf. branch; leaf.
Qed.

Lemma changeRole_refused agent g target role error e w :
  refused (snd (tryCatch (changeRole agent g target role) error e w)) = true ->
  fst (tryCatch (changeRole agent g target role) error e w) = w.
Proof.
  unfold changeRole. monad.
  repeat (branch; leaf).
Qed.


(** X5.  A membership request that is answered with a client error (a
    status from 400 to 499) changes nothing: the world is the one before
    the request, or that world with the requester recorded as seen. *)
Theorem refused_membership_requests_change_nothing
    (auth : option string) (r : Request) (e : Env) (w : World) :
  refused (snd (router auth r e w)) = true ->
  fst (router auth r e w) = w
  \/ exists a, In a (agents (db w))
               /\ requester auth e w = Some (reqAgentOf a)
               /\ fst (router auth r e w) = seen (Agent.id a) e w.
Proof.
  destruct r as [name description isPublic|g|g|g target|g target role];
    unfold router;
    match goal with
    | |- context [Middleware.authenticated ?a ?r ?t ?e ?w] =>
        destruct (authenticated_cases a r t e w) as [[r0 H]|(a0 & Hin & Hreq & H)];
        rewrite H; clear H; [left; reflexivity|]
    end;
    intros Hr; right; exists a0; (split; [exact Hin|]); (split; [exact Hreq|]).
  - apply create_refused. exact Hr.
  - apply join_refused. exact Hr.
  - apply leave_refused. exact Hr.
  - apply removeMember_refused. exact Hr.
  - apply changeRole_refused. exact Hr.
Qed.

(** Bob leaves a group he is not a member of. *)
Lemma refused_membership_requests_change_nothing_witness :
  snd (router Sample.asBob (Leave "u") (Sample.at_ 10) Sample.start)
  = fail 400 "Not a member of this group"
  /\ (fst (router Sample.asBob (Leave "u") (Sample.at_ 10) Sample.start) = Sample.start
      \/ exists a, In a (agents (db Sample.start))
                   /\ requester Sample.asBob (Sample.at_ 10) Sample.start
                      = Some (reqAgentOf a)
                   /\ fst (router Sample.asBob (Leave "u") (Sample.at_ 10) Sample.start)
                      = seen (Agent.id a) (Sample.at_ 10) Sample.start).
Proof.
  split; [vm_compute; reflexivity|].
  apply (refused_membership_requests_change_nothing
           Sample.asBob (Leave "u") (Sample.at_ 10) Sample.start).
  vm_compute. reflexivity.
Defined.

Lemma insertGroupMember_rows m s s' :
  insertGroupMember m s = Some s' ->
  s' = set_groupMembers s (groupMembers s ++ [m])
  /\ membership s (GroupMember.groupId m) (GroupMember.agentId m) = None.
Proof.
  unfold insertGroupMember. intros H.
  destruct (negb (is_some (groupById s (GroupMember.groupId m)))); [discriminate|].
  destruct (negb (is_some (agentById s (GroupMember.agentId m)))); [discriminate|].
  destruct (membership s (GroupMember.groupId m) (GroupMember.agentId m));
    [discriminate|].
  simpl in H. injection H as <-. auto.
Qed.

Lemma insertGroup_rows g s s' :
  insertGroup g s = Some s' -> s' = set_groups s (groups s ++ [g]).
Proof.
  unfold insertGroup. intros H.
  destruct (is_some (groupById s (Group.id g)) || _ || _); [discriminate|].
  injection H as <-. reflexivity.
Qed.

(** The admin rows of the member table. *)
Definition adminRow (m : GroupMember.t) : Prop := GroupMember.role m = admin.

(** Every admin row of [l'] is a row of [l]. *)
Definition noNewAdmin (l l' : list GroupMember.t) : Prop :=
  forall m, In m l' -> adminRow m -> In m l.

Lemma noNewAdmin_refl l : noNewAdmin l l.
Proof. intros m H _. exact H. Qed.

Lemma noNewAdmin_filter p l : noNewAdmin l (filter p l).
Proof. intros m H _. apply filter_In in H. tauto. Qed.

Lemma join_no_admin agent g error e w :
  noNewAdmin (groupMembers (db w))
    (groupMembers (db (fst (tryCatch (join agent g) error e w)))).
Proof.
  unfold join. monad. cbn.
  branch; [|apply noNewAdmin_refl].
  branch; [apply noNewAdmin_refl|]. cbn.
  match goal with
  | |- context [insertGroupMember ?m (db w)] =>
      destruct (insertGroupMember m (db w)) as [s1|] eqn:Ei
  end; cbn; [|apply noNewAdmin_refl].
  apply insertGroupMember_rows in Ei as [-> _]. cbn.
  intros m Hin Hadm. apply in_app_iff in Hin as [Hin|[<-|[]]]; [exact Hin|].
  discriminate.
Qed.

Lemma leave_no_admin agent g error e w :
  noNewAdmin (groupMembers (db w))
    (groupMembers (db (fst (tryCatch (leave agent g) error e w)))).
Proof.
  unfold leave. monad. cbn.
  branch; [apply noNewAdmin_refl|]. cbn. apply noNewAdmin_filter.
Qed.

Lemma removeMember_no_admin agent g target error e w :
  noNewAdmin (groupMembers (db w))
    (groupMembers (db (fst (tryCatch (removeMember agent g target) error e w)))).
Proof.
  unfold removeMember. monad. cbn.
  repeat (branch; try apply noNewAdmin_refl). cbn. apply noNewAdmin_filter.
Qed.

Lemma changeRole_no_admin agent g target role error e w :
  noNewAdmin (groupMembers (db w))
    (groupMembers (db (fst (tryCatch (changeRole agent g target role) error e w)))).
Proof.
  unfold changeRole. monad.
  destruct (parseRole role) as [newRole|]; cbn; [|apply noNewAdmin_refl].
  branch; [apply noNewAdmin_refl|].
  branch; [apply noNewAdmin_refl|].
  destruct (getMemberRole (db w) g target) as [targetRole|]; cbn;
    [|apply noNewAdmin_refl].
  branch; [apply noNewAdmin_refl|].
  branch; [apply noNewAdmin_refl|]. cbn.
  intros m Hin Hadm. apply in_map_iff in Hin as (m1 & <- & Hin).
  destruct (isRow g target m1); [|exact Hin].
  exfalso. unfold adminRow in Hadm. cbn in Hadm.
  match goal with
  | H : negb (canModify _ newRole) = false |- _ =>
      apply negb_false_iff in H; exact (canModify_not_admin _ _ H Hadm)
  end.
Qed.

(** Every admin row of [l] is still a row of [l']. *)
Definition adminsStay (l l' : list GroupMember.t) : Prop :=
  forall m, In m l -> adminRow m -> In m l'.

Lemma adminsStay_refl l : adminsStay l l.
Proof. intros m H _. exact H. Qed.

Lemma adminsStay_app l x : adminsStay l (l ++ x).
Proof. intros m H _. apply in_app_iff. auto. Qed.

Lemma create_keeps_admins agent name description isPublic error e w :
  adminsStay (groupMembers (db w))
    (groupMembers (db (fst (tryCatch (create agent name description isPublic) error e w)))).
Proof.
  unfold create. monad.
  branch; [apply adminsStay_refl|].
  branch; [apply adminsStay_refl|]. cbn.
  match goal with
  | |- context [insertGroup ?g (db w)] =>
      destruct (insertGroup g (db w)) as [s1|] eqn:Ei
  end; cbn; [|apply adminsStay_refl].
  apply insertGroup_rows in Ei. subst s1.
  match goal with
  | |- context [insertGroupMember ?m ?s] =>
      destruct (insertGroupMember m s) as [s2|] eqn:Ej
  end; cbn; [|apply adminsStay_refl].
  apply insertGroupMember_rows in Ej as [-> _]. cbn. apply adminsStay_app.
Qed.

Lemma join_keeps_admins agent g error e w :
  adminsStay (groupMembers (db w))
    (groupMembers (db (fst (tryCatch (join agent g) error e w)))).
Proof.
  unfold join. monad. cbn.
  branch; [|apply adminsStay_refl].
  branch; [apply adminsStay_refl|]. cbn.
  match goal with
  | |- context [insertGroupMember ?m (db w)] =>
      destruct (insertGroupMember m (db w)) as [s1|] eqn:Ei
  end; cbn; [|apply adminsStay_refl].
  apply insertGroupMember_rows in Ei as [-> _]. cbn. apply adminsStay_app.
Qed.

(** The row a moderation request acts on is not an admin row. *)
Lemma target_not_admin s g target u m0 m :
  uniqueMembers (groupMembers s) = true ->
  membership s g target = Some m0 ->
  canModify u (GroupMember.role m0) = true ->
  In m (groupMembers s) -> adminRow m -> isRow g target m = false.
Proof.
  intros Hu Hm Hc Hin Hadm.
  destruct (isRow g target m) eqn:E; [|reflexivity]. exfalso.
  apply canModify_not_admin in Hc. apply Hc.
  rewrite <- (unique_first _ _ _ _ _ Hu Hm Hin E). exact Hadm.
Qed.

Lemma removeMember_keeps_admins agent g target error e w :
  uniqueMembers (groupMembers (db w)) = true ->
  adminsStay (groupMembers (db w))
    (groupMembers (db (fst (tryCatch (removeMember agent g target) error e w)))).
Proof.
  intros Hu. unfold removeMember. monad. cbn.
  branch; [apply adminsStay_refl|].
  branch; [apply adminsStay_refl|].
  unfold getMemberRole.
  destruct (membership (db w) g target) as [m0|] eqn:Em; cbn;
    [|apply adminsStay_refl].
  branch; [apply adminsStay_refl|]. cbn.
  intros m Hin Hadm. apply filter_In. split; [exact Hin|].
  apply negb_true_iff.
  match goal with
  | H : negb (canModify ?u _) = false |- _ =>
      apply negb_false_iff in H;
      exact (target_not_admin _ _ _ _ _ _ Hu Em H Hin Hadm)
  end.
Qed.

Lemma changeRole_keeps_admins agent g target role error e w :
  uniqueMembers (groupMembers (db w)) = true ->
  adminsStay (groupMembers (db w))
    (groupMembers (db (fst (tryCatch (changeRole agent g target role) error e w)))).
Proof.
  intros Hu. unfold changeRole. monad.
  destruct (parseRole role) as [newRole|]; cbn; [|apply adminsStay_refl].
  branch; [apply adminsStay_refl|].
  branch; [apply adminsStay_refl|].
  unfold getMemberRole.
  destruct (membership (db w) g target) as [m0|] eqn:Em; cbn;
    [|apply adminsStay_refl].
  branch; [apply adminsStay_refl|].
  branch; [apply adminsStay_refl|]. cbn.
  intros m Hin Hadm. apply in_map_iff. exists m. split; [|exact Hin].
  match goal with
  | H : negb (canModify ?u (GroupMember.role m0)) = false |- _ =>
      apply negb_false_iff in H;
      rewrite (target_not_admin _ _ _ _ _ _ Hu Em H Hin Hadm)
  end.
  reflexivity.
Qed.

(** X6.  Admins are made by [create] and unmade by [leave], and by
    nothing else: a request other than a creation adds no admin row, and
    (the member rows being unique, as the schema requires) a request
    other than a [leave] removes or demotes none.  In particular nobody
    can be promoted to admin, and no admin can be removed or demoted by
    somebody else. *)
Theorem admins_made_by_create_unmade_by_leave
    (auth : option string) (r : Request) (e : Env) (w : World) :
  let after := groupMembers (db (fst (router auth r e w))) in
  match r with
  | Create _ _ _ => True
  | _ => forall m, In m after -> GroupMember.role m = admin -> In m (groupMembers (db w))
  end
  /\ match r with
     | Leave _ => True
     | _ =>
         uniqueMembers (groupMembers (db w)) = true ->
         forall m, In m (groupMembers (db w)) -> GroupMember.role m = admin -> In m after
     end.
Proof.
  cbv zeta.
  destruct r as [name description isPublic|g|g|g target|g target role];
    unfold router;
    match goal with
    | |- context [Middleware.authenticated ?a ?r ?t ?e ?w] =>
        destruct (authenticated_cases a r t e w) as [[r0 H]|(a0 & Hin & Hreq & H)];
        rewrite H; clear H; [cbn; auto|]
    end; (split; [try exact I|try exact I]).
  - intros _. apply (create_keeps_admins _ _ _ _ _ e (seen (Agent.id a0) e w)).
  - apply (join_no_admin _ _ _ e (seen (Agent.id a0) e w)).
  - intros _. apply (join_keeps_admins _ _ _ e (seen (Agent.id a0) e w)).
  - apply (leave_no_admin _ _ _ e (seen (Agent.id a0) e w)).
  - apply (removeMember_no_admin _ _ _ _ e (seen (Agent.id a0) e w)).
  - intros Hu. apply (removeMember_keeps_admins _ _ _ _ e (seen (Agent.id a0) e w)).
    exact Hu.
  - apply (changeRole_no_admin _ _ _ _ _ e (seen (Agent.id a0) e w)).
  - intros Hu. apply (changeRole_keeps_admins _ _ _ _ _ e (seen (Agent.id a0) e w)).
    exact Hu.
Qed.


Lemma status_json_refused d : refused (json d) = false.
Proof. reflexivity. Qed.

Lemma filter_appended g a (l : list GroupMember.t) m :
  existsb (isRow g a) l = false -> isRow g a m = true ->
  filter (fun x => negb (isRow g a x)) (l ++ [m]) = l.
Proof.
  intros Hl Hm. rewrite filter_app. simpl. rewrite Hm. simpl. rewrite app_nil_r.
  induction l as [|x r IH]; simpl in *; [reflexivity|].
  apply orb_false_iff in Hl as [Hx Hr]. rewrite Hx. simpl. rewrite IH; auto.
Qed.

Lemma membership_appended s g a r :
  membership (set_groupMembers s (groupMembers s ++ [GroupMember.mk g a r])) g a
  <> None.
Proof.
  unfold membership. cbn. intros H.
  pose proof (first_none _ _ H (GroupMember.mk g a r)) as Hn.
  cbn in Hn. rewrite !seq_refl in Hn.
  assert (true = false); [|discriminate].
  apply Hn. apply in_app_iff. right. left. reflexivity.
Qed.

(** X7.  Joining and leaving are inverse to each other: once an agent
    has joined a group, joining again is refused with 400 and changes
    nothing, and leaving succeeds and gives back the store the agent
    started from. *)
Theorem join_then_leave_restores_the_store
    (agent : ReqAgent) (groupId : Id) (error error' : string) (e e' : Env)
    (w w1 : World) (d : Data) :
  tryCatch (join agent groupId) error e w = (w1, json d) ->
  tryCatch (join agent groupId) error' e' w1
    = (w1, fail 400 "Already a member of this group")
  /\ exists w2,
       tryCatch (leave agent groupId) error' e' w1
       = (w2, json (DText "Left group successfully"))
       /\ db w2 = db w.
Proof.
  unfold join at 1. monad. cbn.
  destruct (groupById (db w) groupId) as [group|] eqn:Eg; [|discriminate].
  destruct (membership (db w) groupId (ra_id agent)) as [m0|] eqn:Em; cbn;
    [discriminate|].
  match goal with
  | |- context [insertGroupMember ?m (db w)] =>
      destruct (insertGroupMember m (db w)) as [s1|] eqn:Ei
  end; cbn; [|discriminate].
  apply insertGroupMember_rows in Ei as [-> _].
  intros H. injection H as <- _.
  remember (set_groupMembers (db w)
              (groupMembers (db w) ++ [GroupMember.mk groupId (ra_id agent) member]))
    as s1 eqn:Es1.
  assert (Hg : groupById s1 groupId = Some group) by (subst s1; exact Eg).
  destruct (membership s1 groupId (ra_id agent)) as [m1|] eqn:E1;
    [|subst s1; exfalso; exact (membership_appended _ _ _ _ E1)].
  split.
  - unfold join. monad. cbn. rewrite Hg. cbn. rewrite E1. reflexivity.
  - unfold leave. monad. cbn. rewrite E1. cbn.
    eexists. split; [reflexivity|]. cbn. subst s1. cbn.
    rewrite filter_appended.
    + destruct (db w). reflexivity.
    + apply membership_none. exact Em.
    + unfold isRow. cbn. rewrite !seq_refl. reflexivity.
Qed.

(** Bob joins Ava's group, and leaves it. *)
Lemma join_then_leave_restores_the_store_witness :
  exists w2,
    tryCatch (leave (reqAgentOf Sample.bob) "u") "Failed to leave group" (Sample.at_ 30)
      (fst (tryCatch (join (reqAgentOf Sample.bob) "u") "Failed to join group"
              (Sample.at_ 20) (run Sample.start (firstn 1 Sample.memberLeaves))))
    = (w2, json (DText "Left group successfully"))
    /\ db w2 = db (run Sample.start (firstn 1 Sample.memberLeaves)).
Proof.
  refine (proj2 (join_then_leave_restores_the_store (reqAgentOf Sample.bob) "u"
                   "Failed to join group" "Failed to leave group"
                   (Sample.at_ 20) (Sample.at_ 30)
                   (run Sample.start (firstn 1 Sample.memberLeaves)) _
                   (DText ("Joined group " ++ Js.quoted "Reef Talk")) _)).
  vm_compute. reflexivity.
Defined.

Lemma first_map {A} (p : A -> bool) (f : A -> A) (l : list A) :
  (forall x, p (f x) = p x) -> first p (map f l) = option_map f (first p l).
Proof.
  intros Hf. unfold first. induction l as [|x r IH]; simpl; [reflexivity|].
  rewrite Hf. destruct (p x); [reflexivity|exact IH].
Qed.

Lemma first_filter_none {A} (p q : A -> bool) (l : list A) :
  (forall x, p x = true -> q x = false) -> first p (filter q l) = None.
Proof.
  intros H. unfold first. induction l as [|x r IH]; simpl; [reflexivity|].
  destruct (q x) eqn:Eq; [|exact IH].
  simpl. destruct (p x) eqn:Ep; [|exact IH].
  rewrite (H x Ep) in Eq. discriminate.
Qed.

Lemma first_filter_same {A} (p q : A -> bool) (l : list A) :
  (forall x, p x = true -> q x = true) -> first p (filter q l) = first p l.
Proof.
  intros H. unfold first. induction l as [|x r IH]; simpl; [reflexivity|].
  destruct (q x) eqn:Eq; simpl.
  - destruct (p x); [reflexivity|exact IH].
  - destruct (p x) eqn:Ep; [|exact IH].
    rewrite (H x Ep) in Eq. discriminate.
Qed.

Definition withRole (g t : Id) (r : Role) (m : GroupMember.t) : GroupMember.t :=
  if isRow g t m
  then GroupMember.mk (GroupMember.groupId m) (GroupMember.agentId m) r
  else m.

Lemma withRole_row g t r g' a' m : isRow g' a' (withRole g t r m) = isRow g' a' m.
Proof. unfold withRole. destruct (isRow g t m); reflexivity. Qed.

Lemma rows_differ g t g' a' m :
  (g', a') <> (g, t) -> isRow g' a' m = true -> isRow g t m = false.
Proof.
  intros Hne H. destruct (isRow g t m) eqn:E; [|reflexivity].
  exfalso. apply Hne. apply isRow_true in H as [<- <-].
  apply isRow_true in E as [<- <-]. reflexivity.
Qed.

Lemma role_updated s g t r m0 :
  membership s g t = Some m0 ->
  getMemberRole (set_groupMembers s (map (withRole g t r) (groupMembers s))) g t
  = Some r.
Proof.
  intros Hm. unfold getMemberRole.
  change (membership (set_groupMembers s (map (withRole g t r) (groupMembers s))) g t)
    with (first (isRow g t) (map (withRole g t r) (groupMembers s))).
  rewrite first_map by (intros x; apply withRole_row).
  change (first (isRow g t) (groupMembers s)) with (membership s g t).
  rewrite Hm. simpl. unfold withRole.
  destruct (first_some _ _ _ Hm) as [_ Hp].
  change (isRow g t m0 = true) in Hp. rewrite Hp. reflexivity.
Qed.

Lemma role_elsewhere s g t r g' a' :
  (g', a') <> (g, t) ->
  getMemberRole (set_groupMembers s (map (withRole g t r) (groupMembers s))) g' a'
  = getMemberRole s g' a'.
Proof.
  intros Hne. unfold getMemberRole.
  change (membership (set_groupMembers s (map (withRole g t r) (groupMembers s))) g' a')
    with (first (isRow g' a') (map (withRole g t r) (groupMembers s))).
  rewrite first_map by (intros x; apply withRole_row).
  change (first (isRow g' a') (groupMembers s)) with (membership s g' a').
  destruct (membership s g' a') as [m|] eqn:Hm; [|reflexivity].
  simpl. unfold withRole.
  destruct (first_some _ _ _ Hm) as [_ Hp].
  change (isRow g' a' m = true) in Hp.
  rewrite (rows_differ _ _ _ _ _ Hne Hp). reflexivity.
Qed.

Lemma member_removed s g t :
  getMemberRole
    (set_groupMembers s (filter (fun m => negb (isRow g t m)) (groupMembers s))) g t
  = None.
Proof.
  unfold getMemberRole.
  change (membership (set_groupMembers s
                        (filter (fun m => negb (isRow g t m)) (groupMembers s))) g t)
    with (first (isRow g t) (filter (fun m => negb (isRow g t m)) (groupMembers s))).
  rewrite first_filter_none; [reflexivity|].
  intros x Hx. rewrite Hx. reflexivity.
Qed.

Lemma member_elsewhere s g t g' a' :
  (g', a') <> (g, t) ->
  getMemberRole
    (set_groupMembers s (filter (fun m => negb (isRow g t m)) (groupMembers s))) g' a'
  = getMemberRole s g' a'.
Proof.
  intros Hne. unfold getMemberRole.
  change (membership (set_groupMembers s
                        (filter (fun m => negb (isRow g t m)) (groupMembers s))) g' a')
    with (first (isRow g' a') (filter (fun m => negb (isRow g t m)) (groupMembers s))).
  rewrite first_filter_same; [reflexivity|].
  intros x Hx. rewrite (rows_differ _ _ _ _ _ Hne Hx). reflexivity.
Qed.

Lemma allowed_role s g a k :
  allowed (checkGroupPermission s g a k) = true ->
  exists r, getMemberRole s g a = Some r
            /\ userRole (checkGroupPermission s g a k) = Some r.
Proof.
  unfold checkGroupPermission, getMemberRole.
  destruct (membership s g a) as [m|]; cbn; [eauto|discriminate].
Qed.

(** X8.  Moderation respects rank.  When a role change succeeds, the
    requester is a member whose role is strictly above both the target's
    old role and the new one, the target has the new role afterwards and
    every other membership is as before.  When a removal succeeds, the
    requester's role is strictly above the target's, the target is no
    longer a member and every other membership is as before. *)
Theorem moderation_respects_rank
    (agent : ReqAgent) (groupId target : Id) (error : string) (e : Env)
    (w w' : World) (d : Data) :
  (forall role,
     tryCatch (changeRole agent groupId target role) error e w = (w', json d) ->
     exists mine old new,
       getMemberRole (db w) groupId (ra_id agent) = Some mine
       /\ getMemberRole (db w) groupId target = Some old
       /\ parseRole role = Some new
       /\ canModifyRole mine old = true
       /\ canModifyRole mine new = true
       /\ getMemberRole (db w') groupId target = Some new
       /\ forall g a, (g, a) <> (groupId, target) ->
            getMemberRole (db w') g a = getMemberRole (db w) g a)
  /\ (tryCatch (removeMember agent groupId target) error e w = (w', json d) ->
      exists mine old,
        getMemberRole (db w) groupId (ra_id agent) = Some mine
        /\ getMemberRole (db w) groupId target = Some old
        /\ canModifyRole mine old = true
        /\ getMemberRole (db w') groupId target = None
        /\ forall g a, (g, a) <> (groupId, target) ->
             getMemberRole (db w') g a = getMemberRole (db w) g a).
Proof.
  split.
  - intros role. unfold changeRole. monad.
    destruct (parseRole role) as [newRole|]; cbn; [|discriminate].
    branch; [discriminate|].
    destruct (negb (allowed (checkGroupPermission (db w) groupId (ra_id agent) setRoles)))
      eqn:Ea; cbn; [discriminate|].
    apply negb_false_iff in Ea. destruct (allowed_role _ _ _ _ Ea) as (mine & Hm & Hu).
    rewrite Hu.
    destruct (getMemberRole (db w) groupId target) as [old|] eqn:Et; cbn;
      [|discriminate].
    destruct (canModifyRole mine old) eqn:E1; cbn; [|discriminate].
    destruct (canModifyRole mine newRole) eqn:E2; cbn; [|discriminate].
    intros H. injection H as <- _.
    exists mine, old, newRole. repeat split; auto.
    + unfold getMemberRole in Et.
      destruct (membership (db w) groupId target) as [m0|] eqn:Em; [|discriminate].
      exact (role_updated _ _ _ _ _ Em).
    + intros g a Hne. apply role_elsewhere. exact Hne.
  - unfold removeMember. monad. cbn.
    branch; [discriminate|].
    destruct (negb (allowed (checkGroupPermission (db w) groupId (ra_id agent)
                               removeMembers))) eqn:Ea; cbn; [discriminate|].
    apply negb_false_iff in Ea. destruct (allowed_role _ _ _ _ Ea) as (mine & Hm & Hu).
    rewrite Hu.
    destruct (getMemberRole (db w) groupId target) as [old|] eqn:Et; cbn;
      [|discriminate].
    destruct (canModifyRole mine old) eqn:E1; cbn; [|discriminate].
    intros H. injection H as <- _.
    exists mine, old. repeat split; auto.
    + apply member_removed.
    + intros g a Hne. apply member_elsewhere. exact Hne.
Qed.


(** Ava makes Bob, who has joined her group, a moderator. *)
Lemma moderation_respects_rank_witness :
  exists mine old new,
    getMemberRole (db (run Sample.start (firstn 2 Sample.memberLeaves))) "u" "a1"
    = Some mine
    /\ getMemberRole (db (run Sample.start (firstn 2 Sample.memberLeaves))) "u" "b2"
       = Some old
    /\ parseRole (Some "moderator") = Some new
    /\ canModifyRole mine old = true
    /\ canModifyRole mine new = true.
Proof.
  destruct (moderation_respects_rank (reqAgentOf Sample.ava) "u" "b2"
              "Failed to change role" (Sample.at_ 30)
              (run Sample.start (firstn 2 Sample.memberLeaves))
              (fst (tryCatch (changeRole (reqAgentOf Sample.ava) "u" "b2" (Some "moderator"))
                      "Failed to change role" (Sample.at_ 30)
                      (run Sample.start (firstn 2 Sample.memberLeaves))))
              (DText "Changed Bob's role to moderator")) as [H _].
  destruct (H (Some "moderator")) as (mine & old & new & H1 & H2 & H3 & H4 & H5 & _).
  - vm_compute. reflexivity.
  - exists mine, old, new. auto.
Defined.

Lemma created_group s0 g a s1 s2 :
  insertGroup g s0 = Some s1 ->
  insertGroupMember (GroupMember.mk (Group.id g) a admin) s1 = Some s2 ->
  In g (groups s2)
  /\ first (fun x => Js.seq (Group.slug x) (Group.slug g)) (groups s2) <> None
  /\ isAdmin s2 (Group.id g) a = true
  /\ (forall m, In m (groupMembers s2) -> GroupMember.groupId m = Group.id g ->
                In m (groupMembers s0) \/ m = GroupMember.mk (Group.id g) a admin).
Proof.
  intros H1 H2. apply insertGroup_rows in H1. subst s1.
  apply insertGroupMember_rows in H2 as [-> Hm]. cbn in *.
  assert (Hin : In g (groups s0 ++ [g])) by (apply in_app_iff; right; left; reflexivity).
  repeat split.
  - exact Hin.
  - intros Hn. pose proof (first_none _ _ Hn g Hin) as Hf. cbn in Hf.
    rewrite seq_refl in Hf. discriminate.
  - unfold isAdmin, getMemberRole, membership. cbn.
    rewrite (first_app_none _ _ (GroupMember.mk (Group.id g) a admin)).
    + reflexivity.
    + exact Hm.
    + cbn. rewrite !seq_refl. reflexivity.
  - intros m Hin' _. apply in_app_iff in Hin' as [Hin'|[<-|[]]]; auto.
Qed.

(** X9.  Creating a group under a name of characters below U+0080.
    When the creation succeeds, the group is stored under that name and
    the slug of that name with the creator as an admin; and in every
    world that holds a group of that slug, this one or another, a
    creation under any such name with the same slug is refused with 409
    and changes nothing. *)
Theorem created_group_has_its_admin_and_its_slug
    (agent : ReqAgent) (name : string) (description : option string)
    (isPublic : option bool) (error : string) (e : Env) (w w1 : World) (g : Group.t) :
  Js.isAscii name = true ->
  tryCatch (create agent (Some name) description isPublic) error e w
    = (w1, created (DGroup g)) ->
  In g (groups (db w1))
  /\ Group.name g = name
  /\ Group.slug g = slugify name
  /\ isAdmin (db w1) (Group.id g) (ra_id agent) = true
  /\ forall w2 agent' name' description' isPublic' error' e',
       (exists g', In g' (groups (db w2)) /\ Group.slug g' = Group.slug g) ->
       Js.isAscii name' = true ->
       Js.truthy (Some name') = true ->
       slugify name' = slugify name ->
       tryCatch (create agent' (Some name') description' isPublic') error' e' w2
       = (w2, fail 409 "A group with this name already exists").
Proof.
  intros _. unfold create at 1. monad.
  branch; [discriminate|].
  branch; [discriminate|]. cbn.
  match goal with
  | |- context [insertGroup ?x (db w)] =>
      destruct (insertGroup x (db w)) as [s1|] eqn:Ei
  end; cbn; [|discriminate].
  match goal with
  | |- context [insertGroupMember ?x s1] =>
      destruct (insertGroupMember x s1) as [s2|] eqn:Ej
  end; cbn; [|discriminate].
  intros H. injection H as <- <-.
  destruct (created_group _ _ _ _ _ Ei Ej) as (Hin & Hslug & Hadm & _).
  cbn in Hin, Hslug, Hadm. cbn [db Group.name Group.slug Group.id].
  repeat split; auto.
  intros w2 agent' name' description' isPublic' error' e' (g' & Hin' & Hg') _ Ht Hs.
  change (Js.truthy (Some name') = true) in Ht.
  unfold create. monad. rewrite Ht. cbn. rewrite Hs.
  destruct (first _ (groups (db w2))) eqn:Ef; [reflexivity|].
  pose proof (first_none _ _ Ef g' Hin') as Hf. cbn in Hf.
  rewrite Hg', seq_refl in Hf. discriminate.
Qed.

(** Ava creates the group Reef Talk; Bob then asks for a group named
    REEF-TALK!, which has the same slug. *)
Lemma created_group_has_its_admin_and_its_slug_witness :
  exists w1 g,
    tryCatch (create (reqAgentOf Sample.ava) (Some "Reef Talk") None None)
      "Failed to create group" (Sample.at_ 10) Sample.start
    = (w1, created (DGroup g))
    /\ Group.slug g = "reef-talk"
    /\ tryCatch (create (reqAgentOf Sample.bob) (Some "REEF-TALK!") None None)
         "Failed to create group" (Sample.at_ 20) w1
       = (w1, fail 409 "A group with this name already exists").
Proof.
  eexists. eexists. split; [vm_compute; reflexivity|].
  split; [reflexivity|].
  refine (proj2 (proj2 (proj2 (proj2
    (created_group_has_its_admin_and_its_slug (reqAgentOf Sample.ava) "Reef Talk"
       None None "Failed to create group" (Sample.at_ 10) Sample.start _ _ eq_refl _))))
    _ (reqAgentOf Sample.bob) "REEF-TALK!" None None "Failed to create group"
    (Sample.at_ 20) _ eq_refl eq_refl eq_refl); [vm_compute; reflexivity|].
  eexists. split; [left; reflexivity|reflexivity].
Defined.

End MembershipFacts.

Module OrderFacts.
Import Query Terms.

Lemma before_asym a b : before a b = true -> before b a = false.
Proof.
  destruct a as [x|], b as [y|]; simpl; try reflexivity; try discriminate.
  intros H. apply Z.ltb_lt in H. apply Z.ltb_ge. lia.
Qed.

Lemma notLater_trans a b c : notLater a b -> notLater b c -> notLater a c.
Proof.
  unfold notLater. destruct a as [x|], b as [y|], c as [z|]; simpl;
    try reflexivity; try discriminate.
  rewrite !Z.ltb_ge. lia.
Qed.

Section Sorting.
Context {A : Type} (key : A -> option Timestamp).

Lemma insertDesc_perm x l : Permutation (insertDesc key x l) (x :: l).
Proof.
  induction l as [|y r IH]; simpl; [reflexivity|].
  destruct (before (key y) (key x)); [|reflexivity].
  rewrite IH. apply perm_swap.
Qed.

Lemma orderByDesc_perm l : Permutation (orderByDesc key l) l.
Proof.
  induction l as [|x r IH]; simpl; [reflexivity|].
  rewrite insertDesc_perm. constructor. exact IH.
Qed.

Lemma insertDesc_sorted x l :
  StronglySorted (newestFirst key) l -> StronglySorted (newestFirst key) (insertDesc key x l).
Proof.
  induction l as [|y r IH]; intros H; simpl.
  - constructor; constructor.
  - inversion H as [|? ? Hr Hy]; subst.
    destruct (before (key y) (key x)) eqn:E.
    + constructor; [auto|].
      apply (Permutation_Forall (Permutation_sym (insertDesc_perm x r))).
      constructor; [|exact Hy].
      unfold newestFirst, notLater. apply before_asym. exact E.
    + constructor; [exact H|].
      constructor; [exact E|].
      apply Forall_forall. intros z Hz. rewrite Forall_forall in Hy.
      unfold newestFirst in *. apply notLater_trans with (b := key y); auto.
Qed.

Lemma orderByDesc_sorted l : StronglySorted (newestFirst key) (orderByDesc key l).
Proof.
  induction l as [|x r IH]; simpl; [constructor|].
  apply insertDesc_sorted. exact IH.
Qed.

Lemma sorted_app (R : A -> A -> Prop) l l' :
  StronglySorted R (l ++ l') ->
  StronglySorted R l /\ StronglySorted R l'
  /\ forall x y, In x l -> In y l' -> R x y.
Proof.
  induction l as [|a r IH]; simpl; intros H.
  - repeat split; [constructor|exact H|intros x y []].
  - inversion H as [|? ? Hr Ha]; subst.
    destruct (IH Hr) as (H1 & H2 & H3).
    rewrite Forall_app in Ha. destruct Ha as [Ha1 Ha2].
    repeat split; [constructor; assumption|exact H2|].
    intros x y [<-|Hx] Hy; [|auto].
    rewrite Forall_forall in Ha2. auto.
Qed.

Lemma sorted_snoc (R : A -> A -> Prop) l x :
  StronglySorted R l -> Forall (fun y => R y x) l -> StronglySorted R (l ++ [x]).
Proof.
  induction l as [|a r IH]; simpl; intros H Hx.
  - constructor; constructor.
  - inversion H; subst. inversion Hx; subst.
    constructor; [auto|].
    apply Forall_app. split; [assumption|]. constructor; [assumption|constructor].
Qed.

Lemma sorted_rev (R : A -> A -> Prop) l :
  StronglySorted R l -> StronglySorted (fun x y => R y x) (rev l).
Proof.
  induction l as [|a r IH]; simpl; intros H; [constructor|].
  inversion H as [|? ? Hr Ha]; subst.
  apply sorted_snoc; [auto|].
  apply Forall_forall. intros y Hy. apply in_rev in Hy.
  rewrite Forall_forall in Ha. auto.
Qed.

(** The [n] newest rows, oldest first, and what is left out. *)
Lemma newest_rows n l :
  exists rest,
    Permutation l (firstn n (orderByDesc key l) ++ rest)
    /\ StronglySorted (oldestFirst key) (rev (firstn n (orderByDesc key l)))
    /\ forall x y, In x (firstn n (orderByDesc key l)) -> In y rest ->
                   notLater (key y) (key x).
Proof.
  exists (skipn n (orderByDesc key l)).
  pose proof (orderByDesc_sorted l) as Hs.
  rewrite <- (firstn_skipn n (orderByDesc key l)) in Hs.
  destruct (sorted_app _ _ _ Hs) as (H1 & H2 & H3).
  repeat split.
  - rewrite firstn_skipn. symmetry. apply orderByDesc_perm.
  - apply (sorted_rev (newestFirst key)). exact H1.
  - intros x y Hx Hy. exact (H3 x y Hx Hy).
Qed.

Lemma sorted_map {B} (f : B -> A) (R : A -> A -> Prop) (l : list B) :
  StronglySorted (fun x y => R (f x) (f y)) l -> StronglySorted R (map f l).
Proof.
  induction 1 as [|x r Hr IH Hx]; simpl; constructor; [exact IH|].
  apply Forall_forall. intros y Hy. apply in_map_iff in Hy as (z & <- & Hz).
  rewrite Forall_forall in Hx. auto.
Qed.

End Sorting.

End OrderFacts.

Module ListingFacts.
Import Permissions Messages OrderFacts Terms.

Lemma enrich_rows s rows :
  map (fun x => (em_message x, em_agent x)) (enrich s rows) = rows.
Proof.
  unfold enrich. rewrite map_map. cbn.
  induction rows as [|[m a] r IH]; simpl; [reflexivity|].
  f_equal. exact IH.
Qed.

(** X10.  The listing of a group.  When the listing succeeds, the
    requester is a member and nothing was changed; the messages come
    oldest first; and they are the newest ones: the messages of the
    group are those listed and a rest, none of which is later than a
    listed one. *)
Theorem group_listing_is_the_newest_in_order
    (agent : ReqAgent) (groupId : Id) (limit : option Z) (error : string)
    (e : Env) (w w' : World) (l : list EnrichedMessage) :
  tryCatch (getMessages agent groupId limit) error e w = (w', json (DGroupMessages l)) ->
  w' = w
  /\ isMember (db w) groupId (ra_id agent) = true
  /\ StronglySorted (oldestFirst (fun x => Message.createdAt (em_message x))) l
  /\ exists rest,
       Permutation (joined (db w) groupId)
         (rev (map (fun x => (em_message x, em_agent x)) l) ++ rest)
       /\ forall x r, In x l -> In r rest ->
            notLater (Message.createdAt (fst r)) (Message.createdAt (em_message x)).
Proof.
  unfold getMessages. monad. unfold isMember.
  destruct (membership (db w) groupId (ra_id agent)) as [m0|]; cbn; [|discriminate].
  unfold Query.limit.
  destruct (_ <? 0); cbn; [discriminate|].
  intros H. injection H as <- <-.
  split; [reflexivity|]. split; [reflexivity|].
  set (key := fun r : Message.t * ReqAgent => Message.createdAt (fst r)).
  set (n := Z.to_nat _).
  destruct (newest_rows key n (joined (db w) groupId)) as (rest & Hp & Hs & Hr).
  split.
  - unfold enrich. rewrite <- map_rev. apply sorted_map. exact Hs.
  - exists rest. rewrite map_rev, rev_involutive, enrich_rows.
    split; [exact Hp|].
    intros x r Hx Hin. apply in_rev in Hx.
    apply (Hr (em_message x, em_agent x) r); [|exact Hin].
    rewrite <- (enrich_rows (db w)). apply in_map_iff. eauto.
Qed.

(** The 101 messages of the busy group, listed with a limit of 3. *)
Lemma group_listing_is_the_newest_in_order_witness :
  exists l,
    tryCatch (getMessages (reqAgentOf Sample.ava) "g1" (Some 3))
      "Failed to get messages" (Sample.at_ 500) Sample.busy
    = (Sample.busy, json (DGroupMessages l))
    /\ map (fun x => Message.createdAt (em_message x)) l = [Some 98; Some 99; Some 100]
    /\ StronglySorted (oldestFirst (fun x => Message.createdAt (em_message x))) l.
Proof.
  eexists. split; [vm_compute; reflexivity|]. split; [reflexivity|].
  refine (proj1 (proj2 (proj2
    (group_listing_is_the_newest_in_order (reqAgentOf Sample.ava) "g1" (Some 3)
       "Failed to get messages" (Sample.at_ 500) Sample.busy Sample.busy _ _)))).
  vm_compute. reflexivity.
Defined.

End ListingFacts.

Module ThreadFacts.
Import Dm DmSpec OrderFacts Terms.







(** What [markRead] does to one row. *)
Definition readBy (from to : Id) (m : DirectMessage.t) : DirectMessage.t :=
  if Js.seq (DirectMessage.fromAgentId m) from
     && Js.seq (DirectMessage.toAgentId m) to
     && negb (DirectMessage.read m)
  then setRead m else m.

Lemma thread_store agent target limit error e w w' d :
  tryCatch (thread agent target limit) error e w = (w', json d) ->
  directMessages (db w')
  = map (readBy target (ra_id agent)) (directMessages (db w)).
Proof.
  intros H. unfold thread in H. unfold tryCatch, bind in H.
  destruct (DmExpiry.getOrCreate_cases (ra_id agent) target e w)
    as [(c & Hc & Hg)|(Hc & w0 & o & Hg & Ho)]; rewrite Hg in H; clear Hg.
  - monad. cbn in H.
    destruct (Query.limit _ _) as [rows|]; cbn in H; [|discriminate].
    injection H as <- _. reflexivity.
  - destruct o as [c|r0|]; [|contradiction|discriminate].
    destruct Ho as (Hdb & _).
    monad. cbn in H.
    destruct (Query.limit _ _) as [rows|]; cbn in H; [|discriminate].
    injection H as <- _. cbn. rewrite Hdb. reflexivity.
Qed.

(** X12.  Listing a thread marks as read every stored message the other
    agent sent to the requester, whether the listing shows it or not
    (it may lie beyond the limit, be cleared or have expired); nothing
    else about the stored messages changes: no row is added or removed,
    and a row is either unchanged or the same row with [read] set. *)
Theorem listing_a_thread_marks_it_read
    (agent : ReqAgent) (target : Id) (limit : option Z) (error : string)
    (e : Env) (w w' : World) (d : Data) :
  tryCatch (thread agent target limit) error e w = (w', json d) ->
  (forall m, In m (directMessages (db w')) ->
             DirectMessage.fromAgentId m = target ->
             DirectMessage.toAgentId m = ra_id agent ->
             DirectMessage.read m = true)
  /\ map DirectMessage.id (directMessages (db w'))
     = map DirectMessage.id (directMessages (db w))
  /\ (forall m, In m (directMessages (db w)) ->
                (DirectMessage.fromAgentId m <> target
                 \/ DirectMessage.toAgentId m <> ra_id agent
                 \/ DirectMessage.read m = true) ->
                In m (directMessages (db w')))
  /\ (forall m', In m' (directMessages (db w')) ->
                 exists m, In m (directMessages (db w))
                           /\ (m' = m \/ (m' = setRead m
                                          /\ DirectMessage.fromAgentId m = target
                                          /\ DirectMessage.toAgentId m = ra_id agent))).
Proof.
  intros H. rewrite (thread_store _ _ _ _ _ _ _ _ H). repeat split.
  - intros m Hin Hf Ht. apply in_map_iff in Hin as (m0 & <- & _).
    revert Hf Ht. unfold readBy.
    destruct (Js.seq (DirectMessage.fromAgentId m0) target
              && Js.seq (DirectMessage.toAgentId m0) (ra_id agent)) eqn:E; cbn.
    + destruct (DirectMessage.read m0) eqn:Er; cbn; auto.
    + intros Hf Ht. rewrite Hf, Ht, !seq_refl in E. discriminate.
  - rewrite map_map. apply map_ext. intros m. unfold readBy.
    destruct (_ && _); reflexivity.
  - intros m Hin Hcase. apply in_map_iff. exists m. split; [|exact Hin].
    unfold readBy.
    destruct (Js.seq (DirectMessage.fromAgentId m) target) eqn:E1; cbn; [|reflexivity].
    destruct (Js.seq (DirectMessage.toAgentId m) (ra_id agent)) eqn:E2; cbn;
      [|reflexivity].
    destruct (DirectMessage.read m) eqn:E3; cbn; [reflexivity|].
    apply seq_true in E1, E2. destruct Hcase as [Hc|[Hc|Hc]]; congruence.
  - intros m' Hin. apply in_map_iff in Hin as (m & <- & Hin).
    exists m. split; [exact Hin|]. unfold readBy.
    destruct (Js.seq (DirectMessage.fromAgentId m) target) eqn:E1; cbn; [|auto].
    destruct (Js.seq (DirectMessage.toAgentId m) (ra_id agent)) eqn:E2; cbn; [|auto].
    destruct (DirectMessage.read m); cbn; [auto|].
    apply seq_true in E1, E2. auto.
Qed.

(** Bob lists one message of the thread with Ava: both messages Ava
    sent him are marked read, and the rows are the same three. *)
Lemma listing_a_thread_marks_it_read_witness :
  map DirectMessage.read
    (directMessages
       (db (fst (tryCatch (thread (reqAgentOf Sample.bob) "a1" (Some 1))
                   "Failed to get direct messages" (Sample.at_ 50) Sample.three))))
  = [true; false; true]
  /\ map DirectMessage.id
       (directMessages
          (db (fst (tryCatch (thread (reqAgentOf Sample.bob) "a1" (Some 1))
                      "Failed to get direct messages" (Sample.at_ 50) Sample.three))))
     = map DirectMessage.id (directMessages (db Sample.three)).
Proof.
  split; [vm_compute; reflexivity|].
  refine (proj1 (proj2
    (listing_a_thread_marks_it_read (reqAgentOf Sample.bob) "a1" (Some 1)
       "Failed to get direct messages" (Sample.at_ 50) Sample.three _
       (DThread [mkEnrichedDm
                   (DirectMessage.mk "uiii" "a1" "b2" "three" None false false None None
                      (Some 30)) [] None]) _))).
  vm_compute. reflexivity.
Defined.

End ThreadFacts.

Module BlockFacts.
Import Dm DmSpec.

Definition isBlock (blocker blocked : Id) (b : AgentBlock.t) : bool :=
  Js.seq (AgentBlock.blockerId b) blocker && Js.seq (AgentBlock.blockedId b) blocked.

Lemma filter_last {A} (p : A -> bool) (l : list A) (x : A) :
  first p l = None -> p x = true ->
  filter (fun y => negb (p y)) (l ++ [x]) = l.
Proof.
  intros Hl Hx. rewrite filter_app. simpl. rewrite Hx. simpl. rewrite app_nil_r.
  pose proof (first_none _ _ Hl) as Hn. clear Hl.
  induction l as [|y r IH]; simpl; [reflexivity|].
  rewrite (Hn y (or_introl eq_refl)). simpl. rewrite IH; [reflexivity|].
  intros a Ha. apply Hn. right. exact Ha.
Qed.

Lemma insertBlock_rows b s s' :
  insertBlock b s = Some s' ->
  s' = set_agentBlocks s (agentBlocks s ++ [b])
  /\ isBlocked s (AgentBlock.blockerId b) (AgentBlock.blockedId b) = false.
Proof.
  unfold insertBlock. intros H.
  destruct (negb (is_some (agentById s (AgentBlock.blockerId b)))); [discriminate|].
  destruct (negb (is_some (agentById s (AgentBlock.blockedId b)))); [discriminate|].
  destruct (isBlocked s (AgentBlock.blockerId b) (AgentBlock.blockedId b));
    [discriminate|].
  injection H as <-. auto.
Qed.

Lemma unblock_unblocks agent target error e w :
  exists w',
    tryCatch (unblock agent target) error e w = (w', json (DText "Agent unblocked"))
    /\ isBlocked (db w') (ra_id agent) target = false
    /\ forall a b, (a, b) <> (ra_id agent, target) ->
                   isBlocked (db w') a b = isBlocked (db w) a b.
Proof.
  unfold unblock. monad. cbn. eexists. split; [reflexivity|]. cbn.
  unfold isBlocked. cbn. split.
  - rewrite MembershipFacts.first_filter_none; [reflexivity|].
    intros x Hx. cbv beta in Hx. rewrite Hx. reflexivity.
  - intros a b Hne. rewrite MembershipFacts.first_filter_same; [reflexivity|].
    intros x Hx. cbv beta in Hx.
    destruct (Js.seq (AgentBlock.blockerId x) (ra_id agent)
              && Js.seq (AgentBlock.blockedId x) target) eqn:E; [|reflexivity].
    exfalso. apply Hne.
    apply andb_true_iff in Hx as [H1 H2]. apply andb_true_iff in E as [H3 H4].
    apply seq_true in H1, H2, H3, H4. congruence.
Qed.

(** Unblocking under a text the database reads as [target] is the
    unblocking of [target]. *)
Lemma unblock_reads agent T target e w :
  Pg.uuid (ra_id agent) = Some (ra_id agent) -> Pg.uuid T = Some target ->
  DmWire.unblock agent T e w = unblock agent target e w.
Proof.
  intros Ha HT. unfold DmWire.unblock, unblock, Pg.param. cbv zeta.
  rewrite Ha, HT. reflexivity.
Qed.

(** X13.  Blocking and unblocking, the other agent named by a text [T]
    of the request.  When [T] does not read as a uuid, both routes
    answer 500 and change nothing.  When [T] reads as the id [target],
    unblocking answers 200, leaves [target] unblocked by the requester
    and touches no other pair; once a block has succeeded [target] is
    blocked, blocking again is refused with 400 and changes nothing,
    and unblocking, under any spelling of the id, gives back the store
    the requester started from. *)
Theorem block_then_unblock_restores_the_store
    (agent : ReqAgent) (T : string) (error error' : string) (e e' : Env)
    (w w1 : World) (d : Data) :
  Pg.uuid (ra_id agent) = Some (ra_id agent) ->
  (Pg.uuid T = None ->
   tryCatch (DmWire.block agent T) error e w = (w, fail 500 error)
   /\ tryCatch (DmWire.unblock agent T) error' e' w = (w, fail 500 error'))
  /\ (forall target,
        Pg.uuid T = Some target ->
        (exists w',
            tryCatch (DmWire.unblock agent T) error' e' w
            = (w', json (DText "Agent unblocked"))
            /\ isBlocked (db w') (ra_id agent) target = false
            /\ forall a b, (a, b) <> (ra_id agent, target) ->
                           isBlocked (db w') a b = isBlocked (db w) a b)
        /\ (tryCatch (DmWire.block agent T) error e w = (w1, json d) ->
            isBlocked (db w) (ra_id agent) target = false
            /\ isBlocked (db w1) (ra_id agent) target = true
            /\ tryCatch (DmWire.block agent T) error' e' w1
               = (w1, fail 400 "Agent is already blocked")
            /\ forall T',
                 Pg.uuid T' = Some target ->
                 exists w2,
                   tryCatch (DmWire.unblock agent T') error' e' w1
                   = (w2, json (DText "Agent unblocked"))
                   /\ db w2 = db w)).
Proof.
  intros Ha. split.
  - intros HT. split.
    + unfold DmWire.block, Pg.param. cbv zeta. rewrite HT. monad.
      destruct (Js.seq T (ra_id agent)) eqn:Eself; [|reflexivity].
      apply seq_true in Eself. congruence.
    + unfold DmWire.unblock, Pg.param. cbv zeta. rewrite Ha, HT. reflexivity.
  - intros target HT. split.
    + unfold tryCatch. rewrite (unblock_reads _ _ _ _ _ Ha HT).
      exact (unblock_unblocks agent target error' e' w).
    + unfold DmWire.block at 1. unfold Pg.param. cbv zeta. rewrite Ha, HT. monad.
      destruct (Js.seq T (ra_id agent)) eqn:Eself; cbn; [discriminate|].
      destruct (agentById (db w) target) as [ta|] eqn:Eta; cbn; [|discriminate].
      destruct (isBlocked (db w) (ra_id agent) target) eqn:Eb; cbn; [discriminate|].
      match goal with
      | |- context [insertBlock ?b (db w)] =>
          destruct (insertBlock b (db w)) as [s1|] eqn:Ei
      end; cbn; [|discriminate].
      apply insertBlock_rows in Ei as [-> _].
      intros H. injection H as <- _.
      remember (set_agentBlocks (db w)
                  (agentBlocks (db w) ++ [AgentBlock.mk (ra_id agent) target]))
        as s1 eqn:Es1.
      assert (Hnow : isBlocked s1 (ra_id agent) target = true).
      { subst s1. unfold isBlocked. cbn.
        rewrite (first_app_none _ _ (AgentBlock.mk (ra_id agent) target)).
        - reflexivity.
        - apply is_some_false. exact Eb.
        - cbn. rewrite !seq_refl. reflexivity. }
      assert (Hta : agentById s1 target = Some ta) by (subst s1; exact Eta).
      split; [reflexivity|]. split; [exact Hnow|]. split.
      * unfold DmWire.block, Pg.param. cbv zeta. rewrite Ha, HT. monad.
        rewrite Eself. cbn. rewrite Hta. cbn. rewrite Hnow. reflexivity.
      * intros T' HT'. rewrite (unblock_reads _ _ _ _ _ Ha HT').
        unfold unblock. monad. cbn. eexists. split; [reflexivity|]. subst s1. cbn.
        rewrite (filter_last (isBlock (ra_id agent) target)).
        -- destruct (db w). reflexivity.
        -- apply is_some_false. exact Eb.
        -- unfold isBlock. cbn. rewrite !seq_refl. reflexivity.
Qed.

(** Ann blocks Ben, naming him by his id in upper case, and unblocks
    him under his id in lower case; a request that names him [ben] is
    answered 500. *)
Lemma block_then_unblock_restores_the_store_witness :
  Pg.uuid (Agent.id SampleWire.ann) = Some (Agent.id SampleWire.ann)
  /\ Pg.uuid SampleWire.BEN = Some (Agent.id SampleWire.ben)
  /\ Pg.uuid "ben" = None
  /\ tryCatch (DmWire.unblock (reqAgentOf SampleWire.ann) "ben") "Failed to unblock agent"
       (SampleWire.at_ 20) SampleWire.three
     = (SampleWire.three, fail 500 "Failed to unblock agent")
  /\ exists w2,
       tryCatch (DmWire.unblock (reqAgentOf SampleWire.ann) (Agent.id SampleWire.ben))
         "Failed to unblock agent" (SampleWire.at_ 20)
         (fst (tryCatch (DmWire.block (reqAgentOf SampleWire.ann) SampleWire.BEN)
                 "Failed to block agent" (SampleWire.at_ 10) SampleWire.three))
       = (w2, json (DText "Agent unblocked"))
       /\ db w2 = db SampleWire.three.
Proof.
  split; [reflexivity|]. split; [reflexivity|]. split; [reflexivity|].
  split.
  - exact (proj2 (proj1
      (block_then_unblock_restores_the_store (reqAgentOf SampleWire.ann) "ben"
         "Failed to block agent" "Failed to unblock agent" (SampleWire.at_ 10)
         (SampleWire.at_ 20) SampleWire.three SampleWire.three (DText "Blocked Ben")
         eq_refl) eq_refl)).
  - refine (proj2 (proj2 (proj2 (proj2 (proj2
      (block_then_unblock_restores_the_store (reqAgentOf SampleWire.ann) SampleWire.BEN
         "Failed to block agent" "Failed to unblock agent" (SampleWire.at_ 10)
         (SampleWire.at_ 20) SampleWire.three _ (DText "Blocked Ben") eq_refl)
      (Agent.id SampleWire.ben) eq_refl) _))) (Agent.id SampleWire.ben) eq_refl).
    vm_compute. reflexivity.
Defined.

End BlockFacts.

Module DmReactionFacts.
Import Dm DmSpec.

Lemma insertReaction_rows r s s' :
  insertReaction r s = Some s' ->
  s' = set_dmReactions s (dmReactions s ++ [r]).
Proof.
  unfold insertReaction. intros H.
  match type of H with (if ?c then _ else _) = _ => destruct c end; [discriminate|].
  injection H as <-. reflexivity.
Qed.

(** X14.  Reactions on a direct message.  When a reaction is added, its
    type is one of like, love, angry and sad, the message exists and the
    requester is its sender or its recipient; the reaction is appended
    to the stored ones; the same reaction a second time is refused with
    400 and changes nothing; and removing it gives back the store the
    requester started from. *)
Theorem dm_reaction_round_trip
    (agent : ReqAgent) (messageId : Id) (type : option string)
    (error error' : string) (e e' : Env) (w w1 : World) (d : Data) :
  tryCatch (react agent messageId type) error e w = (w1, json d) ->
  exists t emoji message,
    type = Some t
    /\ ALLOWED_REACTIONS t = Some emoji
    /\ dmById (db w) messageId = Some message
    /\ (DirectMessage.fromAgentId message = ra_id agent
        \/ DirectMessage.toAgentId message = ra_id agent)
    /\ dmReactions (db w1)
       = dmReactions (db w) ++ [DmReaction.mk messageId (ra_id agent) emoji]
    /\ tryCatch (react agent messageId type) error' e' w1
       = (w1, fail 400 "You already reacted with this emoji")
    /\ exists w2,
         tryCatch (unreact agent messageId emoji) error' e' w1
         = (w2, json (DText "Reaction removed"))
         /\ db w2 = db w.
Proof.
  unfold react at 1. monad.
  destruct type as [t|]; [|cbn; discriminate]. cbv beta iota.
  destruct (negb (Js.truthy (Some t))
            || negb (is_some (ALLOWED_REACTIONS t) || inherited t)) eqn:Ev; cbn;
    [discriminate|].
  destruct (dmById (db w) messageId) as [message|] eqn:Em; cbn; [|discriminate].
  destruct (negb (Js.seq (DirectMessage.fromAgentId message) (ra_id agent))
            && negb (Js.seq (DirectMessage.toAgentId message) (ra_id agent))) eqn:Ep;
    cbn; [discriminate|].
  destruct (ALLOWED_REACTIONS t) as [emoji|] eqn:Et; cbn; [|discriminate].
  destruct (first (isReaction messageId (ra_id agent) emoji) (dmReactions (db w)))
    as [x|] eqn:Ex; cbn; [discriminate|].
  match goal with
  | |- context [insertReaction ?r (db w)] =>
      destruct (insertReaction r (db w)) as [s1|] eqn:Ei
  end; cbn; [|discriminate].
  apply insertReaction_rows in Ei.
  intros H. injection H as <- _.
  exists t, emoji, message.
  split; [reflexivity|]. split; [exact Et|]. split; [reflexivity|]. split.
  { apply andb_false_iff in Ep as [Ep|Ep]; apply negb_false_iff, seq_true in Ep; auto. }
  assert (Hm : dmById s1 messageId = Some message) by (subst s1; exact Em).
  assert (Hr : first (isReaction messageId (ra_id agent) emoji) (dmReactions s1)
               = Some (DmReaction.mk messageId (ra_id agent) emoji)).
  { subst s1. cbn. apply first_app_none; [exact Ex|].
    unfold isReaction. cbn. rewrite !seq_refl. reflexivity. }
  split; [subst s1; reflexivity|]. split.
  - unfold react. monad. cbn [db].
    cbv beta iota. rewrite Et, Ev. cbn. rewrite Hm. cbn. rewrite Ep. cbn.
    rewrite Hr. reflexivity.
  - unfold unreact. monad. cbn. rewrite Hm. cbn. eexists. split; [reflexivity|].
    cbn. subst s1. cbn.
    rewrite (BlockFacts.filter_last (isReaction messageId (ra_id agent) emoji)).
    + destruct (db w). reflexivity.
    + exact Ex.
    + unfold isReaction. cbn. rewrite !seq_refl. reflexivity.
Qed.

(** Bob likes the message Ava sent him, and takes the reaction back. *)
Lemma dm_reaction_round_trip_witness :
  exists w2,
    tryCatch (unreact (reqAgentOf Sample.bob) "ui" "👍") "Failed to remove reaction"
      (Sample.at_ 30)
      (fst (tryCatch (react (reqAgentOf Sample.bob) "ui" (Some "like"))
              "Failed to add reaction" (Sample.at_ 20) Sample.talking))
    = (w2, json (DText "Reaction removed"))
    /\ db w2 = db Sample.talking.
Proof.
  destruct (dm_reaction_round_trip (reqAgentOf Sample.bob) "ui" (Some "like")
              "Failed to add reaction" "Failed to remove reaction"
              (Sample.at_ 20) (Sample.at_ 30) Sample.talking
              (fst (tryCatch (react (reqAgentOf Sample.bob) "ui" (Some "like"))
                      "Failed to add reaction" (Sample.at_ 20) Sample.talking))
              (DText "Reaction added"))
    as (t & emoji & message & Ht & He & _ & _ & _ & _ & H).
  - vm_compute. reflexivity.
  - injection Ht as <-. vm_compute in He. injection He as <-. exact H.
Defined.

End DmReactionFacts.

Module TimerFacts.
Import Dm DmSpec.





End TimerFacts.

Module TrimFacts.
Import Terms.

Lemma append_nil (s : string) : (s ++ EmptyString)%string = s.
Proof. induction s as [|c r IH]; simpl; [|rewrite IH]; reflexivity. Qed.

Lemma append_assoc (s t u : string) : ((s ++ t) ++ u)%string = (s ++ t ++ u)%string.
Proof. induction s as [|c r IH]; simpl; [|rewrite IH]; reflexivity. Qed.

Lemma rev_string_acc s : forall acc,
  Js.rev_string acc s = (Js.rev_string EmptyString s ++ acc)%string.
Proof.
  induction s as [|c r IH]; intros acc; simpl; [reflexivity|].
  rewrite (IH (String c acc)), (IH (String c EmptyString)).
  rewrite append_assoc. reflexivity.
Qed.

Lemma rev_string_app s t :
  Js.rev_string EmptyString (s ++ t)
  = (Js.rev_string EmptyString t ++ Js.rev_string EmptyString s)%string.
Proof.
  induction s as [|c r IH]; simpl.
  - rewrite append_nil. reflexivity.
  - rewrite (rev_string_acc (r ++ t)), (rev_string_acc r), IH.
    rewrite append_assoc. reflexivity.
Qed.

Lemma rev_string_involutive s :
  Js.rev_string EmptyString (Js.rev_string EmptyString s) = s.
Proof.
  induction s as [|c r IH]; simpl; [reflexivity|].
  rewrite (rev_string_acc r), rev_string_app, IH. reflexivity.
Qed.

Section Strip.

Variable two : ascii -> ascii -> bool.
Variable three : ascii -> ascii -> ascii -> bool.

(** One character that [strip] removes. *)
Definition piece (x : string) : Prop :=
  match x with
  | String a EmptyString => Js.is_space a = true
  | String a (String b EmptyString) => two a b = true
  | String a (String b (String c EmptyString)) => three a b c = true
  | _ => False
  end.

(** No such character is at the head of the text. *)
Definition headless (t : string) : Prop :=
  match t with
  | String a r1 =>
      Js.is_space a = false
      /\ match r1 with
         | String b r2 =>
             two a b = false
             /\ match r2 with
                | String c _ => three a b c = false
                | EmptyString => True
                end
         | EmptyString => True
         end
  | EmptyString => True
  end.

(** [strip] removes characters of white space from the head of the
    text and stops at the first other character. *)
Lemma strip_split s :
  exists l, Forall piece l
            /\ s = (fold_right String.append EmptyString l ++ Js.strip two three s)%string
            /\ headless (Js.strip two three s).
Proof.
  assert (H : forall n s, (String.length s <= n)%nat ->
            exists l, Forall piece l
              /\ s = (fold_right String.append EmptyString l ++ Js.strip two three s)%string
              /\ headless (Js.strip two three s)).
  { clear s. induction n as [|n IH]; intros s Hn.
    - destruct s; [|simpl in Hn; lia]. exists []. simpl. auto.
    - destruct s as [|a r1]; [exists []; simpl; auto|].
      simpl in Hn. simpl. destruct (Js.is_space a) eqn:Ea.
      + destruct (IH r1 ltac:(lia)) as (l & Hl & Hs & Hh).
        exists (String a EmptyString :: l). split; [constructor; [exact Ea|exact Hl]|].
        split; [|exact Hh]. simpl. rewrite <- Hs. reflexivity.
      + destruct r1 as [|b r2]; [exists []; simpl; rewrite Ea; auto|].
        simpl in Hn. destruct (two a b) eqn:Eb.
        * destruct (IH r2 ltac:(lia)) as (l & Hl & Hs & Hh).
          exists (String a (String b EmptyString) :: l).
          split; [constructor; [exact Eb|exact Hl]|].
          split; [|exact Hh]. simpl. rewrite <- Hs. reflexivity.
        * destruct r2 as [|c r3]; [exists []; simpl; rewrite Ea, Eb; auto|].
          simpl in Hn. destruct (three a b c) eqn:Ec.
          -- destruct (IH r3 ltac:(lia)) as (l & Hl & Hs & Hh).
             exists (String a (String b (String c EmptyString)) :: l).
             split; [constructor; [exact Ec|exact Hl]|].
             split; [|exact Hh]. simpl. rewrite <- Hs. reflexivity.
          -- exists []. simpl. rewrite Ea, Eb, Ec. auto. }
  exact (H (String.length s) s (le_n _)).
Qed.

End Strip.

Lemma ascii_is n c : nat_of_ascii c = n -> c = ascii_of_nat n.
Proof. intros <-. symmetry. apply ascii_nat_embedding. Qed.

Lemma is_space_white a : Js.is_space a = true -> In (String a EmptyString) whiteSpace.
Proof.
  unfold Js.is_space. cbv zeta. intros H.
  assert (Hn : (nat_of_ascii a = 9 \/ nat_of_ascii a = 10 \/ nat_of_ascii a = 11
                \/ nat_of_ascii a = 12 \/ nat_of_ascii a = 13 \/ nat_of_ascii a = 32)%nat).
  { apply orb_true_iff in H as [H|H].
    - apply andb_true_iff in H as [H1 H2]. apply Nat.leb_le in H1, H2. lia.
    - apply Nat.eqb_eq in H. lia. }
  destruct Hn as [Hn|[Hn|[Hn|[Hn|[Hn|Hn]]]]]; rewrite (ascii_is _ _ Hn);
    vm_compute; tauto.
Qed.

Lemma is_space2_white a b :
  Js.is_space2 a b = true -> In (String a (String b EmptyString)) whiteSpace.
Proof.
  unfold Js.is_space2. intros H. apply andb_true_iff in H as [H1 H2].
  apply Nat.eqb_eq in H1, H2. rewrite (ascii_is _ _ H1), (ascii_is _ _ H2).
  vm_compute. tauto.
Qed.

Lemma is_space3_white a b c :
  Js.is_space3 a b c = true ->
  In (String a (String b (String c EmptyString))) whiteSpace.
Proof.
  unfold Js.is_space3. cbv zeta. intros H.
  assert (Hn : exists x y z, nat_of_ascii a = x /\ nat_of_ascii b = y /\ nat_of_ascii c = z
                 /\ In [x; y; z]
                      [[225; 154; 128];
                       [226; 128; 128]; [226; 128; 129]; [226; 128; 130]; [226; 128; 131];
                       [226; 128; 132]; [226; 128; 133]; [226; 128; 134]; [226; 128; 135];
                       [226; 128; 136]; [226; 128; 137]; [226; 128; 138];
                       [226; 128; 168]; [226; 128; 169]; [226; 128; 175]; [226; 129; 159];
                       [227; 128; 128]; [239; 187; 191]]%nat).
  { exists (nat_of_ascii a), (nat_of_ascii b), (nat_of_ascii c).
    split; [reflexivity|]. split; [reflexivity|]. split; [reflexivity|].
    repeat match goal with
           | E : (_ || _)%bool = true |- _ => apply orb_true_iff in E; destruct E as [E|E]
           | E : (_ && _)%bool = true |- _ => apply andb_true_iff in E; destruct E as [? E]
           | E : (_ =? _)%nat = true |- _ => apply Nat.eqb_eq in E; rewrite E
           | E : (_ <=? _)%nat = true |- _ => apply Nat.leb_le in E
           end;
      try (simpl; tauto).
    assert (Hz : (nat_of_ascii c = 128 \/ nat_of_ascii c = 129 \/ nat_of_ascii c = 130
                  \/ nat_of_ascii c = 131 \/ nat_of_ascii c = 132 \/ nat_of_ascii c = 133
                  \/ nat_of_ascii c = 134 \/ nat_of_ascii c = 135 \/ nat_of_ascii c = 136
                  \/ nat_of_ascii c = 137 \/ nat_of_ascii c = 138)%nat) by lia.
    repeat destruct Hz as [Hz|Hz]; rewrite Hz; simpl; tauto. }
  destruct Hn as (x & y & z & Hx & Hy & Hz & Hin).
  rewrite (ascii_is _ _ Hx), (ascii_is _ _ Hy), (ascii_is _ _ Hz).
  simpl in Hin.
  repeat (destruct Hin as [Hin|Hin]; [injection Hin as <- <- <-; vm_compute; tauto|]).
  contradiction.
Qed.

Lemma piece_white x : piece Js.is_space2 Js.is_space3 x -> In x whiteSpace.
Proof.
  destruct x as [|a [|b [|c [|d r]]]]; simpl; try contradiction.
  - apply is_space_white.
  - apply is_space2_white.
  - apply is_space3_white.
Qed.

Lemma piece_white_rev x :
  piece (fun a b => Js.is_space2 b a) (fun a b c => Js.is_space3 c b a) x ->
  In (Js.rev_string EmptyString x) whiteSpace.
Proof.
  destruct x as [|a [|b [|c [|d r]]]]; simpl; try contradiction.
  - apply is_space_white.
  - apply is_space2_white.
  - apply is_space3_white.
Qed.

(** A text at whose head [strip] finds nothing to remove begins with no
    character of white space. *)
Lemma headless_head t sp u :
  headless Js.is_space2 Js.is_space3 t -> In sp whiteSpace -> t <> (sp ++ u)%string.
Proof.
  intros Hh Hin ->. vm_compute in Hin.
  repeat (destruct Hin as [<-|Hin];
          [vm_compute in Hh; decompose [and] Hh; discriminate|]).
  contradiction.
Qed.

Lemma headless_head_rev t sp u :
  headless (fun a b => Js.is_space2 b a) (fun a b c => Js.is_space3 c b a) t ->
  In sp whiteSpace -> t <> (Js.rev_string EmptyString sp ++ u)%string.
Proof.
  intros Hh Hin ->. vm_compute in Hin.
  repeat (destruct Hin as [<-|Hin];
          [vm_compute in Hh; decompose [and] Hh; discriminate|]).
  contradiction.
Qed.

Lemma fold_append_app l1 l2 :
  fold_right String.append EmptyString (l1 ++ l2)
  = (fold_right String.append EmptyString l1
     ++ fold_right String.append EmptyString l2)%string.
Proof.
  induction l1 as [|x l IH]; simpl; [reflexivity|].
  rewrite IH, append_assoc. reflexivity.
Qed.

Lemma rev_string_fold l :
  Js.rev_string EmptyString (fold_right String.append EmptyString l)
  = fold_right String.append EmptyString (rev (map (Js.rev_string EmptyString) l)).
Proof.
  induction l as [|x l IH]; simpl; [reflexivity|].
  rewrite rev_string_app, IH, fold_append_app. simpl.
  rewrite append_nil. reflexivity.
Qed.

(** What [trim] gives: the text between a head and a tail of white
    space, with no white space at either end. *)
Lemma trim_spec s :
  (exists p q, s = (p ++ Js.trim s ++ q)%string /\ white p /\ white q)
  /\ (forall sp u, In sp whiteSpace ->
                   Js.trim s <> (sp ++ u)%string /\ Js.trim s <> (u ++ sp)%string).
Proof.
  unfold Js.trim, Js.trimStart.
  destruct (strip_split Js.is_space2 Js.is_space3 s) as (l1 & Hl1 & Hs1 & Hh1).
  set (t1 := Js.strip Js.is_space2 Js.is_space3 s) in *.
  destruct (strip_split (fun a b => Js.is_space2 b a) (fun a b c => Js.is_space3 c b a)
              (Js.rev_string EmptyString t1)) as (l2 & Hl2 & Hs2 & Hh2).
  set (t2 := Js.strip _ _ (Js.rev_string EmptyString t1)) in *.
  assert (Ht1 : t1 = (Js.rev_string EmptyString t2
                      ++ fold_right String.append EmptyString
                           (rev (map (Js.rev_string EmptyString) l2)))%string).
  { rewrite <- (rev_string_involutive t1), Hs2 at 1.
    rewrite rev_string_app, rev_string_fold. reflexivity. }
  split.
  - exists (fold_right String.append EmptyString l1),
           (fold_right String.append EmptyString
              (rev (map (Js.rev_string EmptyString) l2))).
    split; [rewrite <- Ht1; exact Hs1|]. split.
    + exists l1. split; [|reflexivity].
      eapply Forall_impl; [|exact Hl1]. exact piece_white.
    + eexists. split; [|reflexivity].
      apply Forall_rev, Forall_map.
      eapply Forall_impl; [|exact Hl2]. exact piece_white_rev.
  - intros sp u Hin. split.
    + intros E. rewrite E, append_assoc in Ht1.
      exact (headless_head _ _ _ Hh1 Hin Ht1).
    + intros E.
      apply (headless_head_rev t2 sp (Js.rev_string EmptyString u) Hh2 Hin).
      rewrite <- rev_string_app, <- E, rev_string_involutive. reflexivity.
Qed.

Lemma not_blank content :
  Messages.blank content = false ->
  exists c, content = Some c /\ Js.trim c <> EmptyString.
Proof.
  unfold Messages.blank. destruct content as [c|]; [|discriminate].
  intros H. apply orb_false_iff in H as [_ H]. exists c. split; [reflexivity|].
  intros E. rewrite E in H. discriminate.
Qed.

Lemma trim_tidy content :
  Messages.blank content = false ->
  exists c p q,
    content = Some c
    /\ c = (p ++ Js.trim c ++ q)%string /\ white p /\ white q
    /\ tidy (Js.trim c).
Proof.
  intros H. destruct (not_blank _ H) as (c & -> & Hc).
  destruct (trim_spec c) as ((p & q & Hs & Hp & Hq) & Hends).
  exists c, p, q. split; [reflexivity|]. split; [exact Hs|].
  split; [exact Hp|]. split; [exact Hq|]. split; [exact Hc|exact Hends].
Qed.

Lemma insertMessage_in m s s' :
  Messages.insertMessage m s = Some s' -> In m (messages s').
Proof.
  unfold Messages.insertMessage. intros H.
  match type of H with (if ?c then _ else _) = _ => destruct c end; [discriminate|].
  injection H as <-. simpl. apply in_app_iff. right. left. reflexivity.
Qed.

(** X16.  What is stored is trimmed.  A group message or a direct
    message that is accepted is a row of the store afterwards; its
    content is the content of the request without the white space,
    in the sense of [String.prototype.trim], around it: the request's
    content is a text of white space, the stored content and a text of
    white space, and the stored content is not empty and neither begins
    nor ends with a character of white space. *)
Theorem stored_content_is_trimmed :
  (forall agent groupId content replyToId error e w w' m a,
      tryCatch (Messages.send agent groupId content replyToId) error e w
      = (w', created (DGroupMessage m a)) ->
      In m (messages (db w'))
      /\ exists c p q,
           content = Some c
           /\ Message.content m = Js.trim c
           /\ c = (p ++ Message.content m ++ q)%string /\ white p /\ white q
           /\ tidy (Message.content m))
  /\ (forall insertedAt agent target content replyToId error e w w' m from to,
         tryCatch (Dm.sendAt insertedAt agent target content replyToId) error e w
         = (w', created (DDm m from to)) ->
         In m (directMessages (db w'))
         /\ exists c p q,
              content = Some c
              /\ DirectMessage.content m = Js.trim c
              /\ c = (p ++ DirectMessage.content m ++ q)%string /\ white p /\ white q
              /\ tidy (DirectMessage.content m)).
Proof.
  split.
  - intros agent groupId content replyToId error e w w' m a H.
    unfold Messages.send in H. monad.
    destruct (Messages.blank content) eqn:Eb; cbn in H; [discriminate|].
    destruct (trim_tidy _ Eb) as (c & p & q & Hc & Hs & Hp & Hq & Ht).
    destruct (Permissions.membership (db w) groupId (ra_id agent)); cbn in H;
      [|discriminate].
    match type of H with
    | context [Messages.insertMessage ?x ?s] =>
        destruct (Messages.insertMessage x s) eqn:Ei; cbn in H; [|discriminate]
    end.
    injection H as <- <- _. cbn. split; [exact (insertMessage_in _ _ _ Ei)|].
    exists c, p, q. rewrite Hc. cbn.
    (split; [reflexivity|]); (split; [reflexivity|]); (split; [exact Hs|]);
      (split; [exact Hp|]); (split; [exact Hq|exact Ht]).
  - intros insertedAt agent target content replyToId error e w w' m from to H.
    destruct (DmExpiry.send_expiry _ _ _ _ _ _ _ _ _ _ _ _ H) as (Hin & _).
    split; [exact Hin|].
    unfold Dm.sendAt in H. monad.
    destruct (Messages.blank content) eqn:Eb; cbn in H; [discriminate|].
    destruct (trim_tidy _ Eb) as (c & p & q & Hc & Hs & Hp & Hq & Ht).
    destruct (agentById (db w) target) as [ta|]; cbn in H; [|discriminate].
    destruct (Js.seq target (ra_id agent)); cbn in H; [discriminate|].
    destruct (Dm.isBlocked (db w) target (ra_id agent)); cbn in H; [discriminate|].
    destruct (DmExpiry.getOrCreate_cases (ra_id agent) target e w)
      as [(c0 & _ & Hg)|(_ & w1 & o & Hg & Ho)]; rewrite Hg in H; clear Hg;
      [|destruct o as [c0|r|]; [|contradiction|discriminate]].
    all: DmExpiry.reply_check H.
    all: match type of H with
         | context [Dm.insertDm ?x ?s] =>
             destruct (Dm.insertDm x s); cbn in H; [|discriminate]
         end.
    all: injection H as _ <- _ _; exists c, p, q; rewrite Hc; cbn;
      (split; [reflexivity|]); (split; [reflexivity|]); (split; [exact Hs|]);
      (split; [exact Hp|]); (split; [exact Hq|exact Ht]).
Qed.

(** Ava's message with white space around it, a no-break space at its
    head. *)
Lemma stored_content_is_trimmed_witness :
  exists w' m from to,
    tryCatch (Dm.sendAt 100 (reqAgentOf Sample.ava) "b2"
                (Some (bytes [194; 160; 32]%nat ++ "see you"
                      ++ bytes [32; 226; 128; 137; 10]%nat)%string)
                None)
      "Failed to send direct message" (Sample.at_ 100) Sample.agreed
    = (w', created (DDm m from to))
    /\ In m (directMessages (db w'))
    /\ DirectMessage.content m = "see you"
    /\ tidy (DirectMessage.content m).
Proof.
  destruct (tryCatch (Dm.sendAt 100 (reqAgentOf Sample.ava) "b2"
              (Some (bytes [194; 160; 32]%nat ++ "see you"
                      ++ bytes [32; 226; 128; 137; 10]%nat)%string)
              None)
            "Failed to send direct message" (Sample.at_ 100) Sample.agreed)
    as [w' r] eqn:E.
  assert (Hr : exists m from to,
             r = created (DDm m from to) /\ DirectMessage.content m = "see you").
  { vm_compute in E. injection E as _ <-. do 3 eexists. split; reflexivity. }
  destruct Hr as (m & from & to & -> & Hm).
  exists w', m, from, to. split; [reflexivity|].
  destruct (proj2 stored_content_is_trimmed _ _ _ _ _ _ _ _ _ _ _ _ E)
    as (Hin & c & p & q & _ & _ & _ & _ & _ & Ht).
  auto.
Defined.

End TrimFacts.

Module ClaimFacts.
Import Auth.



End ClaimFacts.

Module HandshakeFacts.
Import Middleware AuthenticationFacts Terms.

(** X18.  The optional middleware lets every request through; it
    attaches an agent exactly when the strict middleware would pass the
    request on, the same agent, with the same change of the world, and
    otherwise leaves the world as it was. *)
Theorem optional_auth_agrees_with_auth (auth : option string) (e : Env) (w : World) :
  Optional.optionalAuth auth e w
  = match authMiddleware auth e w with
    | (w', Next agent) => (w', Some agent)
    | _ => (w, None)
    end.
Proof.
  unfold Optional.optionalAuth, Optional.lookup, authMiddleware. monad.
  destruct (negb (Js.truthy auth)
            || negb (Js.startsWith match auth with Some h => h | None => EmptyString end
                       "Bearer ")); [reflexivity|].
  cbv beta iota.
  match goal with
  | |- context [if ?c then _ else _] => destruct c
  end; [reflexivity|].
  cbv beta iota.
  match goal with
  | |- context [first ?p (agents (db w))] => destruct (first p (agents (db w)))
  end; reflexivity.
Qed.

(** X19.  The handshake of the socket server accepts a token exactly
    when it starts with [clk_] and is the API key of an agent, and
    attaches that agent; for a token without a space this is the agent
    the HTTP middleware attaches to [Bearer <token>]. *)
Theorem socket_handshake_accepts_the_api_keys (token : string) (s : Store) :
  (forall id handle,
     Socket.handshake (Some token) s = inr (id, handle) <->
     Js.startsWith token "clk_" = true
     /\ exists a, first (fun a => Js.seq (Agent.apiKey a) token) (agents s) = Some a
                  /\ id = Agent.id a /\ handle = Agent.handle a)
  /\ (spaceless token = true ->
      forall e w, db w = s ->
        match Socket.handshake (Some token) s with
        | inr (id, handle) =>
            exists w' agent,
              authMiddleware (Some ("Bearer " ++ token)%string) e w = (w', Next agent)
              /\ ra_id agent = id /\ ra_handle agent = handle
        | inl _ =>
            exists r, authMiddleware (Some ("Bearer " ++ token)%string) e w = (w, Reply r)
        end).
Proof.
  split.
  - intros id handle. unfold Socket.handshake.
    destruct token as [|c r]; [cbn; split; [discriminate|intros [H _]; discriminate]|].
    change (Js.truthy (Some (String c r))) with true. cbn [negb orb].
    destruct (Js.startsWith (String c r) "clk_") eqn:Ek; cbn [negb].
    + destruct (first _ (agents s)) as [a|] eqn:Ef.
      * split.
        -- intros H. injection H as <- <-. split; [reflexivity|]. eauto.
        -- intros [_ (a' & Ha & -> & ->)]. congruence.
      * split; [discriminate|]. intros [_ (a' & Ha & _)]. discriminate.
    + split; [discriminate|]. intros [H _]. discriminate.
  - intros Hs e w <-. unfold Socket.handshake.
    assert (Ht : Js.truthy (Some token) = negb (String.eqb token EmptyString)).
    { destruct token; reflexivity. }
    unfold authMiddleware. monad. rewrite (bearer_key _ Hs), startsWith_app.
    change (Js.truthy (Some ("Bearer " ++ token)%string)) with true.
    cbn [negb orb]. cbv beta iota.
    destruct (negb (Js.truthy (Some token)) || negb (Js.startsWith token "clk_"));
      [eexists; reflexivity|].
    cbv beta iota.
    destruct (first _ (agents (db w))) as [a|]; [|eexists; reflexivity].
    do 2 eexists. split; [reflexivity|]. split; reflexivity.
Qed.

(** Ava's key opens the socket as it opens the HTTP routes. *)
Lemma socket_handshake_accepts_the_api_keys_witness :
  Socket.handshake (Some "clk_ava") (db Sample.start) = inr ("a1", "ava")
  /\ exists w' agent,
       authMiddleware (Some "Bearer clk_ava") (Sample.at_ 10) Sample.start
       = (w', Next agent)
       /\ ra_id agent = "a1" /\ ra_handle agent = "ava".
Proof.
  split; [reflexivity|].
  exact (proj2 (socket_handshake_accepts_the_api_keys "clk_ava" (db Sample.start))
           eq_refl (Sample.at_ 10) Sample.start eq_refl).
Defined.

End HandshakeFacts.

Module GroupReactionFacts.
Import Permissions GroupReactions.

Lemma insertMessageReaction_rows r s s' :
  insertReaction r s = Some s' ->
  s' = set_messageReactions s (messageReactions s ++ [r])
  /\ is_some (agentById s (MessageReaction.agentId r)) = true.
Proof.
  unfold insertReaction. intros H.
  destruct (negb (is_some (first _ (messages s)))); [discriminate|].
  destruct (is_some (agentById s (MessageReaction.agentId r))); [|discriminate].
  cbn in H.
  match type of H with (if ?c then _ else _) = _ => destruct c end; [discriminate|].
  injection H as <-. auto.
Qed.

(** X20.  Reactions on a group message.  When a reaction is added, the
    requester is a member of the group, the message is a message of that
    group and the type is one of like, love, angry and sad; the reaction
    is appended to the stored ones and the listing of the reactions of
    the message shows it with its author; the same reaction a second
    time is refused with 400 and changes nothing; removing it gives back
    the store the requester started from. *)
Theorem group_reaction_round_trip
    (agent : ReqAgent) (groupId messageId : Id) (type : option string)
    (error error' : string) (e e' : Env) (w w1 : World) (d : Data) :
  tryCatch (react agent groupId messageId type) error e w = (w1, json d) ->
  exists t emoji message,
    type = Some t
    /\ ALLOWED_REACTIONS t = Some emoji
    /\ isMember (db w) groupId (ra_id agent) = true
    /\ messageOf (db w) groupId messageId = Some message
    /\ messageReactions (db w1)
       = messageReactions (db w) ++ [MessageReaction.mk messageId (ra_id agent) emoji]
    /\ (exists l name handle,
          respond 200 (getReactions agent groupId messageId) error' e' w1
          = (w1, Answered 200 l)
          /\ In (mkReactionRow emoji (ra_id agent) name handle) l)
    /\ tryCatch (react agent groupId messageId type) error' e' w1
       = (w1, fail 400 "You already reacted with this emoji")
    /\ exists w2,
         tryCatch (Messages.unreact agent groupId messageId emoji) error' e' w1
         = (w2, json (DText "Reaction removed"))
         /\ db w2 = db w.
Proof.
  unfold react at 1. monad.
  destruct type as [t|]; [|cbn; discriminate]. cbv beta iota.
  destruct (negb (Js.truthy (Some t))
            || negb (is_some (ALLOWED_REACTIONS t) || Dm.inherited t)) eqn:Ev;
    [cbn; discriminate|].
  cbv beta iota.
  destruct (isMember (db w) groupId (ra_id agent)) eqn:Emem; [|cbn; discriminate].
  cbn [negb]. cbv beta iota.
  destruct (messageOf (db w) groupId messageId) as [message|] eqn:Em;
    [|cbn; discriminate].
  cbv beta iota.
  destruct (ALLOWED_REACTIONS t) as [emoji|] eqn:Et; [|cbn; discriminate].
  cbv beta iota.
  destruct (first (isReaction messageId (ra_id agent) emoji) (messageReactions (db w)))
    as [x|] eqn:Ex; [cbn; discriminate|].
  cbn [is_some]. cbv beta iota.
  match goal with
  | |- context [insertReaction ?r (db w)] =>
      destruct (insertReaction r (db w)) as [s1|] eqn:Ei
  end; [|cbn; discriminate].
  apply insertMessageReaction_rows in Ei as [Ei Hagent]. cbn in Hagent.
  cbn. intros H. injection H as <- _.
  exists t, emoji, message.
  split; [reflexivity|]. split; [exact Et|]. split; [reflexivity|].
  split; [reflexivity|].
  assert (Hmem : isMember s1 groupId (ra_id agent) = true) by (subst s1; exact Emem).
  assert (Hm : messageOf s1 groupId messageId = Some message) by (subst s1; exact Em).
  assert (Hr : first (isReaction messageId (ra_id agent) emoji) (messageReactions s1)
               = Some (MessageReaction.mk messageId (ra_id agent) emoji)).
  { subst s1. cbn. apply first_app_none; [exact Ex|].
    unfold isReaction. cbn. rewrite !seq_refl. reflexivity. }
  split; [subst s1; reflexivity|]. split; [|split].
  - destruct (agentById (db w) (ra_id agent)) as [a|] eqn:Ea; [|discriminate].
    exists (reactionsOf s1 messageId), (Agent.name a), (Agent.handle a).
    split.
    + unfold respond, getReactions. monad. cbn. rewrite Hmem. reflexivity.
    + unfold reactionsOf. apply in_flat_map.
      exists (MessageReaction.mk messageId (ra_id agent) emoji). split.
      * subst s1. cbn. apply in_app_iff. right. left. reflexivity.
      * cbn. rewrite seq_refl.
        replace (agentById s1 (ra_id agent)) with (Some a) by (subst s1; symmetry; exact Ea).
        left. reflexivity.
  - unfold react. monad. cbn [db]. cbv beta iota.
    rewrite Et, Ev. cbn. rewrite Hmem. cbn. rewrite Hm. cbn. rewrite Hr. reflexivity.
  - unfold Messages.unreact. monad. cbn. rewrite Hmem. cbn.
    eexists. split; [reflexivity|]. cbn. subst s1. cbn.
    rewrite (BlockFacts.filter_last (isReaction messageId (ra_id agent) emoji)).
    + destruct (db w). reflexivity.
    + exact Ex.
    + unfold isReaction. cbn. rewrite !seq_refl. reflexivity.
Qed.

(** Ava likes the message Bob sent to his group only after joining it. *)
Lemma group_reaction_round_trip_witness :
  snd (tryCatch (react (reqAgentOf Sample.ava) "ui" "uii" (Some "like"))
         "Failed to add reaction" (Sample.at_ 40) Sample.twoRooms)
  = fail 403 "You must be a member of this group"
  /\ exists w2,
       tryCatch (Messages.unreact (reqAgentOf Sample.bob) "ui" "uii" "👍")
         "Failed to remove reaction" (Sample.at_ 50)
         (fst (tryCatch (react (reqAgentOf Sample.bob) "ui" "uii" (Some "like"))
                 "Failed to add reaction" (Sample.at_ 40) Sample.twoRooms))
       = (w2, json (DText "Reaction removed"))
       /\ db w2 = db Sample.twoRooms.
Proof.
  split; [vm_compute; reflexivity|].
  destruct (group_reaction_round_trip (reqAgentOf Sample.bob) "ui" "uii" (Some "like")
              "Failed to add reaction" "Failed to remove reaction"
              (Sample.at_ 40) (Sample.at_ 50) Sample.twoRooms
              (fst (tryCatch (react (reqAgentOf Sample.bob) "ui" "uii" (Some "like"))
                      "Failed to add reaction" (Sample.at_ 40) Sample.twoRooms))
              (DText "Reaction added"))
    as (t & emoji & message & Ht & He & _ & _ & _ & _ & _ & H).
  - vm_compute. reflexivity.
  - injection Ht as <-. vm_compute in He. injection He as <-. exact H.
Defined.

End GroupReactionFacts.

Module BlockListFacts.
Import Dm DmLists.

Lemma dispatch_thread segment :
  segment <> EmptyString -> DmWire.dispatch segment = Some DmWire.GetThread.
Proof.
  intros Hs. unfold DmWire.dispatch, DmWire.getRoutes. cbn.
  destruct (Js.seq segment EmptyString) eqn:E; [|reflexivity].
  apply seq_true in E. contradiction.
Qed.

(** X21.  The list of the blocked agents can not be asked for.  The
    router registers [GET /:agentId] before [GET /blocks], and the
    handler of the thread answers every request it is given: a GET
    request of one segment never reaches the handler of the list.
    [GET /blocks] is a request for the thread with the agent [blocks],
    which is no uuid: it is answered 500 with the error of the thread
    route and changes nothing. *)
Theorem blocks_route_is_shadowed (agent : ReqAgent) (limit : option Z) (e : Env) (w : World) :
  (forall segment, DmWire.dispatch segment <> Some DmWire.GetBlocks)
  /\ (forall segment w' a, DmWire.get agent segment limit e w <> (w', DmWire.Blocks a))
  /\ DmWire.get agent "blocks" limit e w
     = (w, DmWire.Thread (fail 500 "Failed to get direct messages")).
Proof.
  assert (Hd : forall segment, DmWire.dispatch segment <> Some DmWire.GetBlocks).
  { intros segment. destruct segment as [|c r].
    - discriminate.
    - rewrite dispatch_thread; discriminate. }
  split; [exact Hd|]. split.
  - intros segment w' a. unfold DmWire.get.
    pose proof (Hd segment) as Hs.
    destruct (DmWire.dispatch segment) as [[|]|]; [|contradiction|discriminate].
    destruct (tryCatch _ _ _ _). discriminate.
  - unfold DmWire.get. rewrite dispatch_thread by discriminate.
    unfold DmWire.thread, DmWire.getOrCreateConversation, Pg.param. cbv zeta.
    unfold tryCatch, bind.
    destruct (ra_id agent <? "blocks")%string.
    + change (Pg.uuid "blocks") with (@None Id).
      destruct (Pg.uuid (ra_id agent)); reflexivity.
    + change (Pg.uuid "blocks") with (@None Id). reflexivity.
Qed.

End BlockListFacts.

Module RegisterFacts.
Import Register Terms.

Lemma scaled_below x n : belowOne x = true -> (0 < n)%nat -> (scaled x n < n)%nat.
Proof.
  unfold belowOne, scaled. intros H Hn. apply Nat.ltb_lt in H.
  apply Nat.Div0.div_lt_upper_bound. apply Nat.mul_lt_mono_pos_r; lia.
Qed.

Lemma charAt_code i :
  (i < String.length chars)%nat ->
  exists c, charAt i = String c EmptyString /\ codeChar c = true.
Proof.
  intros H. unfold charAt.
  do 32 (destruct i as [|i]; [eexists; split; reflexivity|]).
  exfalso. cbn in H. lia.
Qed.

(** X22.  A verification code has the form [word-XXXX]: when the random
    numbers drawn lie in [[0, 1)], the code is one of the 24 words, a
    dash, and four characters out of [A-Z] and [2-9] without [I] and
    [O]. *)
Theorem verification_code_has_its_form (random : nat -> Fraction) :
  (forall k, belowOne (random k) = true) ->
  exists word c1 c2 c3 c4,
    generateVerificationCode random
    = (word ++ "-" ++ String c1 (String c2 (String c3 (String c4 EmptyString))))%string
    /\ In word WORDS
    /\ codeChar c1 = true /\ codeChar c2 = true
    /\ codeChar c3 = true /\ codeChar c4 = true.
Proof.
  intros H. unfold generateVerificationCode.
  assert (Hn : (0 < String.length chars)%nat) by (cbn; lia).
  destruct (charAt_code _ (scaled_below (random 1%nat) _ (H 1%nat) Hn)) as (c1 & E1 & H1).
  destruct (charAt_code _ (scaled_below (random 2%nat) _ (H 2%nat) Hn)) as (c2 & E2 & H2).
  destruct (charAt_code _ (scaled_below (random 3%nat) _ (H 3%nat) Hn)) as (c3 & E3 & H3).
  destruct (charAt_code _ (scaled_below (random 4%nat) _ (H 4%nat) Hn)) as (c4 & E4 & H4).
  exists (nth (scaled (random 0%nat) (List.length WORDS)) WORDS "undefined"),
    c1, c2, c3, c4.
  split; [|split; [|auto]].
  - cbn [fold_left]. rewrite E1, E2, E3, E4. reflexivity.
  - apply nth_In. apply scaled_below; [apply H|cbn; lia].
Qed.

(** All five draws are one half: the thirteenth word, and four times
    the seventeenth character. *)
Lemma verification_code_has_its_form_witness :
  exists word c1 c2 c3 c4,
    generateVerificationCode (fun _ => mkFraction 1 2)
    = (word ++ "-" ++ String c1 (String c2 (String c3 (String c4 EmptyString))))%string
    /\ In word WORDS
    /\ codeChar c1 = true /\ codeChar c2 = true
    /\ codeChar c3 = true /\ codeChar c4 = true.
Proof.
  apply (verification_code_has_its_form (fun _ => mkFraction 1 2)).
  intros k. reflexivity.
Defined.

End RegisterFacts.

Module RegistrationFacts.
Import Register Middleware AuthenticationFacts Terms.

Lemma insertAgent_rows a s s' :
  insertAgent a s = Some s' ->
  s' = set_agents s (agents s ++ [a])
  /\ first (fun x => Js.seq (Agent.apiKey x) (Agent.apiKey a)) (agents s) = None
  /\ match Agent.claimToken a with
     | Some t => Auth.byClaimToken s t = None
     | None => True
     end.
Proof.
  unfold insertAgent. intros H.
  destruct (is_some (agentById s (Agent.id a))); [discriminate|].
  destruct (is_some (first (fun x => Js.seq (Agent.handle x) (Agent.handle a)) (agents s)));
    [discriminate|].
  destruct (first (fun x => Js.seq (Agent.apiKey x) (Agent.apiKey a)) (agents s)) eqn:Ek;
    [discriminate|].
  cbn in H.
  destruct (Agent.claimToken a) as [t|].
  - destruct (Auth.byClaimToken s t); [discriminate|]. injection H as <-. auto.
  - injection H as <-. auto.
Qed.

(** What a successful registration leaves behind. *)
Lemma registered url entropy name handle bio error e w w1 r :
  respond 201 (register url entropy name handle bio) error e w = (w1, Answered 201 r) ->
  exists n h a,
    name = Some n /\ handle = Some h
    /\ a = Agent.mk (reg_id r) n (Js.toLowerCase h) (reg_bio r)
             ("clk_" ++ nanoid32 entropy) (Some (nanoid16 entropy))
             (Some (generateVerificationCode (random entropy)))
             false None None false (Some (now e)) (Some (now e))
    /\ reg_name r = n /\ reg_handle r = Js.toLowerCase h
    /\ reg_apiKey r = ("clk_" ++ nanoid32 entropy)%string
    /\ reg_verificationCode r = generateVerificationCode (random entropy)
    /\ db w1 = set_agents (db w) (agents (db w) ++ [a])
    /\ first (fun x => Js.seq (Agent.apiKey x) (Agent.apiKey a)) (agents (db w)) = None
    /\ Auth.byClaimToken (db w) (nanoid16 entropy) = None.
Proof.
  unfold respond, register. monad.
  destruct name as [n|]; [|cbn; discriminate].
  destruct handle as [h|]; [|cbn; rewrite orb_true_r; discriminate].
  destruct (negb (Js.truthy (Some n)) || negb (Js.truthy (Some h))); [cbn; discriminate|].
  cbv beta iota.
  destruct (first _ (agents (db w))); [cbn; discriminate|].
  cbn [is_some]. cbv beta iota. cbn [db drawn trace].
  match goal with
  | |- context [insertAgent ?x (db w)] =>
      destruct (insertAgent x (db w)) as [s1|] eqn:Ei
  end; [|discriminate].
  apply insertAgent_rows in Ei as (-> & Hk & Ht).
  intros H. injection H as <- <-. cbn in Hk, Ht.
  exists n, h. eexists. repeat split; auto.
Qed.

(** X23.  Registering under a handle of characters below U+0080, then
    authenticating.  After a successful registration the agent is
    stored unclaimed under the handle in lower case; when the random key
    holds no space, the API key returned opens the authenticated routes
    as that agent; and in the world the registration leaves, a
    registration under such a handle that differs from it by the case
    of its letters only is refused with 409 and changes nothing. *)
Theorem registered_agent_can_authenticate
    (url : option string) (entropy : Entropy) (name : option string) (h : string)
    (bio : option string) (error : string) (e : Env) (w w1 : World) (r : Registered) :
  Js.isAscii h = true ->
  respond 201 (register url entropy name (Some h) bio) error e w = (w1, Answered 201 r) ->
  (exists a, In a (agents (db w1))
             /\ Agent.id a = reg_id r /\ Agent.handle a = reg_handle r
             /\ Agent.apiKey a = reg_apiKey r /\ Agent.claimed a = false)
  /\ reg_handle r = Js.toLowerCase h
  /\ (spaceless (nanoid32 entropy) = true ->
      forall e',
        authMiddleware (Some ("Bearer " ++ reg_apiKey r)%string) e' w1
        = (seen (reg_id r) e' w1,
           Next (mkReqAgent (reg_id r) (reg_name r) (reg_handle r))))
  /\ (forall url' entropy' name' h' bio' error' e',
        Js.isAscii h' = true ->
        Js.truthy name' = true ->
        Js.truthy (Some h') = true ->
        Js.toLowerCase h' = Js.toLowerCase h ->
        respond 201 (register url' entropy' name' (Some h') bio') error' e' w1
        = (w1, Refused (fail 409 "Handle already taken. Please choose another."))).
Proof.
  intros _ H.
  destruct (registered _ _ _ _ _ _ _ _ _ _ H)
    as (n & h0 & a & -> & Eh & Ea & Hn & Hh & Hk & Hc & Hdb & Hfresh & _).
  injection Eh as <-.
  assert (Hin : In a (agents (db w1))).
  { rewrite Hdb. cbn. apply in_app_iff. right. left. reflexivity. }
  split; [|split; [|split]].
  - exists a. split; [exact Hin|]. rewrite Ea. cbn. rewrite Hh, Hk. repeat split.
  - exact Hh.
  - intros Hs e'.
    assert (Hf : first (fun x => Js.seq (Agent.apiKey x) ("clk_" ++ nanoid32 entropy))
                   (agents (db w1)) = Some a).
    { rewrite Hdb. cbn. apply first_app_none.
      - rewrite Ea in Hfresh. exact Hfresh.
      - rewrite Ea. cbn. apply seq_refl. }
    rewrite Hk.
    assert (Hs' : spaceless ("clk_" ++ nanoid32 entropy) = true) by exact Hs.
    rewrite (bearer_accepted _ _ e' w1 Hs' (startsWith_app "clk_" _) Hf).
    rewrite Ea, Hn, Hh. reflexivity.
  - intros url' entropy' name' h' bio' error' e' _ Hn' Hh' Hl.
    unfold respond, register. monad. rewrite Hn', Hh'. cbn [negb orb]. cbv beta iota.
    rewrite Hl, <- Hh.
    assert (Hx : is_some (first (fun x => Js.seq (Agent.handle x) (reg_handle r))
                            (agents (db w1))) = true).
    { apply first_in_some with (a := a); [exact Hin|].
      rewrite Ea. cbn. rewrite Hh. apply seq_refl. }
    cbn [db]. destruct (first _ (agents (db w1))); [reflexivity|discriminate].
Qed.

(** Cleo registers at the start; her key opens the routes. *)
Lemma registered_agent_can_authenticate_witness :
  respond 201
    (register None (mkEntropy "k3y" "tokC" (fun _ => mkFraction 1 2))
       (Some "Cleo") (Some "Cleo") None)
    "Failed to register agent" (Sample.at_ 10) Sample.start
  = (fst (respond 201
            (register None (mkEntropy "k3y" "tokC" (fun _ => mkFraction 1 2))
               (Some "Cleo") (Some "Cleo") None)
            "Failed to register agent" (Sample.at_ 10) Sample.start),
     Answered 201
       (mkRegistered "u" "Cleo" "cleo" None "clk_k3y"
          "http://localhost:3001/claim/tokC" "core-SSSS"))
  /\ snd (authMiddleware (Some "Bearer clk_k3y") (Sample.at_ 20)
            (fst (respond 201
                    (register None (mkEntropy "k3y" "tokC" (fun _ => mkFraction 1 2))
                       (Some "Cleo") (Some "Cleo") None)
                    "Failed to register agent" (Sample.at_ 10) Sample.start)))
     = Next (mkReqAgent "u" "Cleo" "cleo").
Proof.
  assert (H : respond 201
                (register None (mkEntropy "k3y" "tokC" (fun _ => mkFraction 1 2))
                   (Some "Cleo") (Some "Cleo") None)
                "Failed to register agent" (Sample.at_ 10) Sample.start
              = (fst (respond 201
                        (register None (mkEntropy "k3y" "tokC" (fun _ => mkFraction 1 2))
                           (Some "Cleo") (Some "Cleo") None)
                        "Failed to register agent" (Sample.at_ 10) Sample.start),
                 Answered 201
                   (mkRegistered "u" "Cleo" "cleo" None "clk_k3y"
                      "http://localhost:3001/claim/tokC" "core-SSSS")))
    by (vm_compute; reflexivity).
  split; [exact H|].
  exact (f_equal snd
           (proj1 (proj2 (proj2
              (registered_agent_can_authenticate _ _ _ "Cleo" _ _ _ _ _ _ eq_refl H)))
              eq_refl (Sample.at_ 20))).
Defined.

Lemma byClaimToken_appended s a t :
  Auth.byClaimToken s t = None -> Agent.claimToken a = Some t ->
  Auth.byClaimToken (set_agents s (agents s ++ [a])) t = Some a.
Proof.
  intros Hn Ht. unfold Auth.byClaimToken. cbn.
  apply first_app_none; [exact Hn|]. cbv beta. rewrite Ht. cbn. apply String.eqb_refl.
Qed.

(** X24.  The claim page.  The token of a fresh registration leads to
    the claim page of the agent registered, with the verification code
    the registration returned and the tweet to post; once a verification
    with a token has succeeded (claim tokens being unique, as the schema
    requires), the claim page of that token answers 404. *)
Theorem claim_page_follows_the_token :
  (forall url entropy name handle bio error e w w1 r error' e',
      respond 201 (register url entropy name handle bio) error e w = (w1, Answered 201 r) ->
      exists info,
        respond 200 (claimInfo (nanoid16 entropy)) error' e' w1 = (w1, Answered 200 info)
        /\ ci_name info = reg_name r
        /\ ci_handle info = reg_handle r
        /\ ci_verificationCode info = Some (reg_verificationCode r)
        /\ ci_tweetText info
           = ("Claiming my @clawlink bot #" ++ reg_verificationCode r)%string)
  /\ (forall cfg token twitterHandle error e w w1 d error' e',
         AuthSpec.claimTokensUnique (db w) ->
         tryCatch (Auth.verify cfg token twitterHandle) error e w = (w1, json d) ->
         respond 200 (claimInfo token) error' e' w1
         = (w1, Refused (fail 404 "Invalid claim token"))).
Proof.
  split.
  - intros url entropy name handle bio error e w w1 r error' e' H.
    destruct (registered _ _ _ _ _ _ _ _ _ _ H)
      as (n & h & a & -> & -> & Ea & Hn & Hh & Hk & Hc & Hdb & _ & Htok).
    assert (Hf : Auth.byClaimToken (db w1) (nanoid16 entropy) = Some a).
    { rewrite Hdb. apply byClaimToken_appended; [exact Htok|]. rewrite Ea. reflexivity. }
    unfold respond, claimInfo. monad. cbn [db]. rewrite Hf.
    rewrite Ea. cbn. eexists. split; [reflexivity|]. cbn.
    rewrite Hn, Hh, Hc. repeat split.
  - intros cfg token twitterHandle error e w w1 d error' e' Hu H.
    unfold Auth.verify in H. monad.
    destruct (negb (Js.truthy twitterHandle)); cbn in H; [discriminate|].
    destruct (Auth.byClaimToken (db w) token) as [agent|] eqn:Ea; cbn in H;
      [|discriminate].
    destruct (Agent.claimed agent); cbn in H; [discriminate|].
    assert (Hw1 : exists cb tu, agents (db w1)
                  = map (fun a => if Js.seq (Agent.id a) (Agent.id agent)
                                  then Auth.setClaimed cb tu (now e) a else a)
                        (agents (db w))).
    { destruct (negb (Js.truthy (Auth.TWITTER_BEARER_TOKEN cfg))); cbn in H;
        [|destruct (Auth.searchRecent cfg _ _) as [| |k]; cbn in H; try discriminate;
          destruct (k =? 0)%nat; cbn in H; [discriminate|]].
      all: unfold Auth.awardVerified in H.
      all: match type of H with
           | context [if ?c then _ else _] => destruct c
           end; cbn in H; injection H as <- _; cbn; do 2 eexists; reflexivity. }
    destruct Hw1 as (cb & tu & Hag).
    unfold respond, claimInfo. monad. cbn [db]. unfold Auth.byClaimToken. rewrite Hag.
    rewrite (AuthFacts.token_gone _ _ _ cb tu (now e) Hu Ea). reflexivity.
Qed.

(** Cleo's claim page, and Ava's once she is claimed. *)
Lemma claim_page_follows_the_token_witness :
  (exists info,
     respond 200 (claimInfo "tokC") "Failed to get claim info" (Sample.at_ 20)
       (fst (respond 201
               (register None (mkEntropy "k3y" "tokC" (fun _ => mkFraction 1 2))
                  (Some "Cleo") (Some "Cleo") None)
               "Failed to register agent" (Sample.at_ 10) Sample.start))
     = (fst (respond 201
               (register None (mkEntropy "k3y" "tokC" (fun _ => mkFraction 1 2))
                  (Some "Cleo") (Some "Cleo") None)
               "Failed to register agent" (Sample.at_ 10) Sample.start),
        Answered 200 info)
     /\ ci_tweetText info = "Claiming my @clawlink bot #core-SSSS")
  /\ snd (respond 200 (claimInfo "tokA") "Failed to get claim info" (Sample.at_ 20)
            (fst (Auth.postVerify Sample.devMode "tokA" (Some "@ava_owner") (Sample.at_ 10)
                    Sample.start)))
     = Refused (fail 404 "Invalid claim token").
Proof.
  split.
  - destruct (proj1 claim_page_follows_the_token None
                (mkEntropy "k3y" "tokC" (fun _ => mkFraction 1 2))
                (Some "Cleo") (Some "Cleo") None "Failed to register agent"
                (Sample.at_ 10) Sample.start
                (fst (respond 201
                        (register None (mkEntropy "k3y" "tokC" (fun _ => mkFraction 1 2))
                           (Some "Cleo") (Some "Cleo") None)
                        "Failed to register agent" (Sample.at_ 10) Sample.start))
                (mkRegistered "u" "Cleo" "cleo" None "clk_k3y"
                   "http://localhost:3001/claim/tokC" "core-SSSS")
                "Failed to get claim info" (Sample.at_ 20))
      as (info & Hi & _ & _ & _ & Ht).
    + vm_compute. reflexivity.
    + exists info. split; [exact Hi|]. rewrite Ht. reflexivity.
  - rewrite (proj2 claim_page_follows_the_token Sample.devMode "tokA" (Some "@ava_owner")
               "Failed to verify claim" (Sample.at_ 10) Sample.start
               (fst (Auth.postVerify Sample.devMode "tokA" (Some "@ava_owner")
                       (Sample.at_ 10) Sample.start))
               (DClaimed "Ava" "@ava_owner" "verified")
               "Failed to get claim info" (Sample.at_ 20)
               AuthFacts.sample_tokens_unique).
    + reflexivity.
    + vm_compute. reflexivity.
Defined.

End RegistrationFacts.

Module ChatViewFacts.
Import ChatView Terms.

(** The count the map holds for an emoji. *)
Definition countOf (emoji : string) (counts : list (string * nat)) : nat :=
  match first (fun entry => Js.seq (fst entry) emoji) counts with
  | Some entry => snd entry
  | None => 0%nat
  end.

Definition tally (reactions : list ReactionView) : list (string * nat) :=
  fold_left (fun counts r => bump (fst r) counts) reactions [].

Lemma bump_keys emoji counts x :
  In x (map fst (bump emoji counts)) <-> In x (map fst counts) \/ x = emoji.
Proof.
  induction counts as [|[k n] r IH]; cbn.
  - split; [intros [H|[]]; auto|intros [[]|H]; auto].
  - destruct (Js.seq k emoji) eqn:E; cbn.
    + apply seq_true in E. subst k. intuition (subst; auto).
    + rewrite IH. tauto.
Qed.

Lemma bump_nodup emoji counts :
  NoDup (map fst counts) -> NoDup (map fst (bump emoji counts)).
Proof.
  induction counts as [|[k n] r IH]; cbn; intros H.
  - constructor; [intros []|constructor].
  - inversion H as [|? ? Hk Hr]; subst.
    destruct (Js.seq k emoji) eqn:E; cbn.
    + constructor; assumption.
    + constructor; [|auto].
      rewrite bump_keys. intros [Hin| ->]; [contradiction|].
      rewrite seq_refl in E. discriminate.
Qed.

Lemma bump_count emoji counts x :
  countOf x (bump emoji counts)
  = (countOf x counts + if Js.seq emoji x then 1 else 0)%nat.
Proof.
  unfold countOf, first. induction counts as [|[k n] r IH]; cbn [bump find fst snd].
  - destruct (Js.seq emoji x); reflexivity.
  - destruct (Js.seq k emoji) eqn:E; cbn [find fst snd].
    + apply seq_true in E. subst k. destruct (Js.seq emoji x); cbn [snd]; lia.
    + destruct (Js.seq k x) eqn:Ex; [|exact IH].
      apply seq_true in Ex. subst k. rewrite seq_sym, E. cbn [snd]. lia.
Qed.

Lemma bump_sum emoji counts :
  list_sum (map snd (bump emoji counts)) = S (list_sum (map snd counts)).
Proof.
  unfold list_sum.
  induction counts as [|[k n] r IH]; cbn [bump map snd fold_right]; [reflexivity|].
  destruct (Js.seq k emoji); cbn [bump map snd fold_right]; [reflexivity|].
  rewrite IH. lia.
Qed.

Lemma bump_positive emoji counts :
  Forall (fun entry => (0 < snd entry)%nat) counts ->
  Forall (fun entry => (0 < snd entry)%nat) (bump emoji counts).
Proof.
  induction 1 as [|[k n] r Hn Hr IH]; cbn.
  - constructor; [cbn; lia|constructor].
  - destruct (Js.seq k emoji); constructor; cbn in *; auto; lia.
Qed.

Lemma tally_facts reactions : forall counts,
  NoDup (map fst counts) ->
  Forall (fun entry => (0 < snd entry)%nat) counts ->
  let result := fold_left (fun counts r => bump (fst r) counts) reactions counts in
  NoDup (map fst result)
  /\ Forall (fun entry => (0 < snd entry)%nat) result
  /\ (forall x, countOf x result = (countOf x counts + occurrences x reactions)%nat)
  /\ list_sum (map snd result)
     = (list_sum (map snd counts) + List.length reactions)%nat
  /\ (forall x, In x (map fst result) <->
                In x (map fst counts) \/ In x (map fst reactions)).
Proof.
  induction reactions as [|r l IH]; intros counts Hn Hp; cbv zeta; cbn [fold_left].
  - split; [exact Hn|]. split; [exact Hp|]. split; [|split].
    + intros x. unfold occurrences. cbn [filter List.length]. lia.
    + cbn [List.length]. lia.
    + intros x. cbn [map In]. tauto.
  - destruct (IH (bump (fst r) counts) (bump_nodup _ _ Hn) (bump_positive _ _ Hp))
      as (H1 & H2 & H3 & H4 & H5).
    split; [exact H1|]. split; [exact H2|]. split; [|split].
    + intros x. rewrite H3, bump_count. unfold occurrences. cbn [filter].
      destruct (Js.seq (fst r) x); cbn [List.length]; lia.
    + rewrite H4, bump_sum. cbn [List.length]. lia.
    + intros x. rewrite H5, bump_keys. cbn [map In]. intuition (subst; auto).
Qed.

Lemma countOf_entry counts entry :
  NoDup (map fst counts) -> In entry counts -> countOf (fst entry) counts = snd entry.
Proof.
  unfold countOf, first.
  induction counts as [|[k n] r IH]; cbn [map fst snd find In]; [contradiction|].
  intros Hn [<-|Hin].
  - cbn [fst snd]. rewrite seq_refl. reflexivity.
  - inversion Hn as [|? ? Hk Hr]; subst.
    destruct (Js.seq k (fst entry)) eqn:E; [|auto].
    exfalso. apply seq_true in E. subst k. apply Hk. apply in_map. exact Hin.
Qed.

(** X25.  The reactions under a message of the chat view.  Each emoji
    that occurs among the reactions is shown once, with the number of
    reactions that carry it and the label of the emoji; no other emoji
    is shown, and the counts add up to the number of reactions. *)
Theorem reactions_are_grouped_by_emoji (reactions : list ReactionView) :
  let shown := groupReactions reactions in
  NoDup (map g_emoji shown)
  /\ (forall x, In x shown ->
        g_count x = occurrences (g_emoji x) reactions
        /\ (0 < g_count x)%nat
        /\ g_label x = emojiToLabel (g_emoji x))
  /\ (forall emoji, In emoji (map g_emoji shown) <-> In emoji (map fst reactions))
  /\ list_sum (map g_count shown) = List.length reactions.
Proof.
  cbv zeta. unfold groupReactions.
  destruct (tally_facts reactions [] (NoDup_nil _) (Forall_nil _))
    as (H1 & H2 & H3 & H4 & H5).
  cbv zeta in *. fold (tally reactions) in *.
  assert (He : forall l,
             map g_emoji
               (map (fun entry : string * nat =>
                       mkGrouped (fst entry) (emojiToLabel (fst entry)) (snd entry)) l)
             = map fst l).
  { intros l. rewrite map_map. apply map_ext. reflexivity. }
  assert (Hc : forall l,
             map g_count
               (map (fun entry : string * nat =>
                       mkGrouped (fst entry) (emojiToLabel (fst entry)) (snd entry)) l)
             = map snd l).
  { intros l. rewrite map_map. apply map_ext. reflexivity. }
  rewrite He, Hc.
  split; [exact H1|]. split; [|split].
  - intros x Hx. apply in_map_iff in Hx as (entry & <- & Hin). cbn [g_emoji g_count g_label].
    split; [|split].
    + rewrite <- (countOf_entry _ _ H1 Hin), H3. reflexivity.
    + rewrite Forall_forall in H2. exact (H2 _ Hin).
    + reflexivity.
  - intros emoji. rewrite H5. cbn [map In]. tauto.
  - rewrite H4. reflexivity.
Qed.

End ChatViewFacts.

Module ModerationFacts.
Import Permissions Moderation Terms SampleIo.

Section Io.
Variable io : Room -> string -> Notice -> Effect.


End Io.



Section Io.
Variable io : Room -> string -> Notice -> Effect.

(** What the deletion of a group answers, and what it leaves. *)
Lemma deleteGroup_cases agent groupId error e w :
  (exists r, status r <> 200%nat
             /\ tryCatch (deleteGroupById io agent groupId) error e w = (w, r))
  \/ (exists group s1,
        isAdmin (db w) groupId (ra_id agent) = true
        /\ groupById (db w) groupId = Some group
        /\ deleteGroupRow groupId (db w) = Some s1
        /\ tryCatch (deleteGroupById io agent groupId) error e w
           = (mkWorld s1 (drawn w)
                (trace w ++ [Deleted Tgroups;
                             io Everyone "group:deleted"
                               (NGroupDeleted groupId (Group.name group) agent)]),
              json (DText ("Group " ++ Js.quoted (Group.name group)
                           ++ " has been deleted")%string))).
Proof.
  unfold deleteGroupById, notify. monad.
  destruct (isAdmin (db w) groupId (ra_id agent)) eqn:Em; cbn [negb];
    [|left; eexists; split; [|reflexivity]; cbn; lia].
  cbv beta iota.
  destruct (groupById (db w) groupId) as [group|] eqn:Eg;
    [|left; eexists; split; [|reflexivity]; cbn; lia].
  right. exists group. eexists. split; [reflexivity|]. split; [reflexivity|].
  split; [reflexivity|].
  cbn [deleteGroupRow db drawn trace]. rewrite <- app_assoc. reflexivity.
Qed.

End Io.

Lemma isAdmin_member s groupId agentId :
  isAdmin s groupId agentId = true -> isMember s groupId agentId = true.
Proof.
  unfold isAdmin, isMember, getMemberRole.
  destruct (membership s groupId agentId); [reflexivity|discriminate].
Qed.

(** X27.  Deleting a group.  The route answers 200 only to an admin of
    the group; then the group is gone with its members, its messages,
    the reactions to them and its permissions, the rows of the other
    groups are as before, and everyone is told once.  Every other
    answer leaves the world as it was; and whoever asks to delete the
    group again is answered 403, not 404, as nobody is an admin of it
    any more. *)
Theorem group_deletion_takes_what_belongs_to_the_group
    (io : Room -> string -> Notice -> Effect) (agent : ReqAgent) (groupId : Id)
    (error : string) (e : Env) (w w1 : World) (r : Response) :
  tryCatch (deleteGroupById io agent groupId) error e w = (w1, r) ->
  (status r <> 200%nat -> w1 = w)
  /\ (status r = 200%nat ->
      isAdmin (db w) groupId (ra_id agent) = true
      /\ (forall g, In g (groups (db w1))
                    <-> In g (groups (db w)) /\ Group.id g <> groupId)
      /\ (forall m, In m (groupMembers (db w1))
                    <-> In m (groupMembers (db w)) /\ GroupMember.groupId m <> groupId)
      /\ (forall p, In p (groupPermissions (db w1))
                    <-> In p (groupPermissions (db w))
                        /\ GroupPermission.groupId p <> groupId)
      /\ (forall m, In m (messages (db w1))
                    <-> In m (messages (db w)) /\ Message.groupId m <> groupId)
      /\ (forall x, In x (messageReactions (db w1))
                    <-> In x (messageReactions (db w))
                        /\ forall m, In m (messages (db w)) ->
                                     Message.id m = MessageReaction.messageId x ->
                                     Message.groupId m <> groupId)
      /\ agents (db w1) = agents (db w)
      /\ directMessages (db w1) = directMessages (db w)
      /\ (exists group,
            groupById (db w) groupId = Some group
            /\ trace w1 = trace w ++ [Deleted Tgroups;
                                      io Everyone "group:deleted"
                                        (NGroupDeleted groupId (Group.name group) agent)])
      /\ (forall io' agent' error' e',
            tryCatch (deleteGroupById io' agent' groupId) error' e' w1
            = (w1, fail 403 "Only admins can delete groups"))).
Proof.
  intros H.
  destruct (deleteGroup_cases io agent groupId error e w)
    as [(r0 & Hr & E)|(group & s1 & Ha & Hg & Hs & E)];
    rewrite E in H; injection H as <- <-.
  - split; [reflexivity|]. intros H. contradiction.
  - split; [intros H; exfalso; apply H; reflexivity|]. intros _.
    unfold deleteGroupRow in Hs. injection Hs as <-.
    cbn [db messages messageReactions agents groups groupMembers groupPermissions
         directMessages trace].
    split; [exact Ha|].
    assert (Hmem : forall m, In m (filter (fun m => negb (Js.seq (GroupMember.groupId m)
                                                             groupId))
                                      (groupMembers (db w)))
                             <-> In m (groupMembers (db w))
                                 /\ GroupMember.groupId m <> groupId).
    { intros m. rewrite filter_In, negb_true_iff, seq_false. tauto. }
    split; [|split; [exact Hmem|split; [|split; [|split; [|split; [|split; [|split]]]]]]].
    + intros g. rewrite filter_In, negb_true_iff, seq_false. tauto.
    + intros p. rewrite filter_In, negb_true_iff, seq_false. tauto.
    + intros m. rewrite filter_In, negb_true_iff, seq_false. tauto.
    + intros x. rewrite filter_In, negb_true_iff. split.
      * intros [Hin Hx]. split; [exact Hin|]. intros m Hm Hid Hgr.
        assert (Ht : existsb (fun m => Js.seq (Message.groupId m) groupId
                                       && Js.seq (Message.id m)
                                            (MessageReaction.messageId x))
                             (messages (db w)) = true).
        { apply existsb_exists. exists m. split; [exact Hm|].
          apply andb_true_iff. split; apply seq_true; assumption. }
        rewrite Ht in Hx. discriminate.
      * intros [Hin Hx]. split; [exact Hin|].
        destruct (existsb _ (messages (db w))) eqn:Ex; [|reflexivity].
        exfalso. apply existsb_exists in Ex as (m & Hm & Hb).
        apply andb_true_iff in Hb as [Hgr Hid].
        apply seq_true in Hgr, Hid. exact (Hx m Hm Hid Hgr).
    + reflexivity.
    + reflexivity.
    + exists group. split; [exact Hg|reflexivity].
    + intros io' agent' error' e'.
      unfold deleteGroupById. monad. cbn [db].
      assert (Hn : isAdmin
                     (mkStore (agents (db w))
                        (filter (fun g => negb (Js.seq (Group.id g) groupId))
                                (groups (db w)))
                        (filter (fun m => negb (Js.seq (GroupMember.groupId m) groupId))
                                (groupMembers (db w)))
                        (filter (fun p => negb (Js.seq (GroupPermission.groupId p)
                                                      groupId))
                                (groupPermissions (db w)))
                        (filter (fun m => negb (Js.seq (Message.groupId m) groupId))
                                (messages (db w)))
                        (filter (fun r =>
                                   negb (existsb
                                           (fun m => Js.seq (Message.groupId m) groupId
                                                     && Js.seq (Message.id m)
                                                          (MessageReaction.messageId r))
                                           (messages (db w))))
                                (messageReactions (db w)))
                        (directMessages (db w)) (agentBlocks (db w)) (dmReactions (db w))
                        (dmConversations (db w)) (agentBadges (db w)))
                     groupId (ra_id agent') = false).
      { unfold isAdmin, getMemberRole, membership. cbn [groupMembers].
        destruct (first _ _) as [m|] eqn:Ef; [|reflexivity].
        exfalso. apply first_some in Ef as [Hin Hp].
        apply Hmem in Hin as [_ Hne]. apply andb_true_iff in Hp as [Hp _].
        apply seq_true in Hp. contradiction. }
      rewrite Hn. reflexivity.
Qed.

(** Ava creates a group and deletes it; the second request is refused. *)
Lemma group_deletion_takes_what_belongs_to_the_group_witness :
  isAdmin (db (GroupSpec.run Sample.start (firstn 1 Sample.adminLeaves))) "u" "a1" = true
  /\ snd (tryCatch (deleteGroupById brief (reqAgentOf Sample.ava) "u") "Failed to delete group"
            (Sample.at_ 30)
            (fst (tryCatch (deleteGroupById brief (reqAgentOf Sample.ava) "u")
                    "Failed to delete group" (Sample.at_ 20)
                    (GroupSpec.run Sample.start (firstn 1 Sample.adminLeaves)))))
     = fail 403 "Only admins can delete groups".
Proof.
  assert (H : tryCatch (deleteGroupById brief (reqAgentOf Sample.ava) "u")
                "Failed to delete group" (Sample.at_ 20)
                (GroupSpec.run Sample.start (firstn 1 Sample.adminLeaves))
              = (fst (tryCatch (deleteGroupById brief (reqAgentOf Sample.ava) "u")
                        "Failed to delete group" (Sample.at_ 20)
                        (GroupSpec.run Sample.start (firstn 1 Sample.adminLeaves))),
                 json (DText ("Group " ++ Js.quoted "Reef Talk" ++ " has been deleted"))))
    by (vm_compute; reflexivity).
  pose proof (proj2 (group_deletion_takes_what_belongs_to_the_group _ _ _ _ _ _ _ _ H)
                eq_refl) as (Ha & _ & _ & _ & _ & _ & _ & _ & _ & Hagain).
  split; [exact Ha|].
  rewrite (Hagain brief (reqAgentOf Sample.ava) "Failed to delete group" (Sample.at_ 30)).
  reflexivity.
Defined.

Lemma PermissionKey_eqb_eq a b : PermissionKey_eqb a b = true <-> a = b.
Proof. destruct a, b; cbn; split; intros H; try reflexivity; discriminate. Qed.

(** The entries the loop accepts, with what they denote. *)
Definition accepted (entry : string * string) (update : PermissionKey * Role) : Prop :=
  parseKey (fst entry) = Some (fst update)
  /\ Groups.parseRole (Some (snd entry)) = Some (snd update)
  /\ (fst update = deleteGroup -> snd update = admin).

Lemma validate_accepted entries : forall acc updates,
  validate entries acc = inr updates ->
  exists parsed, updates = acc ++ parsed /\ Forall2 accepted entries parsed.
Proof.
  induction entries as [|[key value] rest IH]; intros acc updates; cbn [validate].
  - intros H. injection H as <-. exists []. rewrite app_nil_r. split; constructor.
  - destruct (parseKey key) as [k|] eqn:Ek; [|discriminate].
    destruct (Groups.parseRole (Some value)) as [role|] eqn:Er; [|discriminate].
    destruct (PermissionKey_eqb k deleteGroup && negb (Role_eqb role admin)) eqn:Ed;
      [discriminate|].
    intros H. apply IH in H as (parsed & -> & Hp).
    exists ((k, role) :: parsed). rewrite <- app_assoc. split; [reflexivity|].
    constructor; [|exact Hp]. repeat split; cbn [fst snd]; auto.
    intros ->. cbn in Ed. destruct role; [reflexivity|discriminate|discriminate].
Qed.

Lemma first_skip {A} (p : A -> bool) (l l' : list A) :
  (forall x, In x l -> p x = false) -> first p (l ++ l') = first p l'.
Proof.
  unfold first. induction l as [|x r IH]; cbn [app find]; intros H; [reflexivity|].
  rewrite (H x (or_introl eq_refl)). apply IH. intros y Hy. apply H. right. exact Hy.
Qed.

Lemma first_app {A} (p : A -> bool) (l l' : list A) :
  first p (l ++ l') = match first p l with Some x => Some x | None => first p l' end.
Proof.
  unfold first. induction l as [|x r IH]; cbn [app find]; [reflexivity|].
  destruct (p x); [reflexivity|exact IH].
Qed.

Lemma overlay_untouched updates base k :
  (forall u, In u updates -> fst u <> k) -> overlay updates base k = base k.
Proof.
  intros H. unfold overlay.
  rewrite (AuthFacts.first_all_false (fun u => PermissionKey_eqb (fst u) k) (rev updates));
    [reflexivity|].
  intros u Hu. apply in_rev in Hu.
  destruct (PermissionKey_eqb (fst u) k) eqn:E; [|reflexivity].
  apply PermissionKey_eqb_eq in E. exfalso. exact (H u Hu E).
Qed.

Lemma overlay_last pre u post base :
  (forall x, In x post -> fst x <> fst u) ->
  overlay (pre ++ u :: post) base (fst u) = snd u.
Proof.
  intros H. unfold overlay.
  rewrite rev_app_distr. cbn [rev]. rewrite <- app_assoc. cbn [app].
  rewrite first_skip.
  - unfold first. cbn [find].
    rewrite (proj2 (PermissionKey_eqb_eq (fst u) (fst u)) eq_refl). reflexivity.
  - intros x Hx. apply in_rev in Hx.
    destruct (PermissionKey_eqb (fst x) (fst u)) eqn:E; [|reflexivity].
    apply PermissionKey_eqb_eq in E. exfalso. exact (H x Hx E).
Qed.

Lemma overlay_deleteGroup updates base :
  (forall u, In u updates -> fst u = deleteGroup -> snd u = admin) ->
  base deleteGroup = admin -> overlay updates base deleteGroup = admin.
Proof.
  intros H Hb. unfold overlay.
  destruct (first _ (rev updates)) as [u|] eqn:E; [|exact Hb].
  apply first_some in E as [Hin Hk]. apply in_rev in Hin.
  apply PermissionKey_eqb_eq in Hk. exact (H u Hin Hk).
Qed.

Lemma accepted_in entries parsed u :
  Forall2 accepted entries parsed -> In u parsed ->
  exists entry, In entry entries /\ accepted entry u.
Proof.
  induction 1 as [|x y l l' Hxy Hl IH]; cbn [In]; [contradiction|].
  intros [<-|Hin].
  - exists x. auto.
  - destruct (IH Hin) as (entry & He & Ha). exists entry. auto.
Qed.

Lemma accepted_split entries parsed pre entry post :
  Forall2 accepted entries parsed -> entries = pre ++ entry :: post ->
  exists pre' u post',
    parsed = pre' ++ u :: post' /\ accepted entry u /\ Forall2 accepted post post'.
Proof.
  intros H ->. apply Forall2_app_inv_l in H as (pre' & rest & _ & H & ->).
  inversion H as [|? u ? post' Hu Hp]; subst.
  exists pre', u, post'. auto.
Qed.

(** The rows of the permissions after the upsert. *)
Definition upserted (groupId : Id) (updates : list (PermissionKey * Role)) (s : Store)
  : list GroupPermission.t :=
  if is_some (permissionsRow s groupId)
  then map (fun p =>
              if Js.seq (GroupPermission.groupId p) groupId
              then GroupPermission.mk (GroupPermission.groupId p)
                     (overlay updates (GroupPermission.required p))
              else p)
           (groupPermissions s)
  else groupPermissions s
       ++ [GroupPermission.mk groupId (overlay updates DEFAULT_PERMISSIONS)].

Lemma upserted_row groupId updates s g :
  permissionsRow (set_groupPermissions s (upserted groupId updates s)) g
  = if Js.seq g groupId
    then Some (GroupPermission.mk groupId (overlay updates (getGroupPermissions s groupId)))
    else permissionsRow s g.
Proof.
  unfold upserted, getGroupPermissions, permissionsRow, set_groupPermissions.
  cbn [groupPermissions].
  destruct (first (fun p => Js.seq (GroupPermission.groupId p) groupId)
                  (groupPermissions s)) as [p0|] eqn:E; cbn [is_some].
  - rewrite MembershipFacts.first_map.
    + destruct (Js.seq g groupId) eqn:Eg.
      * apply seq_true in Eg. subst g. rewrite E. cbn [option_map].
        apply first_some in E as [_ Hp]. rewrite Hp.
        apply seq_true in Hp. rewrite Hp. reflexivity.
      * destruct (first (fun p => Js.seq (GroupPermission.groupId p) g)
                        (groupPermissions s)) as [p|] eqn:Ep; [|reflexivity].
        cbn [option_map]. apply first_some in Ep as [_ Hp]. apply seq_true in Hp.
        destruct (Js.seq (GroupPermission.groupId p) groupId) eqn:Eq; [|reflexivity].
        apply seq_true in Eq. rewrite <- Hp, Eq, seq_refl in Eg. discriminate.
    + intros x. destruct (Js.seq (GroupPermission.groupId x) groupId); reflexivity.
  - destruct (Js.seq g groupId) eqn:Eg.
    + apply seq_true in Eg. subst g. apply first_app_none; [exact E|]. apply seq_refl.
    + rewrite first_app.
      destruct (first (fun p => Js.seq (GroupPermission.groupId p) g)
                      (groupPermissions s)); [reflexivity|].
      unfold first. cbn [find GroupPermission.groupId]. rewrite seq_sym, Eg. reflexivity.
Qed.

Lemma upserted_in groupId updates s p :
  In p (upserted groupId updates s) ->
  In p (groupPermissions s)
  \/ exists base, p = GroupPermission.mk groupId (overlay updates base)
                  /\ (base = DEFAULT_PERMISSIONS
                      \/ exists p0, In p0 (groupPermissions s)
                                    /\ base = GroupPermission.required p0).
Proof.
  unfold upserted. destruct (is_some (permissionsRow s groupId)).
  - intros H. apply in_map_iff in H as (p0 & <- & Hin).
    destruct (Js.seq (GroupPermission.groupId p0) groupId) eqn:E; [|left; exact Hin].
    right. exists (GroupPermission.required p0). apply seq_true in E. rewrite E.
    split; [reflexivity|]. right. exists p0. auto.
  - intros H. apply in_app_iff in H as [H|[<-|[]]]; [left; exact H|].
    right. exists DEFAULT_PERMISSIONS. auto.
Qed.

Section Io.
Variable io : Room -> string -> Notice -> Effect.

(** What the update of the permissions answers, and what it leaves. *)
Lemma updatePermissions_cases agent groupId permissions error e w :
  (exists r, respond 200 (updatePermissions io agent groupId permissions) error e w
             = (w, Refused r))
  \/ (exists entries updates x,
        isAdmin (db w) groupId (ra_id agent) = true
        /\ permissions = Some entries
        /\ validate entries [] = inr updates
        /\ respond 200 (updatePermissions io agent groupId permissions) error e w
           = (mkWorld (set_groupPermissions (db w) (upserted groupId updates (db w)))
                (drawn w)
                (trace w
                 ++ [x; io (GroupRoom groupId) "group:permissionsUpdated"
                          (NPermissionsUpdated groupId
                             (getGroupPermissions
                                (set_groupPermissions (db w)
                                   (upserted groupId updates (db w))) groupId)
                             agent)]),
              Answered 200
                (getGroupPermissions
                   (set_groupPermissions (db w) (upserted groupId updates (db w)))
                   groupId))).
Proof.
  unfold respond, updatePermissions, notify. monad.
  destruct (isAdmin (db w) groupId (ra_id agent)) eqn:Em; cbn [negb];
    [|left; eexists; reflexivity].
  cbv beta iota.
  destruct permissions as [entries|]; [|left; eexists; reflexivity].
  destruct (validate entries []) as [err|updates] eqn:Ev; [left; eexists; reflexivity|].
  unfold upserted.
  destruct (is_some (permissionsRow (db w) groupId)) eqn:Ex.
  - right. exists entries, updates, (Updated TgroupPermissions).
    split; [reflexivity|]. split; [reflexivity|]. split; [exact Ev|].
    cbn [updatePermissionsRow db drawn trace]. rewrite <- app_assoc. reflexivity.
  - unfold insertPermissionsRow. rewrite Ex.
    destruct (negb (is_some (groupById (db w) groupId))); cbn [orb];
      [left; eexists; reflexivity|].
    right. exists entries, updates, (Inserted TgroupPermissions).
    split; [reflexivity|]. split; [reflexivity|]. split; [exact Ev|].
    cbn [db drawn trace]. rewrite <- app_assoc. reflexivity.
Qed.

End Io.

(** X28.  Updating the permissions of a group.  When the permission
    [deleteGroup] is admin-only in every stored row, it stays so
    whatever is asked.  A refusal leaves the world as it was.  Only an
    admin of the group gets an answer with permissions: these are the
    ones stored for the group and the ones the permission check
    requires of its members from then on; a key the body does not name
    keeps the role it had (the default when the group had no row), a
    key it names gets the role of its last entry; the members and the
    permissions of the other groups are as before. *)
Theorem permissions_update_keeps_group_deletion_to_admins
    (io : Room -> string -> Notice -> Effect) (agent : ReqAgent) (groupId : Id)
    (permissions : option (list (string * string)))
    (error : string) (e : Env) (w w1 : World) (a : Answer (PermissionKey -> Role)) :
  respond 200 (updatePermissions io agent groupId permissions) error e w = (w1, a) ->
  (forall p, In p (groupPermissions (db w)) ->
             GroupPermission.required p deleteGroup = admin) ->
  (forall p, In p (groupPermissions (db w1)) ->
             GroupPermission.required p deleteGroup = admin)
  /\ match a with
     | Refused r => w1 = w
     | Answered code new =>
         isAdmin (db w) groupId (ra_id agent) = true
         /\ new deleteGroup = admin
         /\ (forall k, getGroupPermissions (db w1) groupId k = new k)
         /\ (forall agentId k,
               isMember (db w1) groupId agentId = true ->
               requiredRole (checkGroupPermission (db w1) groupId agentId k) = new k)
         /\ (exists entries,
               permissions = Some entries
               /\ (forall k,
                     (forall entry, In entry entries -> parseKey (fst entry) <> Some k) ->
                     new k = getGroupPermissions (db w) groupId k)
               /\ (forall pre entry post k,
                     entries = pre ++ entry :: post ->
                     parseKey (fst entry) = Some k ->
                     (forall x, In x post -> parseKey (fst x) <> Some k) ->
                     Groups.parseRole (Some (snd entry)) = Some (new k)))
         /\ (forall g k, g <> groupId ->
               getGroupPermissions (db w1) g k = getGroupPermissions (db w) g k)
         /\ groupMembers (db w1) = groupMembers (db w)
     end.
Proof.
  intros H Hinv.
  destruct (updatePermissions_cases io agent groupId permissions error e w)
    as [(r0 & E)|(entries & updates & x & Ha & -> & Hv & E)];
    rewrite E in H; injection H as <- <-.
  - split; [exact Hinv|reflexivity].
  - destruct (validate_accepted _ _ _ Hv) as (parsed & Hu & Hp). cbn [app] in Hu. subst updates.
    assert (Hadm : forall u, In u parsed -> fst u = deleteGroup -> snd u = admin).
    { intros u Hin. destruct (accepted_in _ _ _ Hp Hin) as (_ & _ & _ & _ & Hd). exact Hd. }
    assert (Hbase : getGroupPermissions (db w) groupId deleteGroup = admin).
    { unfold getGroupPermissions. destruct (permissionsRow (db w) groupId) as [p|] eqn:Er;
        [|reflexivity].
      apply first_some in Er as [Hin _]. exact (Hinv p Hin). }
    assert (Hnew : forall k,
               getGroupPermissions
                 (set_groupPermissions (db w) (upserted groupId parsed (db w))) groupId k
               = overlay parsed (getGroupPermissions (db w) groupId) k).
    { intros k. unfold getGroupPermissions at 1. rewrite upserted_row, seq_refl.
      reflexivity. }
    cbn [db trace]. split.
    + intros p Hin. cbn [groupPermissions set_groupPermissions] in Hin.
      apply upserted_in in Hin as [Hin|(base & -> & Hb)]; [exact (Hinv p Hin)|].
      cbn [GroupPermission.required]. apply overlay_deleteGroup; [exact Hadm|].
      destruct Hb as [->|(p0 & Hin & ->)]; [reflexivity|exact (Hinv p0 Hin)].
    + split; [exact Ha|]. split; [|split; [|split; [|split; [|split]]]].
      * rewrite Hnew. apply overlay_deleteGroup; assumption.
      * reflexivity.
      * intros agentId k Hm. unfold checkGroupPermission.
        unfold isMember in Hm.
        destruct (membership _ groupId agentId); [|discriminate].
        cbn [requiredRole]. unfold getGroupPermissions, permissionsRow.
        destruct (first _ (groupPermissions _)); reflexivity.
      * exists entries. split; [reflexivity|]. split.
        -- intros k Hk. rewrite Hnew. apply overlay_untouched.
           intros u Hin Hf. destruct (accepted_in _ _ _ Hp Hin) as (entry & He & Hk' & _).
           apply (Hk entry He). rewrite Hk', Hf. reflexivity.
        -- intros pre entry post k He Hk Hpost.
           destruct (accepted_split _ _ _ _ _ Hp He)
             as (pre' & u & post' & -> & (Hk' & Hr & _) & Hp').
           rewrite Hk in Hk'. injection Hk' as ->.
           rewrite Hnew, overlay_last; [exact Hr|].
           intros y Hy Hf. destruct (accepted_in _ _ _ Hp' Hy) as (en & Hen & Hky & _).
           apply (Hpost en Hen). rewrite Hky, Hf. reflexivity.
      * intros g k Hg. unfold getGroupPermissions. rewrite upserted_row.
        apply seq_false in Hg. rewrite Hg. reflexivity.
      * reflexivity.
Qed.

(** Ava lets every member of her group pin messages. *)
Lemma permissions_update_keeps_group_deletion_to_admins_witness :
  getGroupPermissions
    (db (fst (respond 200
                (updatePermissions brief (reqAgentOf Sample.ava) "u"
                   (Some [("pinMessages", "member")]))
                "Failed to update permissions" (Sample.at_ 20)
                (GroupSpec.run Sample.start (firstn 1 Sample.adminLeaves)))))
    "u" deleteGroup = admin
  /\ Groups.parseRole (Some "member")
     = Some (getGroupPermissions
               (db (fst (respond 200
                           (updatePermissions brief (reqAgentOf Sample.ava) "u"
                              (Some [("pinMessages", "member")]))
                           "Failed to update permissions" (Sample.at_ 20)
                           (GroupSpec.run Sample.start (firstn 1 Sample.adminLeaves)))))
               "u" pinMessages).
Proof.
  assert (H : respond 200
                (updatePermissions brief (reqAgentOf Sample.ava) "u"
                   (Some [("pinMessages", "member")]))
                "Failed to update permissions" (Sample.at_ 20)
                (GroupSpec.run Sample.start (firstn 1 Sample.adminLeaves))
              = (fst (respond 200
                        (updatePermissions brief (reqAgentOf Sample.ava) "u"
                           (Some [("pinMessages", "member")]))
                        "Failed to update permissions" (Sample.at_ 20)
                        (GroupSpec.run Sample.start (firstn 1 Sample.adminLeaves))),
                 Answered 200
                   (getGroupPermissions
                      (db (fst (respond 200
                                  (updatePermissions brief (reqAgentOf Sample.ava) "u"
                                     (Some [("pinMessages", "member")]))
                                  "Failed to update permissions" (Sample.at_ 20)
                                  (GroupSpec.run Sample.start
                                     (firstn 1 Sample.adminLeaves)))))
                      "u")))
    by (vm_compute; reflexivity).
  assert (Hinv : forall p,
             In p (groupPermissions
                     (db (GroupSpec.run Sample.start (firstn 1 Sample.adminLeaves)))) ->
             GroupPermission.required p deleteGroup = admin)
    by (intros p Hin; vm_compute in Hin; contradiction).
  destruct (proj2 (permissions_update_keeps_group_deletion_to_admins
                     _ _ _ _ _ _ _ _ _ H Hinv))
    as (_ & Hd & _ & _ & (entries & He & _ & Hlast) & _).
  split; [exact Hd|].
  injection He as <-.
  exact (Hlast [] ("pinMessages", "member") [] pinMessages eq_refl eq_refl
           (fun x Hx => match Hx with end)).
Defined.

Section Io.
Variable io : Room -> string -> Notice -> Effect.

Lemma notified (l : list DirectMessage.t) (k : Handler unit) e w :
  fold_right
    (fun msg rest =>
       notify io (AgentRoom (DirectMessage.fromAgentId msg)) "dm:expired"
         (NExpired (DirectMessage.id msg)) ;;
       notify io (AgentRoom (DirectMessage.toAgentId msg)) "dm:expired"
         (NExpired (DirectMessage.id msg)) ;;
       rest)
    k l e w
  = k e (mkWorld (db w) (drawn w) (trace w ++ flat_map (notices io) l)).
Proof.
  revert w. induction l as [|msg l IH]; intros w; cbn [fold_right flat_map].
  - rewrite app_nil_r. destruct w; reflexivity.
  - unfold notify at 1 2. unfold bind at 1 2. unfold log.
    rewrite IH. cbn [db drawn trace]. unfold notices at 2.
    rewrite <- !app_assoc. reflexivity.
Qed.

(** What the job leaves. *)
Lemma cleanup_world e w :
  cleanupExpiredMessages io e w
  = match filter (expired (now e)) (directMessages (db w)) with
    | [] => w
    | gone =>
        mkWorld
          (mkStore (agents (db w)) (groups (db w)) (groupMembers (db w))
             (groupPermissions (db w)) (messages (db w)) (messageReactions (db w))
             (filter (fun m => negb (expired (now e) m)) (directMessages (db w)))
             (agentBlocks (db w))
             (filter (fun r =>
                        negb (existsb (fun m => expired (now e) m
                                                && Js.seq (DirectMessage.id m)
                                                     (DmReaction.messageId r))
                                      (directMessages (db w))))
                     (dmReactions (db w)))
             (dmConversations (db w)) (agentBadges (db w)))
          (drawn w)
          (trace w ++ flat_map (notices io) gone ++ [Deleted TdirectMessages])
    end.
Proof.
  unfold cleanupExpiredMessages, cleanup.
  unfold bind at 1. unfold newDate. unfold bind at 1. unfold select.
  destruct (filter (expired (now e)) (directMessages (db w))) as [|m l] eqn:Ef;
    [reflexivity|].
  unfold bind at 1. rewrite notified. unfold ret, write, deleteExpired.
  cbn [db drawn trace fst]. rewrite <- app_assoc. reflexivity.
Qed.

End Io.

Lemma filter_filter_nil {A} (p : A -> bool) (l : list A) :
  filter p (filter (fun x => negb (p x)) l) = [].
Proof.
  induction l as [|x r IH]; cbn [filter]; [reflexivity|].
  destruct (p x) eqn:E; cbn [negb filter]; [exact IH|]. rewrite E. exact IH.
Qed.

(** X29.  The job that removes expired direct messages.  After a run
    at an instant no stored message has expired by that instant, the
    messages that have not expired are all there in their order, and a
    reaction stays exactly when its message has not expired; for each
    message removed its sender and its recipient are told once, in the
    order of the rows, before the deletion; nothing else changes, and a
    second run at the same instant changes nothing. *)
Theorem cleanup_removes_exactly_the_expired
    (io : Room -> string -> Notice -> Effect) (e : Env) (w : World) :
  let w1 := cleanupExpiredMessages io e w in
  directMessages (db w1)
  = filter (fun m => negb (expired (now e) m)) (directMessages (db w))
  /\ (forall m, In m (directMessages (db w1)) ->
                forall x, DirectMessage.expiresAt m = Some x -> now e <= x)
  /\ (forall r, In r (dmReactions (db w1))
                <-> In r (dmReactions (db w))
                    /\ forall m, In m (directMessages (db w)) ->
                                 DirectMessage.id m = DmReaction.messageId r ->
                                 expired (now e) m = false)
  /\ (exists deleted,
        trace w1
        = trace w
          ++ flat_map (notices io) (filter (expired (now e)) (directMessages (db w)))
          ++ deleted
        /\ (deleted = [] \/ deleted = [Deleted TdirectMessages])
        /\ (filter (expired (now e)) (directMessages (db w)) = [] -> w1 = w))
  /\ agents (db w1) = agents (db w)
  /\ messages (db w1) = messages (db w)
  /\ dmConversations (db w1) = dmConversations (db w)
  /\ agentBlocks (db w1) = agentBlocks (db w)
  /\ cleanupExpiredMessages io e w1 = w1.
Proof.
  cbv zeta. rewrite !cleanup_world.
  assert (Hkeep : forall l : list DirectMessage.t,
             filter (expired (now e)) l = [] ->
             filter (fun m => negb (expired (now e) m)) l = l).
  { intros l. induction l as [|m l IH]; cbn [filter]; [reflexivity|].
    destruct (expired (now e) m); [discriminate|]. cbn [negb]. intros H.
    rewrite (IH H). reflexivity. }
  assert (Hlive : forall m, In m (filter (fun m => negb (expired (now e) m))
                                         (directMessages (db w))) ->
                            forall x, DirectMessage.expiresAt m = Some x -> now e <= x).
  { intros m Hin x Hx. apply filter_In in Hin as [_ Hn].
    unfold expired in Hn. rewrite Hx in Hn. apply negb_true_iff in Hn. lia. }
  destruct (filter (expired (now e)) (directMessages (db w))) as [|m0 gone] eqn:Ef.
  - rewrite Ef. rewrite (Hkeep _ Ef) in Hlive. rewrite (Hkeep _ Ef).
    split; [reflexivity|]. split; [exact Hlive|]. split; [|split].
    + intros r. split; [|tauto]. intros Hin. split; [exact Hin|].
      intros m Hm _. destruct (expired (now e) m) eqn:Ex; [|reflexivity].
      assert (Hf : In m (filter (expired (now e)) (directMessages (db w))))
        by (apply filter_In; auto).
      rewrite Ef in Hf. contradiction.
    + exists []. cbn [flat_map app]. rewrite app_nil_r. auto.
    + repeat split.
  - cbn [db directMessages dmReactions trace agents messages dmConversations agentBlocks].
    rewrite filter_filter_nil.
    split; [reflexivity|]. split; [exact Hlive|]. split; [|split].
    + intros r. rewrite filter_In, negb_true_iff. split.
      * intros [Hin Hx]. split; [exact Hin|]. intros m Hm Hid.
        destruct (expired (now e) m) eqn:Ex; [|reflexivity].
        assert (Ht : existsb (fun m => expired (now e) m
                                       && Js.seq (DirectMessage.id m)
                                            (DmReaction.messageId r))
                             (directMessages (db w)) = true).
        { apply existsb_exists. exists m. split; [exact Hm|].
          rewrite Ex. apply seq_true. exact Hid. }
        rewrite Ht in Hx. discriminate.
      * intros [Hin Hx]. split; [exact Hin|].
        destruct (existsb _ (directMessages (db w))) eqn:Ex; [|reflexivity].
        exfalso. apply existsb_exists in Ex as (m & Hm & Hb).
        apply andb_true_iff in Hb as [He Hid]. apply seq_true in Hid.
        rewrite (Hx m Hm Hid) in He. discriminate.
    + exists [Deleted TdirectMessages]. split; [reflexivity|]. split; [auto|].
      intros H. discriminate.
    + repeat split.
Qed.

End ModerationFacts.
